(** * MecaFlow-Learn: the CAD comparison and scoring engine

    A shallow embedding of the grading engine of the repository:
      - [services/occComparison.py]   (STEP parts and assemblies, OpenCASCADE),
      - [services/comparisonService.py] (the older FreeCAD part comparator),
      - [services/occCompareDXF.py]   (DXF drawings),
      - [services/compare_dxf_worker.py] (the tally of DXF entities),
      - of [main.py]: the [/api/compare-cad] route, which calls the STEP
        comparator, the quiz score and, from the submission of an exercise,
        the gate in front of the STEP comparison and the marks.

    Numbers.  Python floats are modelled as exact rationals ([Q]); the float
    literals [1e-6], [1e-2], [5e-2], [1.5] and [1.1] are the rationals they
    denote, and [round(x, n)] is rounding to the nearest multiple of [10^-n],
    ties to the even neighbour.  Python integers are [Z].

    Exceptions.  A Python call that may raise returns a [result]: [Ok v] or
    [Raise e].

    The geometry kernels (OpenCASCADE, ezdxf) are not part of the repository.
    A shape is represented by what the kernel reports about it: the
    sub-shapes its explorers enumerate and, for each, the measures the
    property calls return.  One behaviour of the kernel matters where the
    engine hands the same [GProp_GProps] object to several property calls:
    whether a call adds to what the object retains or empties it first.
    The model takes it as a parameter, [Accumulation], and the facts below
    are stated for both values. *)

From Stdlib Require Import QArith Qabs Qminmax Qround Qreduction.
From Stdlib Require Import ZArith List String Bool Lia Lqa.
From Stdlib Require Import DecimalString.
From Stdlib Require Import Permutation.
Import ListNotations.

Local Open Scope Q_scope.

(* ================================================================== *)
(** ** Python prelude *)
(* ================================================================== *)

Module Py.

(** The exceptions the engine raises or receives. *)
Inductive exn : Type :=
| Exception (msg : string)
| ValueError (msg : string)
| KeyError (key : string)
| FileNotFoundError (msg : string)
| DXFError (msg : string)
| RuntimeError (msg : string).

(** [str(e)] *)
Definition str (e : exn) : string :=
  match e with
  | Exception m | ValueError m | FileNotFoundError m | DXFError m
  | RuntimeError m => m
  | KeyError k => ("'" ++ k ++ "'")%string
  end.

Inductive result (A : Type) : Type :=
| Ok (a : A)
| Raise (e : exn).
Arguments Ok {A} a.
Arguments Raise {A} e.

Definition bind {A B} (c : result A) (k : A -> result B) : result B :=
  match c with
  | Ok a => k a
  | Raise e => Raise e
  end.

(** [d[key]] on a dictionary where the key may be absent. *)
Definition getitem {A} (key : string) (v : option A) : result A :=
  match v with
  | Some a => Ok a
  | None => Raise (KeyError key)
  end.

(** [key in d] *)
Definition contains {A} (v : option A) : bool :=
  match v with Some _ => true | None => false end.

(** Comparisons of floats. *)
Definition leb (x y : Q) : bool := Qle_bool x y.
Definition geb (x y : Q) : bool := Qle_bool y x.
Definition gtb (x y : Q) : bool := negb (Qle_bool x y).

(** [sum(l)]: starts at 0 and adds from the left. *)
Definition sum (l : list Q) : Q := fold_left Qplus l 0.

Definition sumZ (l : list Z) : Z := fold_left Z.add l 0%Z.

(** [all(l)] *)
Definition all (l : list bool) : bool := forallb (fun b => b) l.

(** [len(l)] as a number. *)
Definition len {A} (l : list A) : Q := inject_Z (Z.of_nat (List.length l)).

(** Nearest integer, ties to even. *)
Definition round_half_even (x : Q) : Z :=
  let f := Qfloor x in
  match Qcompare (x - inject_Z f) (1 # 2) with
  | Lt => f
  | Gt => (f + 1)%Z
  | Eq => if Z.even f then f else (f + 1)%Z
  end.

Definition pow10 (n : nat) : Q := inject_Z (10 ^ Z.of_nat n).

(** [round(x, n)] *)
Definition round (x : Q) (n : nat) : Q :=
  Qred (inject_Z (round_half_even (x * pow10 n)) / pow10 n).

(** Triples (Python 3-tuples of floats). *)
Definition Vec3 : Type := (Q * Q * Q)%type.

(** [zip(a, b)] on two 3-tuples. *)
Definition zip3 (a b : Vec3) : list (Q * Q) :=
  let '(a1, a2, a3) := a in
  let '(b1, b2, b3) := b in
  [(a1, b1); (a2, b2); (a3, b3)].

Definition round3 (v : Vec3) (n : nat) : Vec3 :=
  let '(x, y, z) := v in (round x n, round y n, round z n).

End Py.

Notation "x <- c ;; k" := (Py.bind c (fun x => k))
  (at level 61, c at next level, right associativity).
Notation "' pat <- c ;; k" := (Py.bind c (fun pat => k))
  (at level 61, pat pattern, c at next level, right associativity).

Import Py.

(* ================================================================== *)
(** ** The geometry kernel, as the engine observes it *)
(* ================================================================== *)

Module Kernel.

(** What [Bnd_Box.Get()] returns. *)
Record Box : Type := mkBox {
  xmin : Q; ymin : Q; zmin : Q;
  xmax : Q; ymax : Q; zmax : Q
}.

Definition box_union (a b : Box) : Box :=
  {| xmin := Qmin (xmin a) (xmin b);
     ymin := Qmin (ymin a) (ymin b);
     zmin := Qmin (zmin a) (zmin b);
     xmax := Qmax (xmax a) (xmax b);
     ymax := Qmax (ymax a) (ymax b);
     zmax := Qmax (zmax a) (zmax b) |}.

(** [Bnd_Box()]: void until a shape is added, then the union of the boxes
    of the shapes added so far. *)
Definition Bnd_Box : Type := option Box.

Definition Bnd_Box_new : Bnd_Box := None.

Definition Bnd_Box_Add (shape_box : Box) (bbox : Bnd_Box) : Bnd_Box :=
  match bbox with
  | None => Some shape_box
  | Some b => Some (box_union b shape_box)
  end.

Definition Bnd_Box_Get (bbox : Bnd_Box) : result Box :=
  match bbox with
  | Some b => Ok b
  | None => Raise (RuntimeError "Bnd_Box is void")
  end.

(** [GProp_GProps]: the part of the state the engine reads back, the
    accumulated measure ([Mass()]) and its centre ([CentreOfMass()]). *)
Record GProp_GProps : Type := mkGProps {
  dim : Q;
  g : Vec3
}.

Definition GProp_GProps_new : GProp_GProps :=
  {| dim := 0; g := (0, 0, 0) |}.

Definition Mass (props : GProp_GProps) : Q := dim props.
Definition CentreOfMass (props : GProp_GProps) : Vec3 := g props.

(** [GProp_GProps::Add]: the measures add up and the centre becomes the
    measure-weighted mean of the two centres. *)
Definition GProp_Add (props item : GProp_GProps) : GProp_GProps :=
  let '(gx, gy, gz) := g props in
  let '(ix, iy, iz) := g item in
  let d := dim props + dim item in
  {| dim := d;
     g := if geb (Qabs d) 1e-20
          then ((gx * dim props + ix * dim item) / d,
                (gy * dim props + iy * dim item) / d,
                (gz * dim props + iz * dim item) / d)
          else (0, 0, 0) |}.

(** A solid, by what the kernel reports for it: the volume properties, the
    bounding box, the explorer counts and the eigenvalues [numpy] finds
    for its matrix of inertia. *)
Record Solid : Type := mkSolid {
  solid_volume : Q;
  solid_centre : Vec3;
  solid_box : Box;
  solid_faces : nat;
  solid_edges : nat;
  solid_vertices : nat;
  solid_eigvals : Vec3
}.

(** A shell (or a single face measured the same way): the surface
    properties, the bounding box, the explorer counts and the diagonal of
    its matrix of inertia. *)
Record Shell : Type := mkShell {
  shell_area : Q;
  shell_centre : Vec3;
  shell_box : Box;
  shell_faces : nat;
  shell_edges : nat;
  shell_vertices : nat;
  shell_inertia_diag : Vec3
}.

Definition Face : Type := Shell.

(** What a property call does with a [props] object that already retains
    properties: it either brings the properties of the shape together with
    them, or empties the object first.  The engine is modelled on both
    kernels. *)
Inductive Accumulation : Type :=
| Adds
| Replaces.

Definition update (k : Accumulation) (props item : GProp_GProps)
  : GProp_GProps :=
  match k with
  | Adds => GProp_Add props item
  | Replaces => item
  end.

(** [brepgprop_VolumeProperties(solid, props)] and
    [brepgprop_SurfaceProperties(shell, props)] *)
Definition brepgprop_VolumeProperties (k : Accumulation) (solid : Solid)
           (props : GProp_GProps) : GProp_GProps :=
  update k props {| dim := solid_volume solid; g := solid_centre solid |}.

Definition brepgprop_SurfaceProperties (k : Accumulation) (shell : Shell)
           (props : GProp_GProps) : GProp_GProps :=
  update k props {| dim := shell_area shell; g := shell_centre shell |}.

(** A shape handle: the sub-shapes the explorers enumerate, in the
    kernel's traversal order. *)
Record Shape : Type := mkShape {
  shape_solids : list Solid;
  shape_shells : list Shell;
  shape_faces : list Face
}.

(** The STEP files on disk: [None] when the reader's status is not
    [IFSelect_RetDone] (missing or corrupt file). *)
Definition StepFiles : Type := string -> option Shape.

End Kernel.

Import Kernel.

(* ================================================================== *)
(** ** services/occComparison.py *)
(* ================================================================== *)

Module OccComparison.

(** *** STEP file utilities *)

Definition read_step_file (fs : StepFiles) (filename : string)
  : result Shape :=
  match fs filename with
  | Some shape => Ok shape
  | None => Raise (Exception ("Error reading STEP file: " ++ filename))
  end.

Definition get_solids_from_shape (shape : Shape) : list Solid :=
  shape_solids shape.

Definition get_shells_from_shape (shape : Shape) : list Shell :=
  shape_shells shape.

Definition get_faces_from_shape (shape : Shape) : list Face :=
  shape_faces shape.

(** *** Property extraction *)

(** The ["topology"] dictionary. *)
Record Topology : Type := mkTopology {
  faces : Z;
  edges : Z;
  vertices : Z
}.

Definition Topology_eqb (a b : Topology) : bool :=
  Z.eqb (faces a) (faces b) && Z.eqb (edges a) (edges b)
  && Z.eqb (vertices a) (vertices b).

(** The property dictionary.  The keys ["volume"] (solids) and
    ["surface_area"], ["type"] (shells, surfaces) are present in some
    dictionaries only: [None] is an absent key. *)
Record Props : Type := mkProps {
  volume : option Q;
  surface_area : option Q;
  center_of_mass : Vec3;
  dimensions : Vec3;
  topology : Topology;
  type : option string;
  principal_moments : Vec3
}.

(** [(xmax - xmin, ymax - ymin, zmax - zmin)] *)
Definition extents (b : Box) : Vec3 :=
  (xmax b - xmin b, ymax b - ymin b, zmax b - zmin b).

Definition get_solid_properties (k : Accumulation) (solid : Solid)
  : result Props :=
  let props := brepgprop_VolumeProperties k solid GProp_GProps_new in
  let volume := Mass props in
  let com := CentreOfMass props in
  let bbox := Bnd_Box_Add (solid_box solid) Bnd_Box_new in
  b <- Bnd_Box_Get bbox ;;
  let dimensions := extents b in
  let num_faces := Z.of_nat (solid_faces solid) in
  let num_edges := Z.of_nat (solid_edges solid) in
  let num_vertices := Z.of_nat (solid_vertices solid) in
  let '(e1, e2, e3) := solid_eigvals solid in
  Ok {| volume := Some (round volume 3);
        surface_area := None;
        center_of_mass := round3 com 3;
        dimensions := round3 dimensions 3;
        topology := {| faces := num_faces; edges := num_edges;
                       vertices := num_vertices |};
        type := None;
        principal_moments :=
          (round (Qabs e1) 3, round (Qabs e2) 3, round (Qabs e3) 3) |}.

Definition get_shell_properties (k : Accumulation) (shell : Shell)
  : result Props :=
  let props := brepgprop_SurfaceProperties k shell GProp_GProps_new in
  let bbox := Bnd_Box_Add (shell_box shell) Bnd_Box_new in
  b <- Bnd_Box_Get bbox ;;
  let dimensions := extents b in
  let num_faces := Z.of_nat (shell_faces shell) in
  let num_edges := Z.of_nat (shell_edges shell) in
  let num_vertices := Z.of_nat (shell_vertices shell) in
  let principal_props := shell_inertia_diag shell in
  Ok {| volume := None;
        surface_area := Some (round (Mass props) 3);
        center_of_mass := round3 (CentreOfMass props) 3;
        dimensions := round3 dimensions 3;
        topology := {| faces := num_faces; edges := num_edges;
                       vertices := num_vertices |};
        type := Some (if (1 <? num_faces)%Z then "shell" else "surface")%string;
        principal_moments := round3 principal_props 3 |}.

Definition get_face_properties (k : Accumulation) (face : Face)
  : result Props :=
  get_shell_properties k face.

(** The state of the loop [for shell in shells] that combines several
    shells: the one [props] object every iteration passes to the kernel,
    and the four running totals. *)
Record Totals : Type := mkTotals {
  props_obj : GProp_GProps;
  total_area : Q;
  total_faces : Z;
  total_edges : Z;
  total_vertices : Z
}.

Definition combine_shell (k : Accumulation) (st : Totals) (shell : Shell)
  : Totals :=
  let props := brepgprop_SurfaceProperties k shell (props_obj st) in
  {| props_obj := props;
     total_area := total_area st + Mass props;
     total_faces := (total_faces st + Z.of_nat (shell_faces shell))%Z;
     total_edges := (total_edges st + Z.of_nat (shell_edges shell))%Z;
     total_vertices :=
       (total_vertices st + Z.of_nat (shell_vertices shell))%Z |}.

Definition get_multi_shell_properties (k : Accumulation)
           (shells : list Shell) : result Props :=
  let bbox :=
    fold_left (fun bbox shell => Bnd_Box_Add (shell_box shell) bbox)
              shells Bnd_Box_new in
  b <- Bnd_Box_Get bbox ;;
  let dimensions := extents b in
  let st :=
    fold_left (combine_shell k) shells
              {| props_obj := GProp_GProps_new; total_area := 0;
                 total_faces := 0; total_edges := 0;
                 total_vertices := 0 |} in
  Ok {| volume := None;
        surface_area := Some (round (total_area st) 3);
        center_of_mass := round3 (CentreOfMass (props_obj st)) 3;
        dimensions := round3 dimensions 3;
        topology := {| faces := total_faces st; edges := total_edges st;
                       vertices := total_vertices st |};
        type := Some "shell"%string;
        principal_moments :=
          (round (total_area st) 3, round (total_area st) 3,
           round (total_area st) 3) |}.

(** [shape] is [None] for Python's [None]. *)
Definition get_shape_properties (k : Accumulation) (shape : option Shape)
  : result Props :=
  match shape with
  | None => Raise (ValueError "Invalid shape: None")
  | Some shape =>
    match get_solids_from_shape shape with
    | solid0 :: _ => get_solid_properties k solid0
    | [] =>
      match get_shells_from_shape shape with
      | [shell0] => get_shell_properties k shell0
      | (_ :: _ :: _) as shells => get_multi_shell_properties k shells
      | [] =>
        match get_faces_from_shape shape with
        | face0 :: _ => get_face_properties k face0
        | [] =>
          Raise (ValueError
            "No valid geometry (solid, shell, or face) found in shape.")
        end
      end
    end
  end.

(** *** Comparison *)

(** The two tests the comparator applies to a submitted value [s] and a
    reference value [r]; the source writes them out at each use
    (lines 248-254, 286-289, 298-300, 306-308, 329). *)
Definition within (s r tol : Q) : bool :=
  leb (Qabs (s - r)) (tol * Qmax (Qabs r) 1).

Definition pct (s r : Q) : Q :=
  100 - Qmin 100 (100 * Qabs (s - r) /
                  (if gtb (Qabs r) 1e-6 then Qabs r else 1)).

(** One [{"ok": ..., "score": ...}] entry of the feedback. *)
Record Feature : Type := mkFeature {
  ok : bool;
  score : Q
}.

Record NumComponents : Type := mkNumComponents {
  submitted : Z;
  reference : Z;
  num_ok : bool;
  message : string
}.

Record Match : Type := mkMatch {
  index : Z;
  volume_ok : bool;
  volume_score : Q;
  center_of_mass_ok : bool;
  center_of_mass_sub : Vec3;
  center_of_mass_ref : Vec3;
  topology_match : bool
}.

Record AssemblyFeedback : Type := mkAssemblyFeedback {
  num_components : NumComponents;
  components_match : list Match;
  asm_global_score : Q;
  asm_success : bool
}.

(** The part feedback; ["volume"] and ["surface_area"] are keys of which
    exactly one is set. *)
Record PartFeedback : Type := mkPartFeedback {
  fb_dimensions : Feature;
  fb_volume : option Feature;
  fb_surface_area : option Feature;
  fb_topology : Feature;
  fb_principal_moments : Feature;
  global_score : Q;
  success : bool
}.

Inductive Feedback : Type :=
| Assembly (fb : AssemblyFeedback)
| Part (fb : PartFeedback).

(** [enumerate(l)] *)
Fixpoint enumerate_from {A} (i : Z) (l : list A) : list (Z * A) :=
  match l with
  | [] => []
  | a :: l' => (i, a) :: enumerate_from (i + 1)%Z l'
  end.

Definition enumerate {A} (l : list A) : list (Z * A) := enumerate_from 0%Z l.

(** A [for] loop that appends one item per element and may raise. *)
Fixpoint for_each {A B} (f : A -> result B) (l : list A) : result (list B) :=
  match l with
  | [] => Ok []
  | a :: l' =>
    b <- f a ;;
    bs <- for_each f l' ;;
    Ok (b :: bs)
  end.

(** The body of the assembly loop (lines 245-264). *)
Definition match_pair (k : Accumulation) (tol : Q)
           (item : Z * (Solid * Solid)) : result Match :=
  let '(i, (sub_solid, ref_solid)) := item in
  sub_props <- get_solid_properties k sub_solid ;;
  ref_props <- get_solid_properties k ref_solid ;;
  sub_volume <- getitem "volume" (volume sub_props) ;;
  ref_volume <- getitem "volume" (volume ref_props) ;;
  let vol_ok := within sub_volume ref_volume tol in
  let com_ok :=
    all (map (fun '(s, r) => within s r tol)
             (zip3 (center_of_mass sub_props) (center_of_mass ref_props))) in
  let topo_ok := Topology_eqb (topology sub_props) (topology ref_props) in
  let vol_score := pct sub_volume ref_volume in
  Ok {| index := i;
        volume_ok := vol_ok;
        volume_score := round vol_score 1;
        center_of_mass_ok := com_ok;
        center_of_mass_sub := center_of_mass sub_props;
        center_of_mass_ref := center_of_mass ref_props;
        topology_match := topo_ok |}.

Definition match_passes (m : Match) : bool :=
  volume_ok m && center_of_mass_ok m && topology_match m.

(** Assembly mode (lines 233-272). *)
Definition assembly_mode (k : Accumulation)
           (sub_solids ref_solids : list Solid) (tol : Q) : result Feedback :=
  let same_count := Nat.eqb (List.length sub_solids) (List.length ref_solids) in
  let num := {| submitted := Z.of_nat (List.length sub_solids);
                reference := Z.of_nat (List.length ref_solids);
                num_ok := same_count;
                message := if same_count
                           then "Nombre de sous-pièces correct."
                           else "Nombre de sous-pièces différent." |} in
  matches <- for_each (match_pair k tol)
                      (enumerate (combine sub_solids ref_solids)) ;;
  let n_ok := Z.of_nat (List.length (filter match_passes matches)) in
  let global_score :=
    round (inject_Z n_ok
           / inject_Z (Z.max (Z.of_nat (List.length matches)) 1) * 100) 1 in
  Ok (Assembly
        {| num_components := num;
           components_match := matches;
           asm_global_score := global_score;
           asm_success := geb global_score 80 && same_count |}).

(** Part mode (lines 278-348), on the two property dictionaries. *)
Definition part_mode (sub_props ref_props : Props) (tol : Q)
  : result Feedback :=
  let score := 0 in
  let total := 0 in
  (* Dimensions *)
  let dims := zip3 (dimensions sub_props) (dimensions ref_props) in
  let dims_ok := map (fun '(s, r) => within s r tol) dims in
  let dims_pct := map (fun '(s, r) => pct s r) dims in
  let dims_score := sum dims_pct / len dims_pct in
  let f_dimensions := {| ok := all dims_ok; score := dims_score |} in
  let score := score + dims_score in
  let total := total + 1 in
  (* Volume or surface area *)
  '(measure_score, f_volume, f_surface_area) <-
    (if contains (volume sub_props) && contains (volume ref_props) then
       sub_volume <- getitem "volume" (volume sub_props) ;;
       ref_volume <- getitem "volume" (volume ref_props) ;;
       let measure_ok := within sub_volume ref_volume tol in
       let measure_score := pct sub_volume ref_volume in
       Ok (measure_score,
           Some {| ok := measure_ok; score := measure_score |},
           None)
     else
       let shell_tol := tol * 1.5 in
       sub_area <- getitem "surface_area" (surface_area sub_props) ;;
       ref_area <- getitem "surface_area" (surface_area ref_props) ;;
       let area_diff := Qabs (sub_area - ref_area) in
       let measure_ok := leb area_diff (shell_tol * Qmax (Qabs ref_area) 1) in
       let measure_score :=
         100 - Qmin 100 (100 * area_diff /
                         (if gtb (Qabs ref_area) 1e-6
                          then Qabs ref_area else 1)) in
       let topo_diff :=
         sumZ [Z.abs (faces (topology sub_props) - faces (topology ref_props));
               Z.abs (edges (topology sub_props) - edges (topology ref_props));
               Z.abs (vertices (topology sub_props)
                      - vertices (topology ref_props))] in
       let measure_score :=
         if (topo_diff <=? 6)%Z then Qmin 100 (measure_score * 1.1)
         else measure_score in
       Ok (measure_score,
           None,
           Some {| ok := measure_ok; score := round measure_score 1 |})) ;;
  let score := score + measure_score in
  let total := total + 1 in
  (* Topology *)
  let topo_ok := Topology_eqb (topology sub_props) (topology ref_props) in
  let topo_score := if topo_ok then 100 else 0 in
  let f_topology := {| ok := topo_ok; score := topo_score |} in
  let score := score + topo_score in
  let total := total + 1 in
  (* Moments of inertia *)
  let pm_ok :=
    all (map (fun '(s, r) => within s r tol)
             (zip3 (principal_moments sub_props)
                   (principal_moments ref_props))) in
  let pm_score := if pm_ok then 100 else 0 in
  let f_principal_moments := {| ok := pm_ok; score := pm_score |} in
  let score := score + pm_score in
  let total := total + 1 in
  (* Global score: the average of all scores *)
  let global_score := round (score / total) 1 in
  (* The success threshold varies with the tolerance *)
  let success :=
    if geb tol 5e-2 then geb global_score 70
    else if geb tol 1e-2 then geb global_score 75
    else geb global_score 80 in
  Ok (Part {| fb_dimensions := f_dimensions;
              fb_volume := f_volume;
              fb_surface_area := f_surface_area;
              fb_topology := f_topology;
              fb_principal_moments := f_principal_moments;
              global_score := global_score;
              success := success |}).

Definition compare_models (k : Accumulation) (fs : StepFiles)
           (submitted_path reference_path : string) (tol : Q)
  : result Feedback :=
  sub_shape <- read_step_file fs submitted_path ;;
  ref_shape <- read_step_file fs reference_path ;;
  let sub_solids := get_solids_from_shape sub_shape in
  let ref_solids := get_solids_from_shape ref_shape in
  if (1 <? List.length ref_solids)%nat || (1 <? List.length sub_solids)%nat
  then assembly_mode k sub_solids ref_solids tol
  else
    sub_props <- get_shape_properties k (Some sub_shape) ;;
    ref_props <- get_shape_properties k (Some ref_shape) ;;
    part_mode sub_props ref_props tol.


End OccComparison.

(* ================================================================== *)
(** ** services/comparisonService.py (the FreeCAD part comparator) *)
(* ================================================================== *)

Module ComparisonService.

(** A FreeCAD shape, by what [get_step_properties] reads from it.  Each
    solid is given by the eigenvalues [numpy] finds for its matrix of
    inertia, or by the exception the attempt raises. *)
Record FcShape : Type := mkFcShape {
  Volume : Q;
  BoundBox : Vec3;
  Faces : nat;
  Edges : nat;
  Vertexes : nat;
  Solids : list (result Vec3)
}.

(** The files FreeCAD can read; [None]: [shape.read] raises. *)
Definition FcFiles : Type := string -> option FcShape.

Record Topology : Type := mkTopology {
  faces : Z;
  edges : Z;
  vertices : Z
}.

Definition Topology_eqb (a b : Topology) : bool :=
  Z.eqb (faces a) (faces b) && Z.eqb (edges a) (edges b)
  && Z.eqb (vertices a) (vertices b).

Record StepProperties : Type := mkStepProperties {
  dimensions : Vec3;
  volume : Q;
  topology : Topology;
  principal_moments : list Q
}.

(** [sorted(l, reverse=True)] *)
Fixpoint insert_desc (x : Q) (l : list Q) : list Q :=
  match l with
  | [] => [x]
  | y :: l' => if Qle_bool y x then x :: l else y :: insert_desc x l'
  end.

Definition sorted_desc (l : list Q) : list Q :=
  fold_right insert_desc [] l.

(** [while len(l) < 3: l.append(0.0)] *)
Definition pad3 (l : list Q) : list Q :=
  l ++ repeat 0 (3 - List.length l).

Definition get_step_properties (fs : FcFiles) (file_path : string)
  : result StepProperties :=
  match fs file_path with
  | None => Raise (Exception ("Cannot read " ++ file_path))
  | Some shape =>
    let moments_list :=
      flat_map (fun solid =>
                  match solid with
                  | Ok (e1, e2, e3) =>
                    [[round (Qabs e1) 3; round (Qabs e2) 3;
                      round (Qabs e3) 3]]
                  | Raise _ => []
                  end) (Solids shape) in
    let principal_moments :=
      match Solids shape, moments_list with
      | [], _ => []
      | _ :: _, [] => []
      | _ :: _, _ :: _ =>
        let flat := map Qabs (List.concat moments_list) in
        let flat_sorted := sorted_desc flat in
        match flat_sorted with
        | [] => [0; 0; 0]
        | _ :: _ =>
          pad3 (map (fun v => round v 3) (firstn 3 flat_sorted))
        end
      end in
    Ok {| dimensions := round3 (BoundBox shape) 3;
          volume := round (Volume shape) 3;
          topology := {| faces := Z.of_nat (Faces shape);
                         edges := Z.of_nat (Edges shape);
                         vertices := Z.of_nat (Vertexes shape) |};
          principal_moments := principal_moments |}
  end.

Definition within (s r tol : Q) : bool :=
  leb (Qabs (s - r)) (tol * Qmax (Qabs r) 1).

Definition pct (s r : Q) : Q :=
  100 - Qmin 100 (100 * Qabs (s - r) /
                  (if gtb (Qabs r) 1e-6 then Qabs r else 1)).

(** A feedback entry; [ok] is [None] for Python's [None], [pcts] is the
    optional ["pct"] key. *)
Record Feature : Type := mkFeature {
  ok : option bool;
  score : Q;
  pcts : option (list Q);
  message : string
}.

Record StepFeedback : Type := mkStepFeedback {
  fb_dimensions : Feature;
  fb_volume : Feature;
  fb_principal_moments : Feature;
  fb_topology : Feature;
  global_score : Q;
  success : bool
}.

Record StepComparison : Type := mkStepComparison {
  submitted : StepProperties;
  reference : StepProperties;
  feedback : StepFeedback
}.

(** [a == b] on lists of floats. *)
Fixpoint list_eqb (a b : list Q) : bool :=
  match a, b with
  | [], [] => true
  | x :: a', y :: b' => Qeq_bool x y && list_eqb a' b'
  | _, _ => false
  end.

(** [not l] *)
Definition is_empty {A} (l : list A) : bool :=
  match l with [] => true | _ :: _ => false end.

(** The comparison of the two property dictionaries (lines 136-208). *)
Definition compare_properties (submitted reference : StepProperties)
           (tol : Q) : StepComparison :=
  let score := 0 in
  let total := 0 in
  (* Dimensions *)
  let dims := zip3 (dimensions submitted) (dimensions reference) in
  let dims_ok := map (fun '(s, r) => within s r tol) dims in
  let dims_pct := map (fun '(s, r) => pct s r) dims in
  let dims_score :=
    if is_empty dims_pct then 0 else sum dims_pct / len dims_pct in
  let score := score + dims_score in
  let total := total + 100 in
  let f_dimensions :=
    if all dims_ok
    then {| ok := Some true; score := dims_score; pcts := Some dims_pct;
            message := "Dimensions correctes." |}
    else {| ok := Some false; score := dims_score; pcts := Some dims_pct;
            message := "Erreur sur les dimensions : vérifiez la taille ou l'unité du modèle." |} in
  (* Volume *)
  let vol_sub := volume submitted in
  let vol_ref := volume reference in
  let vol_ok := within vol_sub vol_ref tol in
  let vol_pct := pct vol_sub vol_ref in
  let vol_score := vol_pct in
  let score := score + vol_score in
  let total := total + 100 in
  let f_volume :=
    if vol_ok
    then {| ok := Some true; score := vol_score; pcts := None;
            message := "Volume correct." |}
    else {| ok := Some false; score := vol_score; pcts := None;
            message := "Erreur sur le volume : vérifiez l'épaisseur ou la géométrie du modèle." |} in
  (* Principal moments *)
  let pm_sub := principal_moments submitted in
  let pm_ref := principal_moments reference in
  let shell_only :=
    (is_empty pm_sub || list_eqb pm_sub [0; 0; 0])
    || (is_empty pm_ref || list_eqb pm_ref [0; 0; 0]) in
  let '(score, total, f_principal_moments) :=
    if shell_only then
      (score, total,
       {| ok := None; score := 0; pcts := None;
          message := "Le modèle contient uniquement des surfaces/coques, le calcul des moments principaux n'est pas possible, mais le reste de la vérification est effectué." |})
    else if negb (is_empty pm_sub) && negb (is_empty pm_ref)
            && Nat.eqb (List.length pm_sub) (List.length pm_ref) then
      let pms := combine pm_sub pm_ref in
      let pm_ok := map (fun '(s, r) => within s r tol) pms in
      let pm_pct := map (fun '(s, r) => pct s r) pms in
      let pm_score :=
        if is_empty pm_pct then 0 else sum pm_pct / len pm_pct in
      let score := score + pm_score in
      let total := total + 100 in
      (score, total,
       if all pm_ok
       then {| ok := Some true; score := pm_score; pcts := Some pm_pct;
               message := "Moments d'inertie principaux corrects." |}
       else {| ok := Some false; score := pm_score; pcts := Some pm_pct;
               message := "Erreur sur les moments principaux : vérifiez la répartition de la matière ou la symétrie." |})
    else
      (score, total,
       {| ok := None; score := 0; pcts := None;
          message := "Moments principaux non calculés." |}) in
  (* Topology *)
  let topo_ok := Topology_eqb (topology submitted) (topology reference) in
  let topo_score := if topo_ok then 100 else 0 in
  let score := score + topo_score in
  let total := total + 100 in
  let f_topology :=
    if topo_ok
    then {| ok := Some true; score := topo_score; pcts := None;
            message := "Topologie correcte." |}
    else {| ok := Some false; score := topo_score; pcts := None;
            message := "Erreur sur la topologie : vérifiez le nombre de faces, arêtes ou sommets." |} in
  (* Global score *)
  let global_score := round (score / total * 100) 1 in
  {| submitted := submitted;
     reference := reference;
     feedback := {| fb_dimensions := f_dimensions;
                    fb_volume := f_volume;
                    fb_principal_moments := f_principal_moments;
                    fb_topology := f_topology;
                    global_score := global_score;
                    success := geb global_score 80 |} |}.

Definition compare_step_models (fs : FcFiles)
           (submitted_path reference_path : string) (tol : Q)
  : result StepComparison :=
  submitted <- get_step_properties fs submitted_path ;;
  reference <- get_step_properties fs reference_path ;;
  Ok (compare_properties submitted reference tol).

End ComparisonService.

(* ================================================================== *)
(** ** services/occCompareDXF.py *)
(* ================================================================== *)

Module OccCompareDXF.

(** The tally [analyze_dxf] keeps, one counter per entity type. *)
Record Counts : Type := mkCounts {
  LINE : Z;
  CIRCLE : Z;
  ARC : Z;
  POLYLINE : Z;
  LWPOLYLINE : Z;
  DIMENSION : Z;
  TEXT : Z;
  MTEXT : Z
}.

(** An OpenCASCADE edge or wire, by what [compare_geometry] reads from
    it: the X and Y of the two corners of its bounding box and the number
    of edges its explorer enumerates. *)
Record OccShape : Type := mkOccShape {
  CornerMin : Q * Q;
  CornerMax : Q * Q;
  shape_edges : nat
}.

(** The geometry dictionary of a drawing, each entity standing for the
    edge or wire the kernel builds from it.  A polyline is [None] when it
    has fewer than two points or its wire is not done: it gives no
    shape. *)
Record Geometries : Type := mkGeometries {
  LINES : list OccShape;
  CIRCLES : list OccShape;
  ARCS : list OccShape;
  POLYLINES : list (option OccShape)
}.

(** A file at a path: either [ezdxf.readfile] raises, or it is a drawing. *)
Inductive DxfFile : Type :=
| Unreadable (e : exn)
| Drawing (counts : Counts) (geometries : Geometries).

(** The DXF files on disk: [None] when [os.path.exists] is false. *)
Definition DxfFiles : Type := string -> option DxfFile.

Definition exists_ (fs : DxfFiles) (path : string) : bool :=
  match fs path with Some _ => true | None => false end.

Definition analyze_dxf (fs : DxfFiles) (path : string)
  : result (Counts * Geometries) :=
  match fs path with
  | None =>
    Raise (FileNotFoundError ("Le fichier DXF n'existe pas: " ++ path))
  | Some (Unreadable (DXFError m)) =>
    Raise (ValueError ("Erreur lors de la lecture du fichier DXF: " ++ m))
  | Some (Unreadable e) => Raise e
  | Some (Drawing counts geometries) => Ok (counts, geometries)
  end.

(** Lines first, then circles, arcs and polylines. *)
Definition create_occ_geometry (geometries : Geometries) : list OccShape :=
  LINES geometries ++ CIRCLES geometries ++ ARCS geometries
  ++ flat_map (fun w => match w with Some s => [s] | None => [] end)
              (POLYLINES geometries).

Definition compare_geometry (shape1 shape2 : OccShape) (tolerance : Q)
  : bool :=
  if gtb (Qabs (fst (CornerMin shape1) - fst (CornerMin shape2))) tolerance
     || gtb (Qabs (snd (CornerMin shape1) - snd (CornerMin shape2))) tolerance
     || gtb (Qabs (fst (CornerMax shape1) - fst (CornerMax shape2))) tolerance
     || gtb (Qabs (snd (CornerMax shape1) - snd (CornerMax shape2))) tolerance
  then false
  else Nat.eqb (shape_edges shape1) (shape_edges shape2).

(** The ["matches"] table: [ref_counts[key] == sub_counts[key]]. *)
Record CountsMatch : Type := mkCountsMatch {
  m_LINE : bool;
  m_CIRCLE : bool;
  m_ARC : bool;
  m_POLYLINE : bool;
  m_LWPOLYLINE : bool;
  m_DIMENSION : bool;
  m_TEXT : bool;
  m_MTEXT : bool
}.

Definition counts_match (ref_counts sub_counts : Counts) : CountsMatch :=
  {| m_LINE := Z.eqb (LINE ref_counts) (LINE sub_counts);
     m_CIRCLE := Z.eqb (CIRCLE ref_counts) (CIRCLE sub_counts);
     m_ARC := Z.eqb (ARC ref_counts) (ARC sub_counts);
     m_POLYLINE := Z.eqb (POLYLINE ref_counts) (POLYLINE sub_counts);
     m_LWPOLYLINE := Z.eqb (LWPOLYLINE ref_counts) (LWPOLYLINE sub_counts);
     m_DIMENSION := Z.eqb (DIMENSION ref_counts) (DIMENSION sub_counts);
     m_TEXT := Z.eqb (TEXT ref_counts) (TEXT sub_counts);
     m_MTEXT := Z.eqb (MTEXT ref_counts) (MTEXT sub_counts) |}.

(** The keys a successful comparison adds to the result. *)
Record Comparison : Type := mkComparison {
  matched_shapes : Z;
  total_reference : Z;
  total_submitted : Z;
  score : Q;
  ec_reference : Counts;
  ec_submitted : Counts;
  ec_matches : CountsMatch
}.

(** The returned dictionary: ["error"] is set on the failure paths,
    the comparison keys on the success path. *)
Record DxfResult : Type := mkDxfResult {
  success : bool;
  error : option string;
  message : string;
  comparison : option Comparison
}.

Definition failure (error message : string) : DxfResult :=
  {| success := false; error := Some error; message := message;
     comparison := None |}.

(** The inner loop: the first submitted shape that compares equal. *)
Definition first_match (ref_shape : OccShape) (sub_shapes : list OccShape)
           (tol : Q) : option OccShape :=
  find (fun sub_shape => compare_geometry ref_shape sub_shape tol) sub_shapes.

(** The outer loop: one more match for each reference shape whose inner
    loop reaches [break]. *)
Definition count_matches (ref_shapes sub_shapes : list OccShape) (tol : Q)
  : Z :=
  fold_left (fun matched_shapes ref_shape =>
               match first_match ref_shape sub_shapes tol with
               | Some _ => (matched_shapes + 1)%Z
               | None => matched_shapes
               end) ref_shapes 0%Z.

(** The body of the outer [try]. *)
Definition compare_body (fs : DxfFiles)
           (submitted_path reference_path : string) (tol : Q)
  : result DxfResult :=
  if negb (exists_ fs reference_path) then
    Ok (failure "Fichier de référence introuvable"
                ("Le fichier de référence n'existe pas: " ++ reference_path))
  else if negb (exists_ fs submitted_path) then
    Ok (failure "Fichier soumis introuvable"
                ("Le fichier soumis n'existe pas: " ++ submitted_path))
  else
    match analyze_dxf fs reference_path with
    | Raise e =>
      Ok (failure "Erreur de lecture du fichier de référence" (str e))
    | Ok (ref_counts, ref_geom) =>
      match analyze_dxf fs submitted_path with
      | Raise e =>
        Ok (failure "Erreur de lecture du fichier soumis" (str e))
      | Ok (sub_counts, sub_geom) =>
        let ref_shapes := create_occ_geometry ref_geom in
        let sub_shapes := create_occ_geometry sub_geom in
        let matched_shapes := count_matches ref_shapes sub_shapes tol in
        let total_ref_shapes := Z.of_nat (List.length ref_shapes) in
        let total_sub_shapes := Z.of_nat (List.length sub_shapes) in
        let score :=
          if (total_ref_shapes =? 0)%Z then 0
          else round (inject_Z matched_shapes / inject_Z total_ref_shapes
                      * 100) 2 in
        Ok {| success := true;
              error := None;
              message := "DXF comparison complete";
              comparison :=
                Some {| matched_shapes := matched_shapes;
                        total_reference := total_ref_shapes;
                        total_submitted := total_sub_shapes;
                        score := score;
                        ec_reference := ref_counts;
                        ec_submitted := sub_counts;
                        ec_matches :=
                          counts_match ref_counts sub_counts |} |}
      end
    end.

Definition compare_dxf_drawings (fs : DxfFiles)
           (submitted_path reference_path : string) (tol : Q) : DxfResult :=
  match compare_body fs submitted_path reference_path tol with
  | Ok r => r
  | Raise e => failure (str e) "Error during DXF comparison"
  end.

End OccCompareDXF.

(* ================================================================== *)
(** ** main.py: the [/api/compare-cad] route *)
(* ================================================================== *)

Module Main.

Import OccComparison.





End Main.

(* ================================================================== *)
(** ** services/comparisonService.py: assemblies *)
(* ================================================================== *)

Module CompareAssemblies.

Import OccComparison.

(** A FreeCAD solid, by what [list_assembly_components] reads from it. *)
Record FcSolid : Type := mkFcSolid {
  CenterOfMass : Vec3;
  Volume : Q
}.

(** The solids of the shape FreeCAD reads from a file; [None]:
    [shape.read] raises. *)
Definition FcFiles : Type := string -> option (list FcSolid).

Record Component : Type := mkComponent {
  center_of_mass : Vec3;
  volume : Q
}.

Definition list_assembly_components (fs : FcFiles) (file_path : string)
  : result (list Component) :=
  match fs file_path with
  | None => Raise (Exception ("Cannot read " ++ file_path))
  | Some solids =>
    Ok (map (fun solid =>
               {| center_of_mass := round3 (CenterOfMass solid) 3;
                  volume := round (Volume solid) 3 |}) solids)
  end.

Record NumComponents : Type := mkNumComponents {
  submitted : Z;
  reference : Z;
  num_ok : bool;
  message : string
}.

Record Match : Type := mkMatch {
  index : Z;
  volume_ok : bool;
  volume_score : Q;
  center_of_mass_ok : bool;
  center_of_mass_sub : Vec3;
  center_of_mass_ref : Vec3
}.

Record Feedback : Type := mkFeedback {
  num_components : NumComponents;
  components_match : list Match;
  global_score : Q;
  success : bool
}.

(** The body of the loop (lines 33-42). *)
Definition match_pair (tol : Q) (item : Z * (Component * Component))
  : Match :=
  let '(i, (s, r)) := item in
  let vol_ok :=
    leb (Qabs (volume s - volume r)) (tol * Qmax (Qabs (volume r)) 1) in
  let com_ok :=
    all (map (fun '(sc, rc) => leb (Qabs (sc - rc)) (tol * Qmax (Qabs rc) 1))
             (zip3 (center_of_mass s) (center_of_mass r))) in
  {| index := i;
     volume_ok := vol_ok;
     volume_score :=
       100 - Qmin 100 (100 * Qabs (volume s - volume r)
                       / (if gtb (Qabs (volume r)) 1e-6
                          then Qabs (volume r) else 1));
     center_of_mass_ok := com_ok;
     center_of_mass_sub := center_of_mass s;
     center_of_mass_ref := center_of_mass r |}.

Definition match_passes (m : Match) : bool :=
  volume_ok m && center_of_mass_ok m.

Definition compare_components (sub_comps ref_comps : list Component)
           (tol : Q) : Feedback :=
  let n_sub := List.length sub_comps in
  let n_ref := List.length ref_comps in
  let matches :=
    map (match_pair tol) (enumerate (combine sub_comps ref_comps)) in
  let n_ok := Z.of_nat (List.length (filter match_passes matches)) in
  let global_score :=
    round (inject_Z n_ok
           / inject_Z (Z.max (Z.of_nat (List.length matches)) 1) * 100) 1 in
  {| num_components :=
       {| submitted := Z.of_nat n_sub;
          reference := Z.of_nat n_ref;
          num_ok := Nat.eqb n_sub n_ref;
          message := if Nat.eqb n_sub n_ref
                     then "Nombre de sous-pièces correct."
                     else "Nombre de sous-pièces différent." |};
     components_match := matches;
     global_score := global_score;
     success := geb global_score 80 && Nat.eqb n_sub n_ref |}.

Definition compare_assemblies (fs : FcFiles)
           (submitted_path reference_path : string) (tol : Q)
  : result Feedback :=
  sub_comps <- list_assembly_components fs submitted_path ;;
  ref_comps <- list_assembly_components fs reference_path ;;
  Ok (compare_components sub_comps ref_comps tol).

End CompareAssemblies.

(* ================================================================== *)
(** ** The entities of a drawing *)
(* ================================================================== *)

Module DxfEntities.

(** An entity of the modelspace, by its [dxftype()] and the attributes
    [analyze_dxf] reads.  [Other] is an entity of any type the tally
    does not list (a spline, a hatch, a block reference). *)
Inductive Entity : Type :=
| Line (start end_ : Vec3)
| Circle (center : Vec3) (radius : Q)
| Arc (center : Vec3) (radius start_angle end_angle : Q)
| Polyline (locations : list Vec3)
| LwPolyline (vertices : list (Q * Q))
| Dimension
| Text
| MText
| Other.

Import OccCompareDXF.

Definition no_counts : Counts :=
  {| LINE := 0; CIRCLE := 0; ARC := 0; POLYLINE := 0; LWPOLYLINE := 0;
     DIMENSION := 0; TEXT := 0; MTEXT := 0 |}.

(** [if etype in counts: counts[etype] += 1] *)
Definition count_entity (counts : Counts) (entity : Entity) : Counts :=
  match entity with
  | Line _ _ =>
    {| LINE := LINE counts + 1; CIRCLE := CIRCLE counts; ARC := ARC counts;
       POLYLINE := POLYLINE counts; LWPOLYLINE := LWPOLYLINE counts;
       DIMENSION := DIMENSION counts; TEXT := TEXT counts;
       MTEXT := MTEXT counts |}
  | Circle _ _ =>
    {| LINE := LINE counts; CIRCLE := CIRCLE counts + 1; ARC := ARC counts;
       POLYLINE := POLYLINE counts; LWPOLYLINE := LWPOLYLINE counts;
       DIMENSION := DIMENSION counts; TEXT := TEXT counts;
       MTEXT := MTEXT counts |}
  | Arc _ _ _ _ =>
    {| LINE := LINE counts; CIRCLE := CIRCLE counts; ARC := ARC counts + 1;
       POLYLINE := POLYLINE counts; LWPOLYLINE := LWPOLYLINE counts;
       DIMENSION := DIMENSION counts; TEXT := TEXT counts;
       MTEXT := MTEXT counts |}
  | Polyline _ =>
    {| LINE := LINE counts; CIRCLE := CIRCLE counts; ARC := ARC counts;
       POLYLINE := POLYLINE counts + 1; LWPOLYLINE := LWPOLYLINE counts;
       DIMENSION := DIMENSION counts; TEXT := TEXT counts;
       MTEXT := MTEXT counts |}
  | LwPolyline _ =>
    {| LINE := LINE counts; CIRCLE := CIRCLE counts; ARC := ARC counts;
       POLYLINE := POLYLINE counts; LWPOLYLINE := LWPOLYLINE counts + 1;
       DIMENSION := DIMENSION counts; TEXT := TEXT counts;
       MTEXT := MTEXT counts |}
  | Dimension =>
    {| LINE := LINE counts; CIRCLE := CIRCLE counts; ARC := ARC counts;
       POLYLINE := POLYLINE counts; LWPOLYLINE := LWPOLYLINE counts;
       DIMENSION := DIMENSION counts + 1; TEXT := TEXT counts;
       MTEXT := MTEXT counts |}
  | Text =>
    {| LINE := LINE counts; CIRCLE := CIRCLE counts; ARC := ARC counts;
       POLYLINE := POLYLINE counts; LWPOLYLINE := LWPOLYLINE counts;
       DIMENSION := DIMENSION counts; TEXT := TEXT counts + 1;
       MTEXT := MTEXT counts |}
  | MText =>
    {| LINE := LINE counts; CIRCLE := CIRCLE counts; ARC := ARC counts;
       POLYLINE := POLYLINE counts; LWPOLYLINE := LWPOLYLINE counts;
       DIMENSION := DIMENSION counts; TEXT := TEXT counts;
       MTEXT := MTEXT counts + 1 |}
  | Other => counts
  end.

(** The geometry dictionary of [analyze_dxf], with the raw attributes. *)
Record RawGeometries : Type := mkRawGeometries {
  RAW_LINES : list (Vec3 * Vec3);
  RAW_CIRCLES : list (Vec3 * Q);
  RAW_ARCS : list (Vec3 * Q * Q * Q);
  RAW_POLYLINES : list (list Vec3)
}.

Definition no_geometries : RawGeometries :=
  {| RAW_LINES := []; RAW_CIRCLES := []; RAW_ARCS := [];
     RAW_POLYLINES := [] |}.

(** The geometry part of the loop body (occCompareDXF.py, lines 54-85):
    one more item at the end of the list of the entity's kind. *)
Definition extract_geometry (geometries : RawGeometries) (entity : Entity)
  : RawGeometries :=
  match entity with
  | Line start end_ =>
    {| RAW_LINES := RAW_LINES geometries ++ [(start, end_)];
       RAW_CIRCLES := RAW_CIRCLES geometries;
       RAW_ARCS := RAW_ARCS geometries;
       RAW_POLYLINES := RAW_POLYLINES geometries |}
  | Circle center radius =>
    {| RAW_LINES := RAW_LINES geometries;
       RAW_CIRCLES := RAW_CIRCLES geometries ++ [(center, radius)];
       RAW_ARCS := RAW_ARCS geometries;
       RAW_POLYLINES := RAW_POLYLINES geometries |}
  | Arc center radius start_angle end_angle =>
    {| RAW_LINES := RAW_LINES geometries;
       RAW_CIRCLES := RAW_CIRCLES geometries;
       RAW_ARCS := RAW_ARCS geometries
                   ++ [(center, radius, start_angle, end_angle)];
       RAW_POLYLINES := RAW_POLYLINES geometries |}
  | Polyline locations =>
    {| RAW_LINES := RAW_LINES geometries;
       RAW_CIRCLES := RAW_CIRCLES geometries;
       RAW_ARCS := RAW_ARCS geometries;
       RAW_POLYLINES := RAW_POLYLINES geometries ++ [locations] |}
  | LwPolyline vertices =>
    {| RAW_LINES := RAW_LINES geometries;
       RAW_CIRCLES := RAW_CIRCLES geometries;
       RAW_ARCS := RAW_ARCS geometries;
       RAW_POLYLINES :=
         RAW_POLYLINES geometries
         ++ [map (fun vertex => (fst vertex, snd vertex, 0)) vertices] |}
  | Dimension | Text | MText | Other => geometries
  end.

(** The loop [for entity in msp] of [analyze_dxf] in occCompareDXF.py. *)
Definition analyze_entities (msp : list Entity) : Counts * RawGeometries :=
  fold_left (fun '(counts, geometries) entity =>
               (count_entity counts entity,
                extract_geometry geometries entity))
            msp (no_counts, no_geometries).

(** The loop of [analyze_dxf] in compare_dxf_worker.py: the tally alone. *)
Definition count_entities (msp : list Entity) : Counts :=
  fold_left count_entity msp no_counts.

(** What [ezdxf.readfile] does with a path: the modelspace of the
    document, or the exception it raises. *)
Definition DxfDocs : Type := string -> result (list Entity).

(** compare_dxf_worker.py, [analyze_dxf]. *)
Definition worker_analyze_dxf (fs : DxfDocs) (path : string) : result Counts :=
  msp <- fs path ;;
  Ok (count_entities msp).

(** The result of the worker: the table of equal counts (its key for
    dimensions is "DIMENSIONS"), the counts and the score. *)
Record WorkerResult : Type := mkWorkerResult {
  w_success : bool;
  w_message : string;
  w_results : CountsMatch;
  w_reference : Counts;
  w_submitted : Counts;
  w_ref_dimensions : Z;
  w_sub_dimensions : Z;
  w_score : Q
}.

(** [sum(1 for v in results.values() if v)] *)
Definition matched_types (results : CountsMatch) : Z :=
  Z.of_nat
    (List.length
       (filter (fun v : bool => v)
               [m_LINE results; m_CIRCLE results; m_ARC results;
                m_POLYLINE results; m_LWPOLYLINE results;
                m_DIMENSION results; m_TEXT results; m_MTEXT results])).

(** compare_dxf_worker.py, [compare_dxf]. *)
Definition compare_dxf (fs : DxfDocs) (reference_path submitted_path : string)
  : result WorkerResult :=
  ref_counts <- worker_analyze_dxf fs reference_path ;;
  sub_counts <- worker_analyze_dxf fs submitted_path ;;
  let results := counts_match ref_counts sub_counts in
  let total_types := 8%Z in
  let matched := matched_types results in
  let score :=
    if (total_types =? 0)%Z then 0
    else round (inject_Z matched / inject_Z total_types * 100) 2 in
  Ok {| w_success := true;
        w_message := "DXF comparison complete.";
        w_results := results;
        w_reference := ref_counts;
        w_submitted := sub_counts;
        w_ref_dimensions := DIMENSION ref_counts;
        w_sub_dimensions := DIMENSION sub_counts;
        w_score := score |}.

End DxfEntities.

(* ================================================================== *)
(** ** main.py: the grade of a submission *)
(* ================================================================== *)

Module Grading.

Import OccComparison.

(** *** [calculate_qcm_score] (lines 867-881) *)

(** The ["answers"] of a question, [[]] when the key is absent. *)
Definition Question : Type := list Z.

(** The parsed [quizAnswers]: a JSON object from the index of a question,
    as a string, to the answers chosen. *)
Definition QuizAnswers : Type := list (string * list Z).

(** [str(idx)] *)
Definition str_int (idx : Z) : string :=
  NilEmpty.string_of_int (Z.to_int idx).

(** [d.get(key, default)] *)
Fixpoint get (d : QuizAnswers) (key : string) (default : list Z) : list Z :=
  match d with
  | [] => default
  | (k, v) :: d' => if String.eqb k key then v else get d' key default
  end.

(** [set(a) == set(b)] *)
Definition set_eqb (a b : list Z) : bool :=
  forallb (fun x => existsb (Z.eqb x) b) a
  && forallb (fun x => existsb (Z.eqb x) a) b.

(** The loop over the questions. *)
Definition count_correct (quiz_answers : QuizAnswers) (qcm : list Question)
  : Z :=
  fold_left (fun correct_count '(idx, question) =>
               let correct := question in
               let user_ans := get quiz_answers (str_int idx) [] in
               match correct with
               | [] => correct_count
               | _ :: _ =>
                 if set_eqb correct user_ans then (correct_count + 1)%Z
                 else correct_count
               end)
            (enumerate qcm) 0%Z.

(** [None] is Python's [None]; the result is
    [(qcm_score, correct_count, total_questions)]. *)
Definition calculate_qcm_score (quiz_answers : option QuizAnswers)
           (qcm : option (list Question)) : Q * Z * Z :=
  match quiz_answers, qcm with
  | Some ((_ :: _) as quiz_answers), Some ((_ :: _) as qcm) =>
    let total_questions := Z.of_nat (List.length qcm) in
    let correct_count := count_correct quiz_answers qcm in
    let qcm_score :=
      if (0 <? total_questions)%Z
      then round (10 * (inject_Z correct_count / inject_Z total_questions)) 2
      else 0 in
    (qcm_score, correct_count, total_questions)
  | _, _ => (0, 0%Z, 0%Z)
  end.

(** *** The comparison of a submitted STEP file (lines 1222-1246) *)

(** [cad_result]: the feedback of [compare_models], or the dictionary
    [{"success": False, "error": ...}]. *)
Inductive CadResult : Type :=
| Compared (feedback : Feedback)
| Failed (error : string).


(** *** The score (lines 1284-1302) *)

(** [cad_result.get("global_score", 0)] *)
Definition global_score_of (cad_result : CadResult) : Q :=
  match cad_result with
  | Compared (Part fb) => global_score fb
  | Compared (Assembly fb) => asm_global_score fb
  | Failed _ => 0
  end.

(** The CAD score, scaled from 100 to 90 points. *)
Definition cad_points (cad_result : CadResult) : Q :=
  let cad_score := global_score_of cad_result in
  if gtb cad_score 0 then round (cad_score * 90 / 100) 1 else 0.

Definition total_points (cad_result : CadResult) (qcm_score : Q) : Q :=
  round (cad_points cad_result + qcm_score) 2.

(** [if total_score >= 90] (lines 1052 and 1335): the exercise is
    completed. *)
Definition passed (total_score : Q) : bool := geb total_score 90.

(** *** The score of a drawing exercise (lines 1012-1030) *)

(** [cad_result] is the dictionary [compare_dxf_drawings] returned, or one
    of the failure dictionaries of lines 970-995; only the first kind can
    hold the key ["score"].  Without it the branch for STEP files runs: the
    dictionary has neither ["num_components"] nor ["global_score"], so the
    defaults 1 and 0 are read. *)
Definition drawing_points (cad_result : OccCompareDXF.DxfResult)
           (type : option string) : Q :=
  let cad_score :=
    match OccCompareDXF.comparison cad_result with
    | Some c =>
      let cad_score := OccCompareDXF.score c in
      cad_score * 90 / 100
    | None =>
      let is_assembly :=
        match type with
        | Some t => String.eqb t "assembly"
        | None => false
        end in
      let num_components := 1%Z in
      if (is_assembly && (1 <? num_components)%Z)
         || (negb is_assembly && (num_components =? 1)%Z)
      then 0
      else 0
    end in
  Qmin cad_score 90.

Definition drawing_total_points (cad_result : OccCompareDXF.DxfResult)
           (type : option string) (qcm_score : Q) : Q :=
  round (drawing_points cad_result type + qcm_score) 2.

End Grading.

(* ================================================================== *)
(** ** Sample shapes and files *)
(* ================================================================== *)

Module Samples.

Import OccComparison.

(** A 10 x 20 x 5 block and a copy that is 0.05 too long and 5 short in
    volume. *)
Definition block : Solid :=
  {| solid_volume := 1000; solid_centre := (5, 10, 2.5);
     solid_box := mkBox 0 0 0 10 20 5;
     solid_faces := 6; solid_edges := 12; solid_vertices := 8;
     solid_eigvals := (50, 30, 10) |}.

Definition long_block : Solid :=
  {| solid_volume := 995; solid_centre := (5, 10, 2.5);
     solid_box := mkBox 0 0 0 10.05 20 5;
     solid_faces := 6; solid_edges := 12; solid_vertices := 8;
     solid_eigvals := (50, 30, 10) |}.

(** A flat patch of the given area inside the unit cube. *)
Definition patch (area : Q) : Shell :=
  {| shell_area := area; shell_centre := (0.5, 0.5, 0);
     shell_box := mkBox 0 0 0 1 1 1;
     shell_faces := 3; shell_edges := 4; shell_vertices := 4;
     shell_inertia_diag := (1, 1, 2) |}.

Definition block_shape : Shape := mkShape [block] [] [].
Definition long_block_shape : Shape := mkShape [long_block] [] [].
Definition patch_shape : Shape := mkShape [] [patch 1] [].
Definition two_patches : Shape := mkShape [] [patch 1; patch 1] [].
Definition two_large_patches : Shape := mkShape [] [patch 2; patch 2] [].
(** A patch of area 1 two units further along X. *)
Definition far_patch : Shell :=
  {| shell_area := 1; shell_centre := (2.5, 0.5, 0);
     shell_box := mkBox 2 0 0 3 1 1;
     shell_faces := 2; shell_edges := 5; shell_vertices := 4;
     shell_inertia_diag := (1, 1, 2) |}.

Definition near_and_far : Shape := mkShape [] [patch 1; far_patch] [].
Definition two_blocks : Shape := mkShape [block; long_block] [] [].
Definition three_blocks : Shape := mkShape [block; long_block; block] [] [].
Definition empty_shape : Shape := mkShape [] [] [].

Definition step_files : StepFiles :=
  fun path =>
    if String.eqb path "block.step" then Some block_shape
    else if String.eqb path "long_block.step" then Some long_block_shape
    else if String.eqb path "patch.step" then Some patch_shape
    else if String.eqb path "two_patches.step" then Some two_patches
    else if String.eqb path "two_large_patches.step"
         then Some two_large_patches
    else if String.eqb path "near_and_far.step" then Some near_and_far
    else if String.eqb path "two_blocks.step" then Some two_blocks
    else if String.eqb path "three_blocks.step" then Some three_blocks
    else if String.eqb path "empty.step" then Some empty_shape
    else None.

(** Drawings: a diagonal line from (0, 0) to (1, 1), and a two-segment
    polyline (0, 0), (1, 0), (1, 1); both have the same bounding box. *)
Definition diagonal : OccCompareDXF.OccShape :=
  {| OccCompareDXF.CornerMin := (0, 0);
     OccCompareDXF.CornerMax := (1, 1);
     OccCompareDXF.shape_edges := 1 |}.

Definition elbow : OccCompareDXF.OccShape :=
  {| OccCompareDXF.CornerMin := (0, 0);
     OccCompareDXF.CornerMax := (1, 1);
     OccCompareDXF.shape_edges := 2 |}.

Definition line_drawing : OccCompareDXF.DxfFile :=
  OccCompareDXF.Drawing
    (OccCompareDXF.mkCounts 1 0 0 0 0 0 0 0)
    (OccCompareDXF.mkGeometries [diagonal] [] [] []).

Definition two_lines_drawing : OccCompareDXF.DxfFile :=
  OccCompareDXF.Drawing
    (OccCompareDXF.mkCounts 2 0 0 0 0 0 0 0)
    (OccCompareDXF.mkGeometries [diagonal; diagonal] [] [] []).

Definition elbow_drawing : OccCompareDXF.DxfFile :=
  OccCompareDXF.Drawing
    (OccCompareDXF.mkCounts 0 0 0 1 0 0 0 0)
    (OccCompareDXF.mkGeometries [] [] [] [Some elbow]).

Definition dxf_files : OccCompareDXF.DxfFiles :=
  fun path =>
    if String.eqb path "line.dxf" then Some line_drawing
    else if String.eqb path "two_lines.dxf" then Some two_lines_drawing
    else if String.eqb path "elbow.dxf" then Some elbow_drawing
    else if String.eqb path "corrupt.dxf"
         then Some (OccCompareDXF.Unreadable (DXFError "Invalid group code"))
    else None.

End Samples.

(* ================================================================== *)
(** ** Facts about the prelude *)
(* ================================================================== *)

Import OccComparison.

Lemma round_half_even_comp (x y : Q) :
  x == y -> round_half_even x = round_half_even y.
Proof.
  intros H. unfold round_half_even.
  rewrite (Qfloor_comp _ _ H).
  assert (E : x - inject_Z (Qfloor y) == y - inject_Z (Qfloor y))
    by (rewrite H; reflexivity).
  rewrite (Qcompare_comp _ _ E _ _ (Qeq_refl (1 # 2))). reflexivity.
Qed.

(** [round] does not depend on how its argument is written as a fraction. *)
Lemma round_comp (x y : Q) (n : nat) : x == y -> round x n = round y n.
Proof.
  intros H. unfold round.
  assert (E : x * pow10 n == y * pow10 n) by (rewrite H; reflexivity).
  rewrite (round_half_even_comp _ _ E). reflexivity.
Qed.

Lemma gtb_true (x y : Q) : gtb x y = true <-> y < x.
Proof.
  unfold gtb. rewrite negb_true_iff. split; intros H.
  - apply Qnot_le_lt. intros L. apply Qle_bool_iff in L. congruence.
  - destruct (Qle_bool x y) eqn:E; [|reflexivity].
    apply Qle_bool_iff in E. exfalso. apply (Qlt_not_le _ _ H E).
Qed.

Lemma gtb_false (x y : Q) : gtb x y = false <-> x <= y.
Proof. unfold gtb. rewrite negb_false_iff. apply Qle_bool_iff. Qed.

Lemma geb_true (x y : Q) : geb x y = true <-> y <= x.
Proof. unfold geb. apply Qle_bool_iff. Qed.

Lemma geb_false (x y : Q) : geb x y = false <-> x < y.
Proof.
  unfold geb. split; intros H.
  - apply Qnot_le_lt. intros L. apply Qle_bool_iff in L. congruence.
  - destruct (Qle_bool y x) eqn:E; [|reflexivity].
    apply Qle_bool_iff in E. exfalso. apply (Qlt_not_le _ _ H E).
Qed.

Lemma within_iff (s r tol : Q) :
  within s r tol = true <-> Qabs (s - r) <= tol * Qmax (Qabs r) 1.
Proof. unfold within, leb. apply Qle_bool_iff. Qed.

(* ================================================================== *)
(** ** The scoring primitives *)
(* ================================================================== *)

(** The relative score as the specification words it, with the
    denominator [max(|r|, 1e-6)]. *)
Definition pct_as_specified (s r : Q) : Q :=
  100 - Qmin 100 (100 * Qabs (s - r) / Qmax (Qabs r) 1e-6).

(** C2, as stated, fails: for the reference value 0 and the submitted value
    0.5 the code divides by 1 and scores 50, the stated formula divides by
    1e-6 and scores 0. *)
Lemma pct_small_reference_differs :
  pct 0.5 0 == 50 /\ pct_as_specified 0.5 0 == 0
  /\ ~ (forall s r : Q, pct s r == pct_as_specified s r).
Proof.
  split; [vm_compute; reflexivity|].
  split; [vm_compute; reflexivity|].
  intros H. specialize (H 0.5 0). vm_compute in H. discriminate H.
Qed.

(** C2 (amended): the relative score is [100 - min(100, 100*|s-r| / d)]
    where [d] is [|r|] when [|r| > 1e-6] (there it agrees with the stated
    formula) and 1 otherwise; the pass flag is
    [|s-r| <= tol * max(|r|, 1)]. *)
Theorem pct_and_within (s r tol : Q) :
  (1e-6 < Qabs r -> pct s r == pct_as_specified s r)
  /\ (1e-6 < Qabs r ->
      pct s r == 100 - Qmin 100 (100 * Qabs (s - r) / Qabs r))
  /\ (Qabs r <= 1e-6 -> pct s r == 100 - Qmin 100 (100 * Qabs (s - r) / 1))
  /\ (within s r tol = true <-> Qabs (s - r) <= tol * Qmax (Qabs r) 1).
Proof.
  split; [|split; [|split]].
  - intros H. unfold pct, pct_as_specified.
    rewrite (Q.max_l (Qabs r) 1e-6) by (apply Qlt_le_weak; exact H).
    apply gtb_true in H. rewrite H. reflexivity.
  - intros H. unfold pct. apply gtb_true in H. rewrite H. reflexivity.
  - intros H. unfold pct. apply gtb_false in H. rewrite H. reflexivity.
  - apply within_iff.
Qed.

Lemma pct_and_within_witness :
  pct 995 1000 == 99.5 /\ pct 0.5 0 == 50 /\ within 995 1000 1e-3 = false.
Proof.
  destruct (pct_and_within 995 1000 1e-3) as [_ [H1 [_ H3]]].
  destruct (pct_and_within 0.5 0 1e-3) as [_ [_ [H2 _]]].
  split; [|split].
  - rewrite H1 by (vm_compute; reflexivity). vm_compute. reflexivity.
  - rewrite H2 by (vm_compute; discriminate). vm_compute. reflexivity.
  - apply not_true_is_false. intros E. apply H3 in E.
    vm_compute in E. apply E. reflexivity.
Defined.


(* ================================================================== *)
(** ** Part mode *)
(* ================================================================== *)

(** The score a part has to reach at a given tolerance. *)
Definition threshold (tol : Q) : Q :=
  if geb tol 5e-2 then 70 else if geb tol 1e-2 then 75 else 80.

(** [|dfaces| + |dedges| + |dvertices|] *)
Definition topo_diff (a b : Topology) : Z :=
  (Z.abs (faces a - faces b) + Z.abs (edges a - edges b)
   + Z.abs (vertices a - vertices b))%Z.

(** The three features every part comparison evaluates the same way. *)
Definition dimensions_feature (sub ref : Props) (tol : Q) : Feature :=
  let dims := zip3 (dimensions sub) (dimensions ref) in
  {| ok := all (map (fun '(s, r) => within s r tol) dims);
     score := sum (map (fun '(s, r) => pct s r) dims)
              / len (map (fun '(s, r) => pct s r) dims) |}.

Definition topology_feature (sub ref : Props) : Feature :=
  {| ok := Topology_eqb (topology sub) (topology ref);
     score := if Topology_eqb (topology sub) (topology ref) then 100 else 0 |}.

Definition moments_ok (sub ref : Props) (tol : Q) : bool :=
  all (map (fun '(s, r) => within s r tol)
           (zip3 (principal_moments sub) (principal_moments ref))).

Definition moments_feature (sub ref : Props) (tol : Q) : Feature :=
  {| ok := moments_ok sub ref tol;
     score := if moments_ok sub ref tol then 100 else 0 |}.

(** The area score before rounding, with the bonus for close topology. *)
Definition area_score (sub ref : Props) (a_s ar : Q) : Q :=
  if (topo_diff (topology sub) (topology ref) <=? 6)%Z
  then Qmin 100 (pct a_s ar * 1.1) else pct a_s ar.

(** The feedback of a part comparison whose second feature scored [m]. *)
Definition part_feedback (sub ref : Props) (tol m : Q)
           (f_volume f_surface_area : option Feature) : PartFeedback :=
  let gs := round ((0 + score (dimensions_feature sub ref tol) + m
                    + score (topology_feature sub ref)
                    + score (moments_feature sub ref tol))
                   / (0 + 1 + 1 + 1 + 1)) 1 in
  {| fb_dimensions := dimensions_feature sub ref tol;
     fb_volume := f_volume;
     fb_surface_area := f_surface_area;
     fb_topology := topology_feature sub ref;
     fb_principal_moments := moments_feature sub ref tol;
     global_score := gs;
     success := if geb tol 5e-2 then geb gs 70
                else if geb tol 1e-2 then geb gs 75 else geb gs 80 |}.

(** Two solids: the volumes are compared. *)
Lemma part_mode_volume (sub ref : Props) (tol vs vr : Q) :
  volume sub = Some vs -> volume ref = Some vr ->
  part_mode sub ref tol
  = Ok (Part (part_feedback sub ref tol (pct vs vr)
                (Some {| ok := within vs vr tol; score := pct vs vr |})
                None)).
Proof.
  intros Hs Hr. unfold part_mode. rewrite Hs, Hr. reflexivity.
Qed.

(** No volume on one side, an area on both: the areas are compared. *)
Lemma part_mode_area (sub ref : Props) (tol a_s ar : Q) :
  volume sub = None \/ volume ref = None ->
  surface_area sub = Some a_s -> surface_area ref = Some ar ->
  part_mode sub ref tol
  = Ok (Part (part_feedback sub ref tol (area_score sub ref a_s ar)
                None
                (Some {| ok := leb (Qabs (a_s - ar))
                                   (tol * 1.5 * Qmax (Qabs ar) 1);
                         score := round (area_score sub ref a_s ar) 1 |}))).
Proof.
  intros Hv Hs Hr. unfold part_mode.
  assert (E : contains (volume sub) && contains (volume ref) = false).
  { destruct Hv as [-> | ->]; [reflexivity|].
    destruct (volume sub); reflexivity. }
  rewrite E, Hs, Hr. reflexivity.
Qed.

(** No volume on one side and no area on one side: [KeyError]. *)
Lemma part_mode_key_error (sub ref : Props) (tol : Q) :
  volume sub = None \/ volume ref = None ->
  surface_area sub = None \/ surface_area ref = None ->
  part_mode sub ref tol = Raise (KeyError "surface_area").
Proof.
  intros Hv Ha. unfold part_mode.
  assert (E : contains (volume sub) && contains (volume ref) = false).
  { destruct Hv as [-> | ->]; [reflexivity|].
    destruct (volume sub); reflexivity. }
  rewrite E.
  destruct Ha as [-> | ->]; [reflexivity|].
  destruct (surface_area sub); reflexivity.
Qed.

(** Every result of part mode is one of the three above. *)
Lemma part_mode_cases (sub ref : Props) (tol : Q) :
  (exists vs vr, volume sub = Some vs /\ volume ref = Some vr)
  \/ (exists a_s ar, (volume sub = None \/ volume ref = None)
                     /\ surface_area sub = Some a_s
                     /\ surface_area ref = Some ar)
  \/ ((volume sub = None \/ volume ref = None)
      /\ (surface_area sub = None \/ surface_area ref = None)).
Proof.
  destruct (volume sub) as [vs|] eqn:Evs;
    destruct (volume ref) as [vr|] eqn:Evr;
    [left; exists vs, vr; auto | right .. ];
    (destruct (surface_area sub) as [a_s|] eqn:Eas;
     destruct (surface_area ref) as [ar|] eqn:Ear;
     [left; exists a_s, ar; auto | right; auto ..]).
Qed.

Lemma part_mode_inv (sub ref : Props) (tol : Q) (fb : PartFeedback) :
  part_mode sub ref tol = Ok (Part fb) ->
  exists m f_volume f_surface_area,
    fb = part_feedback sub ref tol m f_volume f_surface_area
    /\ ((exists f, f_volume = Some f /\ f_surface_area = None
                   /\ score f = m)
        \/ (exists f, f_volume = None /\ f_surface_area = Some f
                      /\ score f = round m 1)).
Proof.
  intros H.
  destruct (part_mode_cases sub ref tol)
    as [(vs & vr & Hs & Hr) | [(a_s & ar & Hv & Hs & Hr) | (Hv & Ha)]].
  - rewrite (part_mode_volume _ _ _ _ _ Hs Hr) in H.
    injection H as <-. do 3 eexists. split; [reflexivity|].
    left. eexists. repeat split.
  - rewrite (part_mode_area _ _ _ _ _ Hv Hs Hr) in H.
    injection H as <-. do 3 eexists. split; [reflexivity|].
    right. eexists. repeat split.
  - rewrite (part_mode_key_error _ _ _ Hv Ha) in H. discriminate.
Qed.

Lemma part_mode_not_assembly (sub ref : Props) (tol : Q)
      (fb : AssemblyFeedback) :
  part_mode sub ref tol <> Ok (Assembly fb).
Proof.
  intros H.
  destruct (part_mode_cases sub ref tol)
    as [(vs & vr & Hs & Hr) | [(a_s & ar & Hv & Hs & Hr) | (Hv & Ha)]].
  - rewrite (part_mode_volume _ _ _ _ _ Hs Hr) in H. discriminate.
  - rewrite (part_mode_area _ _ _ _ _ Hv Hs Hr) in H. discriminate.
  - rewrite (part_mode_key_error _ _ _ Hv Ha) in H. discriminate.
Qed.

Lemma part_feedback_success (sub ref : Props) (tol m : Q)
      (fv fa : option Feature) :
  let fb := part_feedback sub ref tol m fv fa in
  success fb = geb (global_score fb) (threshold tol).
Proof.
  unfold part_feedback, threshold. cbn [success global_score].
  destruct (geb tol 5e-2); [reflexivity|].
  destruct (geb tol 1e-2); reflexivity.
Qed.

(* ================================================================== *)
(** ** Property extraction never fails on a solid or on a shell *)
(* ================================================================== *)

Lemma get_solid_properties_ok (k : Accumulation) (solid : Solid) :
  exists p,
    get_solid_properties k solid = Ok p
    /\ (exists v, volume p = Some v)
    /\ surface_area p = None
    /\ topology p = {| faces := Z.of_nat (solid_faces solid);
                       edges := Z.of_nat (solid_edges solid);
                       vertices := Z.of_nat (solid_vertices solid) |}.
Proof.
  destruct solid as [v [[cx cy] cz] b nf ne nv [[e1 e2] e3]].
  unfold get_solid_properties. cbn [Bnd_Box_Add Bnd_Box_new Bnd_Box_Get bind].
  cbn [solid_eigvals]. eexists. split; [reflexivity|].
  cbn [volume surface_area topology solid_faces solid_edges solid_vertices].
  split; [eexists; reflexivity|]. split; reflexivity.
Qed.

Lemma get_shell_properties_ok (k : Accumulation) (shell : Shell) :
  exists p,
    get_shell_properties k shell = Ok p
    /\ volume p = None
    /\ (exists a, surface_area p = Some a).
Proof.
  unfold get_shell_properties. cbn [Bnd_Box_Add Bnd_Box_new Bnd_Box_Get bind].
  eexists. split; [reflexivity|].
  cbn [volume surface_area]. split; [reflexivity|]. eexists; reflexivity.
Qed.

Lemma fold_Bnd_Box_Add_Some (shells : list Shell) (b : Box) :
  exists b',
    fold_left (fun bbox shell => Bnd_Box_Add (shell_box shell) bbox)
              shells (Some b) = Some b'.
Proof.
  revert b. induction shells as [|shell shells IH]; intros b; cbn.
  - exists b. reflexivity.
  - apply IH.
Qed.

Lemma get_multi_shell_properties_ok (k : Accumulation) (shell : Shell)
      (shells : list Shell) :
  exists p,
    get_multi_shell_properties k (shell :: shells) = Ok p
    /\ volume p = None
    /\ (exists a, surface_area p = Some a).
Proof.
  unfold get_multi_shell_properties. cbn [fold_left Bnd_Box_Add Bnd_Box_new].
  destruct (fold_Bnd_Box_Add_Some shells (shell_box shell)) as [b' ->].
  cbn [Bnd_Box_Get bind].
  eexists. split; [reflexivity|].
  cbn [volume surface_area]. split; [reflexivity|]. eexists; reflexivity.
Qed.

(** A property dictionary has a volume or a surface area, never both. *)
Lemma get_shape_properties_kind (k : Accumulation) (shape : option Shape)
      (p : Props) :
  get_shape_properties k shape = Ok p ->
  (exists v, volume p = Some v /\ surface_area p = None)
  \/ (exists a, volume p = None /\ surface_area p = Some a).
Proof.
  destruct shape as [shape|]; [|discriminate].
  unfold get_shape_properties, get_solids_from_shape, get_shells_from_shape,
    get_faces_from_shape, get_face_properties.
  destruct (shape_solids shape) as [|solid0 ?].
  - destruct (shape_shells shape) as [|shell0 [|shell1 shells]].
    + destruct (shape_faces shape) as [|face0 ?]; [discriminate|].
      destruct (get_shell_properties_ok k face0) as (q & -> & Hv & a & Ha).
      intros H; injection H as <-. right. eauto.
    + destruct (get_shell_properties_ok k shell0) as (q & -> & Hv & a & Ha).
      intros H; injection H as <-. right. eauto.
    + destruct (get_multi_shell_properties_ok k shell0 (shell1 :: shells))
        as (q & -> & Hv & a & Ha).
      intros H; injection H as <-. right. eauto.
  - destruct (get_solid_properties_ok k solid0) as (q & -> & (v & Hv) & Ha & _).
    intros H; injection H as <-. left. eauto.
Qed.

(** Extraction fails exactly on a shape with no solid, shell or face. *)
Lemma get_shape_properties_no_geometry (k : Accumulation) (shape : Shape) :
  shape_solids shape = [] -> shape_shells shape = [] ->
  shape_faces shape = [] ->
  get_shape_properties k (Some shape)
  = Raise (ValueError
             "No valid geometry (solid, shell, or face) found in shape.").
Proof.
  intros H1 H2 H3. unfold get_shape_properties, get_solids_from_shape,
    get_shells_from_shape, get_faces_from_shape.
  rewrite H1, H2, H3. reflexivity.
Qed.

Lemma get_shape_properties_geometry (k : Accumulation) (shape : Shape) :
  shape_solids shape <> [] \/ shape_shells shape <> []
  \/ shape_faces shape <> [] ->
  exists p, get_shape_properties k (Some shape) = Ok p.
Proof.
  intros H.
  unfold get_shape_properties, get_solids_from_shape, get_shells_from_shape,
    get_faces_from_shape, get_face_properties.
  destruct (shape_solids shape) as [|solid0 ?].
  - destruct (shape_shells shape) as [|shell0 [|shell1 shells]].
    + destruct (shape_faces shape) as [|face0 ?].
      * destruct H as [H | [H | H]]; contradiction H; reflexivity.
      * destruct (get_shell_properties_ok k face0) as (q & -> & _). eauto.
    + destruct (get_shell_properties_ok k shell0) as (q & -> & _). eauto.
    + destruct (get_multi_shell_properties_ok k shell0 (shell1 :: shells))
        as (q & -> & _). eauto.
  - destruct (get_solid_properties_ok k solid0) as (q & -> & _). eauto.
Qed.

(* ================================================================== *)
(** ** Assembly mode *)
(* ================================================================== *)

Lemma match_pair_ok (k : Accumulation) (tol : Q) (i : Z)
      (sub_solid ref_solid : Solid) :
  exists m, match_pair k tol (i, (sub_solid, ref_solid)) = Ok m /\ index m = i.
Proof.
  unfold match_pair.
  destruct (get_solid_properties_ok k sub_solid) as (ps & -> & (vs & Hs) & _).
  destruct (get_solid_properties_ok k ref_solid) as (pr & -> & (vr & Hr) & _).
  cbn [bind]. rewrite Hs, Hr. cbn [getitem bind].
  eexists. split; reflexivity.
Qed.

(** A loop whose body never raises returns one item per element. *)
Lemma for_each_total {A B} (f : A -> result B) (l : list A) :
  (forall a, In a l -> exists b, f a = Ok b) ->
  exists bs, for_each f l = Ok bs /\ Forall2 (fun a b => f a = Ok b) l bs.
Proof.
  induction l as [|a l IH]; intros H.
  - exists []. split; [reflexivity | constructor].
  - destruct (H a (or_introl eq_refl)) as [b Hb].
    destruct IH as (bs & Hbs & HF).
    { intros a' Ha'. apply H. right. exact Ha'. }
    exists (b :: bs). split.
    + cbn [for_each]. rewrite Hb. cbn [bind]. rewrite Hbs. reflexivity.
    + constructor; assumption.
Qed.

Lemma Forall2_nth_error {A B} (R : A -> B -> Prop) (l : list A) (l' : list B) :
  Forall2 R l l' ->
  forall i a, nth_error l i = Some a ->
              exists b, nth_error l' i = Some b /\ R a b.
Proof.
  induction 1 as [|x y l l' HR HF IH]; intros [|i] a Hi; try discriminate.
  - injection Hi as <-. exists y. split; [reflexivity | exact HR].
  - apply IH. exact Hi.
Qed.

Lemma Forall2_length_eq {A B} (R : A -> B -> Prop) (l : list A) (l' : list B) :
  Forall2 R l l' -> List.length l = List.length l'.
Proof. induction 1; cbn; congruence. Qed.

Lemma enumerate_from_length {A} (k : Z) (l : list A) :
  List.length (enumerate_from k l) = List.length l.
Proof.
  revert k. induction l as [|a l IH]; intros k; cbn; [reflexivity|].
  rewrite IH. reflexivity.
Qed.

Lemma enumerate_from_nth_error {A} (l : list A) :
  forall (k : Z) (i : nat) (a : A),
    nth_error l i = Some a ->
    nth_error (enumerate_from k l) i = Some ((k + Z.of_nat i)%Z, a).
Proof.
  induction l as [|x l IH]; intros k [|i] a H; try discriminate.
  - injection H as <-. cbn. rewrite Z.add_0_r. reflexivity.
  - cbn [enumerate_from nth_error]. rewrite (IH _ _ _ H).
    f_equal. f_equal. lia.
Qed.

Lemma combine_nth_error {A B} (l : list A) :
  forall (l' : list B) (i : nat) (a : A) (b : B),
    nth_error l i = Some a -> nth_error l' i = Some b ->
    nth_error (combine l l') i = Some (a, b).
Proof.
  induction l as [|x l IH]; intros [|y l'] [|i] a b Ha Hb; try discriminate.
  - injection Ha as <-. injection Hb as <-. reflexivity.
  - cbn. apply IH; assumption.
Qed.

(** The feedback of assembly mode, given the list of match records. *)
Definition assembly_feedback (sub_solids ref_solids : list Solid)
           (matches : list Match) : AssemblyFeedback :=
  let same_count := Nat.eqb (List.length sub_solids) (List.length ref_solids) in
  let n_ok := Z.of_nat (List.length (filter match_passes matches)) in
  let gs := round (inject_Z n_ok
                   / inject_Z (Z.max (Z.of_nat (List.length matches)) 1)
                   * 100) 1 in
  {| num_components :=
       {| submitted := Z.of_nat (List.length sub_solids);
          reference := Z.of_nat (List.length ref_solids);
          num_ok := same_count;
          message := if same_count
                     then "Nombre de sous-pièces correct."
                     else "Nombre de sous-pièces différent." |};
     components_match := matches;
     asm_global_score := gs;
     asm_success := geb gs 80 && same_count |}.

(** Assembly mode always returns: one match record per pair, in order. *)
Lemma assembly_mode_ok (k : Accumulation) (sub_solids ref_solids : list Solid)
      (tol : Q) :
  exists matches,
    assembly_mode k sub_solids ref_solids tol
    = Ok (Assembly (assembly_feedback sub_solids ref_solids matches))
    /\ Forall2 (fun item m => match_pair k tol item = Ok m)
               (enumerate (combine sub_solids ref_solids)) matches.
Proof.
  unfold assembly_mode.
  destruct (for_each_total (match_pair k tol)
              (enumerate (combine sub_solids ref_solids)))
    as (matches & Hm & HF).
  { intros [i [s r]] _. destruct (match_pair_ok k tol i s r) as (m & Hok & _).
    eauto. }
  exists matches. rewrite Hm. split; [reflexivity | exact HF].
Qed.

Lemma assembly_mode_not_part (k : Accumulation)
      (sub_solids ref_solids : list Solid) (tol : Q)
      (fb : PartFeedback) :
  assembly_mode k sub_solids ref_solids tol <> Ok (Part fb).
Proof.
  destruct (assembly_mode_ok k sub_solids ref_solids tol) as (ms & -> & _).
  discriminate.
Qed.


(* ================================================================== *)
(** ** The dispatch between the two modes *)
(* ================================================================== *)

Definition is_assembly (sub_shape ref_shape : Shape) : bool :=
  (1 <? List.length (shape_solids ref_shape))%nat
  || (1 <? List.length (shape_solids sub_shape))%nat.

Lemma is_assembly_iff (sub_shape ref_shape : Shape) :
  is_assembly sub_shape ref_shape = true
  <-> (1 < List.length (shape_solids sub_shape)
       \/ 1 < List.length (shape_solids ref_shape))%nat.
Proof.
  unfold is_assembly. rewrite orb_true_iff, !Nat.ltb_lt. tauto.
Qed.

Lemma compare_models_readable (k : Accumulation) (fs : StepFiles)
      (sp rp : string) (tol : Q)
      (sub_shape ref_shape : Shape) :
  fs sp = Some sub_shape -> fs rp = Some ref_shape ->
  compare_models k fs sp rp tol
  = if is_assembly sub_shape ref_shape
    then assembly_mode k (shape_solids sub_shape) (shape_solids ref_shape) tol
    else (sub_props <- get_shape_properties k (Some sub_shape) ;;
          ref_props <- get_shape_properties k (Some ref_shape) ;;
          part_mode sub_props ref_props tol).
Proof.
  intros Hs Hr. unfold compare_models, read_step_file.
  rewrite Hs, Hr. reflexivity.
Qed.

Lemma compare_models_unreadable (k : Accumulation) (fs : StepFiles)
      (sp rp : string) (tol : Q) :
  fs sp = None \/ fs rp = None ->
  exists path, compare_models k fs sp rp tol
               = Raise (Exception ("Error reading STEP file: " ++ path)).
Proof.
  intros H. unfold compare_models, read_step_file.
  destruct (fs sp) as [sub_shape|].
  - destruct H as [H | ->]; [discriminate|]. exists rp. reflexivity.
  - exists sp. reflexivity.
Qed.

(** A part feedback comes from part mode on two extracted dictionaries. *)
Lemma compare_models_part_inv (k : Accumulation) (fs : StepFiles)
      (sp rp : string) (tol : Q)
      (fb : PartFeedback) :
  compare_models k fs sp rp tol = Ok (Part fb) ->
  exists sub_shape ref_shape sub_props ref_props,
    fs sp = Some sub_shape /\ fs rp = Some ref_shape
    /\ is_assembly sub_shape ref_shape = false
    /\ get_shape_properties k (Some sub_shape) = Ok sub_props
    /\ get_shape_properties k (Some ref_shape) = Ok ref_props
    /\ part_mode sub_props ref_props tol = Ok (Part fb).
Proof.
  intros H.
  destruct (fs sp) as [sub_shape|] eqn:Hs.
  2:{ destruct (compare_models_unreadable k fs sp rp tol) as [p Hp];
      [left; exact Hs | congruence]. }
  destruct (fs rp) as [ref_shape|] eqn:Hr.
  2:{ destruct (compare_models_unreadable k fs sp rp tol) as [p Hp];
      [right; exact Hr | congruence]. }
  rewrite (compare_models_readable k _ _ _ _ _ _ Hs Hr) in H.
  destruct (is_assembly sub_shape ref_shape) eqn:Ha.
  - exfalso. exact (assembly_mode_not_part _ _ _ _ _ H).
  - destruct (get_shape_properties k (Some sub_shape)) as [sub_props|] eqn:Es;
      [|discriminate].
    destruct (get_shape_properties k (Some ref_shape)) as [ref_props|] eqn:Er;
      [|discriminate].
    cbn [bind] in H.
    exists sub_shape, ref_shape, sub_props, ref_props. auto 10.
Qed.

(** C6: assembly mode is entered exactly when the submitted or the
    reference shape has more than one solid; it then returns one match
    record per index below [min(countSub, countRef)], the record at index
    [i] being computed from the [i]-th submitted and the [i]-th reference
    solid, and nothing for the solids beyond the shorter list. *)
Theorem assembly_mode_positional (k : Accumulation) (fs : StepFiles)
      (sp rp : string) (tol : Q)
        (sub_shape ref_shape : Shape) :
  fs sp = Some sub_shape -> fs rp = Some ref_shape ->
  let subs := shape_solids sub_shape in
  let refs := shape_solids ref_shape in
  ((1 < List.length subs \/ 1 < List.length refs)%nat ->
   exists fb,
     compare_models k fs sp rp tol = Ok (Assembly fb)
     /\ List.length (components_match fb)
        = Nat.min (List.length subs) (List.length refs)
     /\ forall i s r,
          nth_error subs i = Some s -> nth_error refs i = Some r ->
          exists m, nth_error (components_match fb) i = Some m
                    /\ match_pair k tol (Z.of_nat i, (s, r)) = Ok m
                    /\ index m = Z.of_nat i)
  /\ (~ (1 < List.length subs \/ 1 < List.length refs)%nat ->
      forall fb, compare_models k fs sp rp tol <> Ok (Assembly fb)).
Proof.
  intros Hs Hr subs refs.
  rewrite (compare_models_readable k _ _ _ _ _ _ Hs Hr).
  split; intros Hcond.
  - apply is_assembly_iff in Hcond. rewrite Hcond.
    destruct (assembly_mode_ok k subs refs tol) as (ms & Hm & HF).
    eexists. split; [exact Hm|].
    unfold assembly_feedback. cbn [components_match]. split.
    + rewrite <- (Forall2_length_eq _ _ _ HF).
      unfold enumerate. rewrite enumerate_from_length. apply length_combine.
    + intros i s r Hi Hj.
      pose proof (combine_nth_error _ _ _ _ _ Hi Hj) as Hc.
      pose proof (enumerate_from_nth_error _ 0%Z _ _ Hc) as He.
      destruct (Forall2_nth_error _ _ _ HF _ _ He) as (m & Hn & Hp).
      exists m. rewrite Z.add_0_l in Hp.
      split; [exact Hn|]. split; [exact Hp|].
      destruct (match_pair_ok k tol (Z.of_nat i) s r) as (m' & Hp' & Hidx).
      congruence.
  - intros fb.
    destruct (is_assembly sub_shape ref_shape) eqn:Ha.
    + exfalso. apply Hcond. apply is_assembly_iff. exact Ha.
    + destruct (get_shape_properties k (Some sub_shape)) as [sub_props|];
        [|discriminate].
      destruct (get_shape_properties k (Some ref_shape)) as [ref_props|];
        [|discriminate].
      cbn [bind]. apply part_mode_not_assembly.
Qed.

Lemma assembly_mode_positional_witness :
  exists fb,
    compare_models Adds Samples.step_files "two_blocks.step" "three_blocks.step"
                   1e-3 = Ok (Assembly fb)
    /\ List.length (components_match fb) = 2%nat.
Proof.
  destruct (assembly_mode_positional Adds Samples.step_files
              "two_blocks.step" "three_blocks.step" 1e-3
              Samples.two_blocks Samples.three_blocks eq_refl eq_refl)
    as [H _].
  destruct H as (fb & Hfb & Hlen & _).
  - left. cbn. lia.
  - exists fb. split; [exact Hfb | exact Hlen].
Defined.

(** C4: a part comparison succeeds exactly when its global score reaches
    the threshold of its tolerance tier: 70 for [tol >= 5e-2], 75 for
    [1e-2 <= tol < 5e-2], 80 for [tol < 1e-2]. *)
Theorem success_threshold_tiers (k : Accumulation) (fs : StepFiles)
      (sp rp : string) (tol : Q)
        (fb : PartFeedback) :
  compare_models k fs sp rp tol = Ok (Part fb) ->
  (5e-2 <= tol -> (success fb = true <-> 70 <= global_score fb))
  /\ (1e-2 <= tol -> tol < 5e-2 ->
      (success fb = true <-> 75 <= global_score fb))
  /\ (tol < 1e-2 -> (success fb = true <-> 80 <= global_score fb)).
Proof.
  intros H.
  destruct (compare_models_part_inv _ _ _ _ _ _ H)
    as (ss & rs & ps & pr & _ & _ & _ & _ & _ & Hp).
  destruct (part_mode_inv _ _ _ _ Hp) as (m & fv & fa & -> & _).
  rewrite part_feedback_success. rewrite geb_true. unfold threshold.
  split; [|split].
  - intros H5. apply geb_true in H5. rewrite H5. reflexivity.
  - intros H1 H5. apply geb_false in H5. apply geb_true in H1.
    rewrite H5, H1. reflexivity.
  - intros H1. assert (H5 : tol < 5e-2).
    { eapply Qlt_trans; [exact H1 | reflexivity]. }
    apply geb_false in H1. apply geb_false in H5.
    rewrite H5, H1. reflexivity.
Qed.

Lemma success_threshold_tiers_witness :
  exists fb,
    compare_models Adds Samples.step_files "long_block.step" "block.step" 1e-3
    = Ok (Part fb)
    /\ (success fb = true <-> 80 <= global_score fb).
Proof.
  eexists. split; [vm_compute; reflexivity|].
  refine (proj2 (proj2 (success_threshold_tiers Adds Samples.step_files
                          "long_block.step" "block.step" 1e-3 _ _)) _).
  - vm_compute. reflexivity.
  - reflexivity.
Defined.

(* ================================================================== *)
(** ** Comparing a part with itself *)
(* ================================================================== *)

Lemma pct_self (x : Q) : pct x x == 100.
Proof.
  unfold pct.
  assert (E : Qabs (x - x) == 0).
  { setoid_replace (x - x) with 0 by ring. reflexivity. }
  rewrite E.
  setoid_replace (100 * 0 / (if gtb (Qabs x) 1e-6 then Qabs x else 1))
    with 0 by (unfold Qdiv; ring).
  reflexivity.
Qed.

Lemma within_self (x tol : Q) : 0 <= tol -> within x x tol = true.
Proof.
  intros Ht. apply within_iff.
  setoid_replace (x - x) with 0 by ring. cbn [Qabs Z.abs Qnum Qden].
  apply Qmult_le_0_compat; [exact Ht|].
  apply Qle_trans with 1; [discriminate | apply Q.le_max_r].
Qed.

Lemma Topology_eqb_refl (t : Topology) : Topology_eqb t t = true.
Proof. unfold Topology_eqb. rewrite !Z.eqb_refl. reflexivity. Qed.

Lemma topo_diff_self (t : Topology) : topo_diff t t = 0%Z.
Proof. unfold topo_diff. rewrite !Z.sub_diag. reflexivity. Qed.

Lemma area_score_self (p : Props) (a : Q) : area_score p p a a == 100.
Proof.
  unfold area_score. rewrite topo_diff_self. cbn [Z.leb Z.compare].
  apply Q.min_l. rewrite pct_self. discriminate.
Qed.

Lemma dimensions_feature_self (p : Props) (tol : Q) :
  0 <= tol ->
  ok (dimensions_feature p p tol) = true
  /\ score (dimensions_feature p p tol) == 100.
Proof.
  intros Ht. unfold dimensions_feature.
  destruct (dimensions p) as [[a b] c].
  cbn [zip3 map ok score all forallb]. unfold sum, len.
  cbn [fold_left List.length].
  rewrite !within_self by exact Ht. split; [reflexivity|].
  rewrite !pct_self. reflexivity.
Qed.

Lemma moments_ok_self (p : Props) (tol : Q) :
  0 <= tol -> moments_ok p p tol = true.
Proof.
  intros Ht. unfold moments_ok.
  destruct (principal_moments p) as [[a b] c].
  cbn [zip3 map all forallb].
  rewrite !within_self by exact Ht. reflexivity.
Qed.

Lemma geb_100_threshold (tol : Q) : geb 100 (threshold tol) = true.
Proof.
  unfold threshold. destruct (geb tol 5e-2); [reflexivity|].
  destruct (geb tol 1e-2); reflexivity.
Qed.

(** When the second feature scores 100 as well, the part is perfect. *)
Lemma part_feedback_self (p : Props) (tol m : Q) (fv fa : option Feature) :
  0 <= tol -> m == 100 ->
  global_score (part_feedback p p tol m fv fa) = 100
  /\ success (part_feedback p p tol m fv fa) = true.
Proof.
  intros Ht Hm.
  assert (G : global_score (part_feedback p p tol m fv fa) = 100).
  { unfold part_feedback. cbn [global_score].
    unfold topology_feature, moments_feature. cbn [score].
    rewrite Topology_eqb_refl, (moments_ok_self p tol Ht).
    destruct (dimensions_feature_self p tol Ht) as [_ Hd].
    transitivity (round 100 1); [|reflexivity].
    apply round_comp. rewrite Hd, Hm. reflexivity. }
  split; [exact G|].
  rewrite part_feedback_success, G. apply geb_100_threshold.
Qed.

(** C10: for a readable part file with some geometry (a solid, a shell or a
    face, and at most one solid) and a tolerance above 0, comparing the
    file with itself returns a global score of 100 and succeeds. *)
Theorem self_comparison_perfect (k : Accumulation) (fs : StepFiles)
      (path : string) (tol : Q)
        (shape : Shape) :
  fs path = Some shape ->
  (List.length (shape_solids shape) <= 1)%nat ->
  shape_solids shape <> [] \/ shape_shells shape <> []
  \/ shape_faces shape <> [] ->
  0 < tol ->
  exists fb,
    compare_models k fs path path tol = Ok (Part fb)
    /\ global_score fb = 100 /\ success fb = true.
Proof.
  intros Hf Hn Hg Ht. apply Qlt_le_weak in Ht.
  rewrite (compare_models_readable k _ _ _ _ _ _ Hf Hf).
  assert (Ha : is_assembly shape shape = false).
  { unfold is_assembly. apply Nat.ltb_ge in Hn. rewrite Hn. reflexivity. }
  rewrite Ha.
  destruct (get_shape_properties_geometry k shape Hg) as [p Hp].
  rewrite Hp. cbn [bind].
  destruct (get_shape_properties_kind _ _ _ Hp)
    as [(v & Hv & _) | (a & Hv & Hs)].
  - rewrite (part_mode_volume _ _ _ _ _ Hv Hv).
    eexists. split; [reflexivity|].
    apply part_feedback_self; [exact Ht | apply pct_self].
  - rewrite (part_mode_area p p tol a a (or_introl Hv) Hs Hs).
    eexists. split; [reflexivity|].
    apply part_feedback_self; [exact Ht | apply area_score_self].
Qed.

Lemma self_comparison_perfect_witness :
  exists fb,
    compare_models Adds Samples.step_files "patch.step" "patch.step" 1e-3
    = Ok (Part fb)
    /\ global_score fb = 100 /\ success fb = true.
Proof.
  apply (self_comparison_perfect Adds Samples.step_files "patch.step" 1e-3
                                 Samples.patch_shape).
  - reflexivity.
  - cbn. lia.
  - right. left. discriminate.
  - reflexivity.
Defined.

(* ================================================================== *)
(** ** Principal moments and the denominator of the global score *)
(* ================================================================== *)

Module CS := ComparisonService.

(** When the FreeCAD comparator leaves the moments out. *)
Definition moments_not_applicable (pm_sub pm_ref : list Q) : bool :=
  CS.is_empty pm_sub || CS.list_eqb pm_sub [0; 0; 0]
  || CS.is_empty pm_ref || CS.list_eqb pm_ref [0; 0; 0]
  || negb (Nat.eqb (List.length pm_sub) (List.length pm_ref)).

Ltac cs_fields :=
  cbv zeta;
  cbn [CS.feedback CS.fb_principal_moments CS.global_score CS.fb_dimensions
       CS.fb_volume CS.fb_topology].

Ltac cs_mean :=
  apply round_comp;
  repeat match goal with
         | |- context [CS.score (if ?b then _ else _)] => destruct b
         end;
  cbn [CS.score];
  repeat match goal with
         | |- context [if ?b then _ else _] => destruct b
         end;
  repeat match goal with
         | |- context [?a / len ?l] => generalize (a / len l); intro
         end;
  field.

Ltac cs_excluded :=
  cs_fields; split; [reflexivity | cs_mean].

(** The FreeCAD comparator: moments that are empty or all zero on either
    side (or of different lengths) are marked [None] and the score is the
    mean of three features; otherwise it is the mean of four. *)
Lemma freecad_moments (submitted reference : CS.StepProperties) (tol : Q) :
  let fb := CS.feedback (CS.compare_properties submitted reference tol) in
  let d := CS.score (CS.fb_dimensions fb) in
  let v := CS.score (CS.fb_volume fb) in
  let t := CS.score (CS.fb_topology fb) in
  let p := CS.score (CS.fb_principal_moments fb) in
  if moments_not_applicable (CS.principal_moments submitted)
                            (CS.principal_moments reference)
  then CS.ok (CS.fb_principal_moments fb) = None
       /\ CS.global_score fb = round ((d + v + t) / 3) 1
  else (exists b, CS.ok (CS.fb_principal_moments fb) = Some b)
       /\ CS.global_score fb = round ((d + v + p + t) / 4) 1.
Proof.
  unfold CS.compare_properties, moments_not_applicable.
  set (pm_sub := CS.principal_moments submitted).
  set (pm_ref := CS.principal_moments reference).
  destruct (CS.is_empty pm_sub) eqn:E1; cbn [orb negb andb];
    [cs_excluded|].
  destruct (CS.list_eqb pm_sub [0;0;0]) eqn:E2; cbn [orb negb andb];
    [cs_excluded|].
  destruct (CS.is_empty pm_ref) eqn:E3; cbn [orb negb andb];
    [cs_excluded|].
  destruct (CS.list_eqb pm_ref [0;0;0]) eqn:E4; cbn [orb negb andb];
    [cs_excluded|].
  destruct (Nat.eqb (List.length pm_sub) (List.length pm_ref)) eqn:E5;
    cbn [orb negb andb]; [|cs_excluded].
  cs_fields.
  split.
  - destruct (all _); cbn [CS.ok]; eexists; reflexivity.
  - cs_mean.
Qed.






(* ================================================================== *)
(** ** Volume or surface area *)
(* ================================================================== *)

(** Two solids: the volumes are compared with [within] and [pct];
    two shells or surfaces: the areas are compared with the tolerance
    [1.5 * tol], and the area score gets the factor 1.1, capped at 100,
    when the topology counts differ by 6 at most in total. *)
Lemma measure_of_equal_kinds (sub ref : Props) (tol : Q) :
  (forall vs vr,
      volume sub = Some vs -> volume ref = Some vr ->
      exists fb,
        part_mode sub ref tol = Ok (Part fb)
        /\ fb_volume fb = Some {| ok := within vs vr tol; score := pct vs vr |}
        /\ fb_surface_area fb = None)
  /\ (forall a_s ar,
         volume sub = None -> volume ref = None ->
         surface_area sub = Some a_s -> surface_area ref = Some ar ->
         exists fb m,
           part_mode sub ref tol = Ok (Part fb)
           /\ fb_volume fb = None
           /\ fb_surface_area fb
              = Some {| ok := within a_s ar (1.5 * tol); score := round m 1 |}
           /\ ((topo_diff (topology sub) (topology ref) <= 6)%Z ->
               m = Qmin 100 (pct a_s ar * 1.1))
           /\ ((6 < topo_diff (topology sub) (topology ref))%Z ->
               m = pct a_s ar)).
Proof.
  split.
  - intros vs vr Hs Hr. rewrite (part_mode_volume _ _ _ _ _ Hs Hr).
    eexists. split; [reflexivity|]. split; reflexivity.
  - intros a_s ar Hvs Hvr Hs Hr.
    rewrite (part_mode_area _ _ _ _ _ (or_introl Hvs) Hs Hr).
    exists (part_feedback sub ref tol (area_score sub ref a_s ar) None
              (Some {| ok := leb (Qabs (a_s - ar))
                                 (tol * 1.5 * Qmax (Qabs ar) 1);
                       score := round (area_score sub ref a_s ar) 1 |})).
    exists (area_score sub ref a_s ar).
    split; [reflexivity|]. split; [reflexivity|].
    unfold part_feedback. cbn [fb_surface_area]. split.
    + f_equal. f_equal. unfold within, leb.
      apply Qleb_comp; [reflexivity | ring].
    + unfold area_score. split; intros H.
      * apply Z.leb_le in H. rewrite H. reflexivity.
      * apply Z.leb_gt in H. rewrite H. reflexivity.
Qed.

(** C3: comparing a solid with a shell, in either order, raises
    [KeyError: 'surface_area'] where the claim has the surface areas
    compared: the property dictionary of a solid has no surface area. *)
Theorem mixed_solid_shell_raises :
  compare_models Adds Samples.step_files "block.step" "patch.step" 1e-3
  = Raise (KeyError "surface_area")
  /\ compare_models Adds Samples.step_files "patch.step" "block.step" 1e-3
     = Raise (KeyError "surface_area")
  /\ compare_models Replaces Samples.step_files "block.step" "patch.step" 1e-3
     = Raise (KeyError "surface_area")
  /\ compare_models Replaces Samples.step_files "patch.step" "block.step" 1e-3
     = Raise (KeyError "surface_area").
Proof. repeat split; vm_compute; reflexivity. Qed.

(** The same for every solid compared with every shell. *)
Lemma solid_against_shell (k : Accumulation) (solid : Solid) (shell : Shell)
      (tol : Q) :
  exists ps pl,
    get_solid_properties k solid = Ok ps
    /\ get_shell_properties k shell = Ok pl
    /\ part_mode ps pl tol = Raise (KeyError "surface_area")
    /\ part_mode pl ps tol = Raise (KeyError "surface_area").
Proof.
  destruct (get_solid_properties_ok k solid) as (ps & Hps & _ & Ha & _).
  destruct (get_shell_properties_ok k shell) as (pl & Hpl & Hv & _).
  exists ps, pl. split; [exact Hps|]. split; [exact Hpl|]. split.
  - apply part_mode_key_error; [right; exact Hv | left; exact Ha].
  - apply part_mode_key_error; [left; exact Hv | right; exact Ha].
Qed.

(* ================================================================== *)
(** ** Several shells *)
(* ================================================================== *)

(** What [total_area] adds up on a kernel that adds to [props]: after each
    shell, everything [props] has gathered so far, starting from [d]. *)
Fixpoint running_totals (d : Q) (areas : list Q) : Q :=
  match areas with
  | [] => 0
  | a :: rest => (d + a) + running_totals (d + a) rest
  end.

(** The plain sum of the areas. *)
Definition summed (areas : list Q) : Q := fold_right Qplus 0 areas.

Lemma sumZ_from (l : list Z) (a : Z) :
  fold_left Z.add l a = (a + sumZ l)%Z.
Proof.
  unfold sumZ. revert a. induction l as [|x l IH]; intros a; cbn [fold_left].
  - lia.
  - rewrite (IH (a + x)%Z), (IH (0 + x)%Z). lia.
Qed.

Lemma sumZ_cons (x : Z) (l : list Z) : sumZ (x :: l) = (x + sumZ l)%Z.
Proof. unfold sumZ at 1. cbn [fold_left]. apply sumZ_from. Qed.

Lemma GProp_Add_dim (props item : GProp_GProps) :
  dim (GProp_Add props item) = dim props + dim item.
Proof.
  unfold GProp_Add.
  destruct (g props) as [[gx gy] gz]. destruct (g item) as [[ix iy] iz].
  reflexivity.
Qed.

(** The counts are summed over the shells, on either kernel. *)
Lemma combine_shell_counts (k : Accumulation) (shells : list Shell) :
  forall st : Totals,
    let st' := fold_left (combine_shell k) shells st in
    total_faces st'
    = (total_faces st
       + sumZ (map (fun sh => Z.of_nat (shell_faces sh)) shells))%Z
    /\ total_edges st'
       = (total_edges st
          + sumZ (map (fun sh => Z.of_nat (shell_edges sh)) shells))%Z
    /\ total_vertices st'
       = (total_vertices st
          + sumZ (map (fun sh => Z.of_nat (shell_vertices sh)) shells))%Z.
Proof.
  induction shells as [|sh shells IH]; intros st; cbn [fold_left map].
  - cbn. repeat split; lia.
  - destruct (IH (combine_shell k st sh)) as (Hf & He & Hv).
    cbn zeta in Hf, He, Hv |- *. rewrite Hf, He, Hv, !sumZ_cons.
    cbn [combine_shell total_faces total_edges total_vertices].
    repeat split; lia.
Qed.

(** On a kernel that adds, [total_area] counts the earlier shells again at
    every step. *)
Lemma combine_shell_area_adds (shells : list Shell) :
  forall st : Totals,
    total_area (fold_left (combine_shell Adds) shells st)
    == total_area st
       + running_totals (dim (props_obj st)) (map shell_area shells).
Proof.
  induction shells as [|sh shells IH]; intros st; cbn [fold_left map].
  - cbn [running_totals]. ring.
  - rewrite IH. cbn [combine_shell props_obj total_area running_totals].
    unfold brepgprop_SurfaceProperties, update, Mass.
    rewrite GProp_Add_dim. cbn [dim]. ring.
Qed.

(** On a kernel that replaces, [total_area] is the sum of the areas and
    [props] ends up with the last shell alone. *)
Lemma combine_shell_area_replaces (shells : list Shell) :
  forall st : Totals,
    total_area (fold_left (combine_shell Replaces) shells st)
    == total_area st + summed (map shell_area shells).
Proof.
  induction shells as [|sh shells IH]; intros st; cbn [fold_left map].
  - unfold summed. cbn [fold_right]. ring.
  - rewrite IH. unfold summed. cbn [fold_right].
    cbn [combine_shell total_area brepgprop_SurfaceProperties update Mass dim].
    ring.
Qed.

Lemma combine_shell_last_replaces (shells : list Shell) (sh : Shell)
      (st : Totals) :
  props_obj (fold_left (combine_shell Replaces) (shells ++ [sh]) st)
  = {| dim := shell_area sh; g := shell_centre sh |}.
Proof. rewrite fold_left_app. reflexivity. Qed.

Lemma fold_Bnd_Box_Add_union (shells : list Shell) :
  forall b : Box,
    fold_left (fun bbox shell => Bnd_Box_Add (shell_box shell) bbox)
              shells (Some b)
    = Some (fold_left box_union (map shell_box shells) b).
Proof.
  induction shells as [|sh shells IH]; intros b; cbn [fold_left map].
  - reflexivity.
  - apply IH.
Qed.

(** What the multi-shell branch returns: the counts summed, the bounding
    boxes united, the moments equal to the returned area three times; the
    returned area is the sum of the running totals on a kernel that adds,
    and the sum of the areas on a kernel that replaces. *)
Lemma multi_shell_properties (k : Accumulation) (shell0 shell1 : Shell)
      (shells : list Shell) (faces' : list Face) :
  let shs := shell0 :: shell1 :: shells in
  exists p a,
    get_shape_properties k (Some (mkShape [] shs faces')) = Ok p
    /\ volume p = None
    /\ surface_area p = Some a
    /\ principal_moments p = (a, a, a)
    /\ a = round (match k with
                  | Adds => running_totals 0 (map shell_area shs)
                  | Replaces => summed (map shell_area shs)
                  end) 3
    /\ topology p
       = {| faces := sumZ (map (fun sh => Z.of_nat (shell_faces sh)) shs);
            edges := sumZ (map (fun sh => Z.of_nat (shell_edges sh)) shs);
            vertices :=
              sumZ (map (fun sh => Z.of_nat (shell_vertices sh)) shs) |}
    /\ dimensions p
       = round3 (extents (fold_left box_union
                                    (map shell_box (shell1 :: shells))
                                    (shell_box shell0))) 3.
Proof.
  intros shs.
  change (get_shape_properties k (Some (mkShape [] shs faces')))
    with (get_multi_shell_properties k shs).
  unfold get_multi_shell_properties.
  assert (Hb : fold_left (fun bbox shell => Bnd_Box_Add (shell_box shell) bbox)
                         shs Bnd_Box_new
               = Some (fold_left box_union (map shell_box (shell1 :: shells))
                                 (shell_box shell0))).
  { unfold shs. cbn [fold_left Bnd_Box_Add Bnd_Box_new].
    apply (fold_Bnd_Box_Add_union (shell1 :: shells)). }
  rewrite Hb. cbn [Bnd_Box_Get bind].
  set (st0 := {| props_obj := GProp_GProps_new; total_area := 0;
                 total_faces := 0; total_edges := 0; total_vertices := 0 |}).
  do 2 eexists. split; [reflexivity|].
  cbn [volume surface_area principal_moments topology dimensions].
  split; [reflexivity|]. split; [reflexivity|]. split; [reflexivity|].
  split; [|split; [|reflexivity]].
  - apply round_comp. destruct k.
    + rewrite combine_shell_area_adds. cbn [st0 total_area props_obj].
      cbn [GProp_GProps_new dim]. ring.
    + rewrite combine_shell_area_replaces. cbn [st0 total_area]. ring.
  - destruct (combine_shell_counts k shs st0) as (Hf & He & Hv).
    cbn zeta in Hf, He, Hv. rewrite Hf, He, Hv. reflexivity.
Qed.

(** C7: a shape of two unit-area shells centred at x = 0.5 and x = 2.5.
    On a kernel that adds, the returned area (and each moment) is 3, not
    the summed area 2; on a kernel that replaces, the area is 2 but the
    centre of mass is the second shell's, (2.5, 0.5, 0), not the centre
    (1.5, 0.5, 0) of the two.  Counts and bounding box are aggregated on
    both. *)
Theorem multi_shell_aggregation :
  summed (map shell_area (shape_shells Samples.near_and_far)) == 2
  /\ get_shape_properties Adds (Some Samples.near_and_far)
     = Ok {| volume := None;
             surface_area := Some 3;
             center_of_mass := (3 # 2, 1 # 2, 0);
             dimensions := (3, 1, 1);
             topology := {| faces := 5; edges := 9; vertices := 8 |};
             type := Some "shell"%string;
             principal_moments := (3, 3, 3) |}
  /\ get_shape_properties Replaces (Some Samples.near_and_far)
     = Ok {| volume := None;
             surface_area := Some 2;
             center_of_mass := (5 # 2, 1 # 2, 0);
             dimensions := (3, 1, 1);
             topology := {| faces := 5; edges := 9; vertices := 8 |};
             type := Some "shell"%string;
             principal_moments := (2, 2, 2) |}.
Proof. repeat split; vm_compute; reflexivity. Qed.

(* ================================================================== *)
(** ** Drawings *)
(* ================================================================== *)

Module DXF := OccCompareDXF.

(** The four bounding-box coordinates agree within [tol]. *)
Definition boxes_agree (a b : DXF.OccShape) (tol : Q) : Prop :=
  Qabs (fst (DXF.CornerMin a) - fst (DXF.CornerMin b)) <= tol
  /\ Qabs (snd (DXF.CornerMin a) - snd (DXF.CornerMin b)) <= tol
  /\ Qabs (fst (DXF.CornerMax a) - fst (DXF.CornerMax b)) <= tol
  /\ Qabs (snd (DXF.CornerMax a) - snd (DXF.CornerMax b)) <= tol.

(** A reference shape has a match among the submitted shapes. *)
Definition has_match (sub_shapes : list DXF.OccShape) (tol : Q)
           (ref_shape : DXF.OccShape) : bool :=
  existsb (fun sub_shape => DXF.compare_geometry ref_shape sub_shape tol)
          sub_shapes.

Lemma compare_geometry_iff (a b : DXF.OccShape) (tol : Q) :
  DXF.compare_geometry a b tol = true
  <-> boxes_agree a b tol /\ DXF.shape_edges a = DXF.shape_edges b.
Proof.
  unfold DXF.compare_geometry, boxes_agree.
  destruct (gtb (Qabs (fst (DXF.CornerMin a) - fst (DXF.CornerMin b))) tol)
    eqn:E1; cbn [orb].
  { apply gtb_true in E1. split; [discriminate|].
    intros [(H & _) _]. exfalso. exact (Qlt_not_le _ _ E1 H). }
  destruct (gtb (Qabs (snd (DXF.CornerMin a) - snd (DXF.CornerMin b))) tol)
    eqn:E2; cbn [orb].
  { apply gtb_true in E2. split; [discriminate|].
    intros [(_ & H & _) _]. exfalso. exact (Qlt_not_le _ _ E2 H). }
  destruct (gtb (Qabs (fst (DXF.CornerMax a) - fst (DXF.CornerMax b))) tol)
    eqn:E3; cbn [orb].
  { apply gtb_true in E3. split; [discriminate|].
    intros [(_ & _ & H & _) _]. exfalso. exact (Qlt_not_le _ _ E3 H). }
  destruct (gtb (Qabs (snd (DXF.CornerMax a) - snd (DXF.CornerMax b))) tol)
    eqn:E4; cbn [orb].
  { apply gtb_true in E4. split; [discriminate|].
    intros [(_ & _ & _ & H) _]. exfalso. exact (Qlt_not_le _ _ E4 H). }
  apply gtb_false in E1, E2, E3, E4. rewrite Nat.eqb_eq. tauto.
Qed.


Lemma first_match_has_match (ref_shape : DXF.OccShape)
      (sub_shapes : list DXF.OccShape) (tol : Q) :
  has_match sub_shapes tol ref_shape
  = match DXF.first_match ref_shape sub_shapes tol with
    | Some _ => true
    | None => false
    end.
Proof.
  unfold has_match, DXF.first_match.
  induction sub_shapes as [|y l IH]; cbn [existsb find]; [reflexivity|].
  destruct (DXF.compare_geometry ref_shape y tol); [reflexivity | exact IH].
Qed.

Lemma count_matches_from (ref_shapes sub_shapes : list DXF.OccShape)
      (tol : Q) :
  forall n : Z,
    fold_left (fun matched_shapes ref_shape =>
                 match DXF.first_match ref_shape sub_shapes tol with
                 | Some _ => (matched_shapes + 1)%Z
                 | None => matched_shapes
                 end) ref_shapes n
    = (n + Z.of_nat (List.length (filter (has_match sub_shapes tol)
                                         ref_shapes)))%Z.
Proof.
  induction ref_shapes as [|r l IH]; intros n; cbn [fold_left filter].
  - cbn. lia.
  - rewrite IH, first_match_has_match.
    destruct (DXF.first_match r sub_shapes tol); cbn [List.length]; lia.
Qed.

(** Every reference shape is searched in the whole submitted list: the
    number of matches is the number of reference shapes with a match. *)
Lemma count_matches_filter (ref_shapes sub_shapes : list DXF.OccShape)
      (tol : Q) :
  DXF.count_matches ref_shapes sub_shapes tol
  = Z.of_nat (List.length (filter (has_match sub_shapes tol) ref_shapes)).
Proof. unfold DXF.count_matches. rewrite count_matches_from. lia. Qed.


Lemma count_matches_le (ref_shapes sub_shapes : list DXF.OccShape) (tol : Q) :
  (0 <= DXF.count_matches ref_shapes sub_shapes tol
   <= Z.of_nat (List.length ref_shapes))%Z.
Proof.
  rewrite count_matches_filter.
  pose proof (filter_length_le (has_match sub_shapes tol) ref_shapes).
  lia.
Qed.


Lemma drawing_score (matched total : Z) :
  (0 <= matched <= total)%Z ->
  (if (total =? 0)%Z then 0
   else round (inject_Z matched / inject_Z total * 100) 2)
  = round (100 * inject_Z matched / inject_Z (Z.max total 1)) 2.
Proof.
  intros H. destruct (total =? 0)%Z eqn:E.
  - apply Z.eqb_eq in E. subst total.
    assert (matched = 0%Z) as -> by lia. reflexivity.
  - apply Z.eqb_neq in E. rewrite Z.max_l by lia.
    apply round_comp. unfold Qdiv. ring.
Qed.



(* ================================================================== *)
(** ** Unreadable files and shapes without geometry *)
(* ================================================================== *)

(** The drawing comparator returns a failure record when a file is missing
    or cannot be read. *)
Lemma dxf_failure_paths (fs : DXF.DxfFiles) (sp rp : string) (tol : Q) :
  fs rp = None \/ fs sp = None
  \/ (exists e, fs rp = Some (DXF.Unreadable e))
  \/ (exists e, fs sp = Some (DXF.Unreadable e)) ->
  let r := DXF.compare_dxf_drawings fs sp rp tol in
  DXF.success r = false
  /\ (exists err, DXF.error r = Some err)
  /\ DXF.comparison r = None.
Proof.
  intros H.
  unfold DXF.compare_dxf_drawings, DXF.compare_body, DXF.exists_,
    DXF.analyze_dxf.
  destruct (fs rp) as [[er | cr gr] |] eqn:Er;
    destruct (fs sp) as [[es | cs gs] |] eqn:Es;
    try (destruct er); try (destruct es);
    cbn;
    try (split; [reflexivity | split; [eexists; reflexivity | reflexivity]]).
  exfalso. destruct H as [H | [H | [[e H] | [e H]]]]; discriminate H.
Qed.








(* ================================================================== *)
(** ** Rounding keeps order and bounds *)
(* ================================================================== *)

Lemma round_half_even_between (x : Q) :
  (Qfloor x <= round_half_even x <= Qfloor x + 1)%Z.
Proof.
  unfold round_half_even.
  destruct (Qcompare (x - inject_Z (Qfloor x)) (1 # 2));
    [destruct (Z.even (Qfloor x))| |]; lia.
Qed.

Lemma round_half_even_mono (x y : Q) :
  x <= y -> (round_half_even x <= round_half_even y)%Z.
Proof.
  intros H. pose proof (Qfloor_resp_le _ _ H) as Hf.
  destruct (Z.eq_dec (Qfloor x) (Qfloor y)) as [E | N].
  - unfold round_half_even. rewrite <- E.
    destruct (Qcompare_spec (x - inject_Z (Qfloor x)) (1 # 2)) as [Hx|Hx|Hx];
      destruct (Qcompare_spec (y - inject_Z (Qfloor x)) (1 # 2)) as [Hy|Hy|Hy];
      try (destruct (Z.even (Qfloor x))); try lia; exfalso; lra.
  - pose proof (round_half_even_between x).
    pose proof (round_half_even_between y).
    lia.
Qed.

Lemma pow10_pos (n : nat) : 0 < pow10 n.
Proof.
  unfold pow10. change 0 with (inject_Z 0). rewrite <- Zlt_Qlt.
  apply Z.pow_pos_nonneg; lia.
Qed.

(** [round(x, n)] as a fraction. *)
Lemma round_value (x : Q) (n : nat) :
  round x n == inject_Z (round_half_even (x * pow10 n)) / pow10 n.
Proof. unfold round. apply Qred_correct. Qed.

Lemma round_mono (x y : Q) (n : nat) : x <= y -> round x n <= round y n.
Proof.
  intros H. rewrite !round_value.
  pose proof (pow10_pos n) as Hp.
  apply Qmult_le_compat_r.
  - rewrite <- Zle_Qle. apply round_half_even_mono.
    apply Qmult_le_compat_r; [exact H | apply Qlt_le_weak, Hp].
  - apply Qlt_le_weak, Qinv_lt_0_compat, Hp.
Qed.

Lemma round_half_even_inject_Z (z : Z) : round_half_even (inject_Z z) = z.
Proof.
  unfold round_half_even. rewrite Qfloor_Z.
  assert (E : inject_Z z - inject_Z z == 0) by ring.
  rewrite (Qcompare_comp _ _ E _ _ (Qeq_refl (1 # 2))). reflexivity.
Qed.

(** A whole number is its own rounding. *)
Lemma round_inject_Z (z : Z) (n : nat) : round (inject_Z z) n == inject_Z z.
Proof.
  rewrite round_value. unfold pow10.
  assert (E : inject_Z z * inject_Z (10 ^ Z.of_nat n)
              == inject_Z (z * 10 ^ Z.of_nat n))
    by (rewrite inject_Z_mult; reflexivity).
  rewrite (round_half_even_comp _ _ E), round_half_even_inject_Z.
  rewrite inject_Z_mult. field.
  pose proof (pow10_pos n) as Hp. unfold pow10 in Hp. lra.
Qed.

Lemma round_bounds (x : Q) (n : nat) (lo hi : Z) :
  inject_Z lo <= x <= inject_Z hi ->
  inject_Z lo <= round x n <= inject_Z hi.
Proof.
  intros [Hlo Hhi]. split.
  - rewrite <- (round_inject_Z lo n). apply round_mono, Hlo.
  - rewrite <- (round_inject_Z hi n). apply round_mono, Hhi.
Qed.

(* ================================================================== *)
(** ** Bounds and monotonicity of the scoring primitives *)
(* ================================================================== *)

Lemma pct_denominator_pos (r : Q) :
  0 < (if gtb (Qabs r) 1e-6 then Qabs r else 1).
Proof.
  destruct (gtb (Qabs r) 1e-6) eqn:E; [|reflexivity].
  apply gtb_true in E. eapply Qlt_trans; [|exact E]. reflexivity.
Qed.

Lemma pct_ratio_nonneg (s r : Q) :
  0 <= 100 * Qabs (s - r) / (if gtb (Qabs r) 1e-6 then Qabs r else 1).
Proof.
  apply Qle_shift_div_l; [apply pct_denominator_pos|].
  rewrite Qmult_0_l.
  apply Qmult_le_0_compat; [discriminate | apply Qabs_nonneg].
Qed.

(** The clamp of [pct]: [min] caps the loss at 100, and the loss is a
    quotient of non-negative numbers. *)
Lemma pct_in_range (s r : Q) : 0 <= pct s r <= 100.
Proof.
  unfold pct. pose proof (pct_ratio_nonneg s r) as H.
  pose proof (Q.le_min_l 100
                (100 * Qabs (s - r)
                 / (if gtb (Qabs r) 1e-6 then Qabs r else 1))) as Hl.
  assert (Hm : 0 <= Qmin 100 (100 * Qabs (s - r)
                              / (if gtb (Qabs r) 1e-6 then Qabs r else 1))).
  { apply Q.min_glb; [discriminate | exact H]. }
  split; lra.
Qed.

(** X1: a relative score is never below 0 and never above 100, whatever
    the two values are: a reference of 0, values of opposite signs and a
    submitted value many times the reference included. *)
Theorem pct_bounds (s r : Q) : 0 <= pct s r <= 100.
Proof. exact (pct_in_range s r). Qed.

(** X2: for a fixed reference value, a submitted value further away never
    scores higher. *)
Theorem pct_monotone (s1 s2 r : Q) :
  Qabs (s1 - r) <= Qabs (s2 - r) -> pct s2 r <= pct s1 r.
Proof.
  intros H. unfold pct.
  pose proof (pct_denominator_pos r) as Hd.
  set (d := if gtb (Qabs r) 1e-6 then Qabs r else 1) in *.
  assert (Hr : 100 * Qabs (s1 - r) / d <= 100 * Qabs (s2 - r) / d).
  { apply Qmult_le_compat_r.
    - apply Qmult_le_l; [reflexivity | exact H].
    - apply Qlt_le_weak, Qinv_lt_0_compat, Hd. }
  pose proof (Q.min_le_compat_l _ _ 100 Hr) as Hm.
  lra.
Qed.

Lemma pct_monotone_witness : pct 12 10 <= pct 9 10.
Proof. apply pct_monotone. vm_compute. discriminate. Defined.

(** A value within a tolerance is within every larger one. *)
Lemma within_mono (s r tol tol' : Q) :
  tol <= tol' -> within s r tol = true -> within s r tol' = true.
Proof.
  intros Ht H. apply within_iff in H. apply within_iff.
  eapply Qle_trans; [exact H|].
  apply Qmult_le_compat_r; [exact Ht|].
  apply Qle_trans with 1; [discriminate | apply Q.le_max_r].
Qed.

Lemma threshold_antitone (tol tol' : Q) :
  tol <= tol' -> threshold tol' <= threshold tol.
Proof.
  intros Ht. unfold threshold.
  destruct (geb tol 5e-2) eqn:E5; destruct (geb tol' 5e-2) eqn:E5';
    destruct (geb tol 1e-2) eqn:E1; destruct (geb tol' 1e-2) eqn:E1';
    try discriminate;
    repeat match goal with
           | H : geb _ _ = true |- _ => apply geb_true in H
           | H : geb _ _ = false |- _ => apply geb_false in H
           end;
    exfalso; lra.
Qed.

(* ================================================================== *)
(** ** The part score *)
(* ================================================================== *)

(** The two ways part mode returns a feedback. *)
Lemma part_mode_measure (sub ref : Props) (tol : Q) (fb : PartFeedback) :
  part_mode sub ref tol = Ok (Part fb) ->
  (exists vs vr,
      volume sub = Some vs /\ volume ref = Some vr
      /\ fb = part_feedback sub ref tol (pct vs vr)
                (Some {| ok := within vs vr tol; score := pct vs vr |}) None)
  \/ (exists a_s ar,
         (volume sub = None \/ volume ref = None)
         /\ surface_area sub = Some a_s /\ surface_area ref = Some ar
         /\ fb = part_feedback sub ref tol (area_score sub ref a_s ar) None
                   (Some {| ok := leb (Qabs (a_s - ar))
                                      (tol * 1.5 * Qmax (Qabs ar) 1);
                            score := round (area_score sub ref a_s ar) 1 |})).
Proof.
  intros H.
  destruct (part_mode_cases sub ref tol)
    as [(vs & vr & Hs & Hr) | [(a_s & ar & Hv & Hs & Hr) | (Hv & Ha)]].
  - rewrite (part_mode_volume _ _ _ _ _ Hs Hr) in H.
    injection H as <-. left. exists vs, vr. auto.
  - rewrite (part_mode_area _ _ _ _ _ Hv Hs Hr) in H.
    injection H as <-. right. exists a_s, ar. auto.
  - rewrite (part_mode_key_error _ _ _ Hv Ha) in H. discriminate.
Qed.

Lemma area_score_bounds (sub ref : Props) (a_s ar : Q) :
  0 <= area_score sub ref a_s ar <= 100.
Proof.
  unfold area_score. pose proof (pct_in_range a_s ar) as [Hl Hh].
  destruct (topo_diff (topology sub) (topology ref) <=? 6)%Z.
  - split; [|apply Q.le_min_l].
    apply Q.min_glb; [discriminate | lra].
  - split; assumption.
Qed.

Lemma dimensions_score_bounds (sub ref : Props) (tol : Q) :
  0 <= score (dimensions_feature sub ref tol) <= 100.
Proof.
  unfold dimensions_feature.
  destruct (dimensions sub) as [[a1 a2] a3].
  destruct (dimensions ref) as [[b1 b2] b3].
  cbn [zip3 map score]. unfold sum, len. cbn [fold_left List.length].
  pose proof (pct_in_range a1 b1). pose proof (pct_in_range a2 b2).
  pose proof (pct_in_range a3 b3).
  change (inject_Z (Z.of_nat 3)) with 3.
  split.
  - apply Qle_shift_div_l; [reflexivity | lra].
  - apply Qle_shift_div_r; [reflexivity | lra].
Qed.

Lemma topology_score_bounds (sub ref : Props) :
  0 <= score (topology_feature sub ref) <= 100.
Proof.
  unfold topology_feature. cbn [score].
  destruct (Topology_eqb _ _); split; discriminate.
Qed.

Lemma moments_score_bounds (sub ref : Props) (tol : Q) :
  0 <= score (moments_feature sub ref tol) <= 100.
Proof.
  unfold moments_feature. cbn [score].
  destruct (moments_ok _ _ _); split; discriminate.
Qed.

Lemma part_feedback_bounds (sub ref : Props) (tol m : Q)
      (fv fa : option Feature) :
  0 <= m <= 100 ->
  0 <= global_score (part_feedback sub ref tol m fv fa) <= 100.
Proof.
  intros Hm. unfold part_feedback. cbn [global_score].
  pose proof (dimensions_score_bounds sub ref tol).
  pose proof (topology_score_bounds sub ref).
  pose proof (moments_score_bounds sub ref tol).
  apply (round_bounds _ 1 0 100).
  change (inject_Z 0) with 0. change (inject_Z 100) with 100.
  setoid_replace (0 + 1 + 1 + 1 + 1) with 4 by reflexivity.
  split.
  - apply Qle_shift_div_l; [reflexivity | lra].
  - apply Qle_shift_div_r; [reflexivity | lra].
Qed.

(** X3: every score of a part feedback, and its global score, lies
    between 0 and 100. *)
Theorem part_scores_bounded (k : Accumulation) (fs : StepFiles)
        (sp rp : string) (tol : Q) (fb : PartFeedback) :
  compare_models k fs sp rp tol = Ok (Part fb) ->
  0 <= global_score fb <= 100
  /\ 0 <= score (fb_dimensions fb) <= 100
  /\ 0 <= score (fb_topology fb) <= 100
  /\ 0 <= score (fb_principal_moments fb) <= 100
  /\ (forall f, fb_volume fb = Some f -> 0 <= score f <= 100)
  /\ (forall f, fb_surface_area fb = Some f -> 0 <= score f <= 100).
Proof.
  intros H.
  destruct (compare_models_part_inv _ _ _ _ _ _ H)
    as (ss & rs & ps & pr & _ & _ & _ & _ & _ & Hp).
  destruct (part_mode_measure _ _ _ _ Hp)
    as [(vs & vr & _ & _ & ->) | (a_s & ar & _ & _ & _ & ->)].
  - split; [apply part_feedback_bounds, pct_in_range|].
    unfold part_feedback.
    cbn [fb_dimensions fb_topology fb_principal_moments fb_volume
         fb_surface_area].
    split; [apply dimensions_score_bounds|].
    split; [apply topology_score_bounds|].
    split; [apply moments_score_bounds|].
    split; [|discriminate].
    intros f Hf. injection Hf as <-. cbn [score]. apply pct_in_range.
  - split; [apply part_feedback_bounds, area_score_bounds|].
    unfold part_feedback.
    cbn [fb_dimensions fb_topology fb_principal_moments fb_volume
         fb_surface_area].
    split; [apply dimensions_score_bounds|].
    split; [apply topology_score_bounds|].
    split; [apply moments_score_bounds|].
    split; [discriminate|].
    intros f Hf. injection Hf as <-. cbn [score].
    apply (round_bounds _ 1 0 100). apply area_score_bounds.
Qed.

Lemma part_scores_bounded_witness :
  exists fb,
    compare_models Replaces Samples.step_files "long_block.step"
                   "block.step" 1e-3 = Ok (Part fb)
    /\ 0 <= global_score fb <= 100.
Proof.
  destruct (compare_models Replaces Samples.step_files "long_block.step"
                           "block.step" 1e-3)
    as [[afb | fb] | e] eqn:E; try (vm_compute in E; discriminate E).
  exists fb. split; [reflexivity|].
  exact (proj1 (part_scores_bounded _ _ _ _ _ _ E)).
Defined.

Lemma moments_ok_mono (sub ref : Props) (tol tol' : Q) :
  tol <= tol' -> moments_ok sub ref tol = true ->
  moments_ok sub ref tol' = true.
Proof.
  intros Ht. unfold moments_ok.
  destruct (principal_moments sub) as [[a1 a2] a3].
  destruct (principal_moments ref) as [[b1 b2] b3].
  cbn [zip3 map all forallb]. rewrite !andb_true_iff.
  intros (H1 & H2 & H3 & _).
  repeat split; eapply within_mono; eassumption.
Qed.

Lemma part_feedback_tol_mono (sub ref : Props) (tol tol' m : Q)
      (fv fa fv' fa' : option Feature) :
  tol <= tol' ->
  global_score (part_feedback sub ref tol m fv fa)
  <= global_score (part_feedback sub ref tol' m fv' fa').
Proof.
  intros Ht. unfold part_feedback. cbn [global_score].
  apply round_mono.
  apply Qmult_le_compat_r; [|discriminate].
  assert (Hd : score (dimensions_feature sub ref tol)
               == score (dimensions_feature sub ref tol')) by reflexivity.
  assert (Hp : score (moments_feature sub ref tol)
               <= score (moments_feature sub ref tol')).
  { unfold moments_feature. cbn [score].
    destruct (moments_ok sub ref tol) eqn:E.
    - rewrite (moments_ok_mono _ _ _ _ Ht E). apply Qle_refl.
    - destruct (moments_ok sub ref tol'); discriminate. }
  lra.
Qed.

(** X4: loosening the tolerance never turns a pass into a fail: a part
    comparison that succeeds at [tol] also succeeds, with a global score at
    least as high, at every [tol' >= tol]. *)
Theorem looser_tolerance_keeps_success (k : Accumulation) (fs : StepFiles)
        (sp rp : string) (tol tol' : Q) (fb : PartFeedback) :
  tol <= tol' ->
  compare_models k fs sp rp tol = Ok (Part fb) ->
  exists fb',
    compare_models k fs sp rp tol' = Ok (Part fb')
    /\ global_score fb <= global_score fb'
    /\ (success fb = true -> success fb' = true).
Proof.
  intros Ht H.
  destruct (compare_models_part_inv _ _ _ _ _ _ H)
    as (ss & rs & ps & pr & Hs & Hr & Ha & Eps & Epr & Hp).
  rewrite (compare_models_readable k _ _ _ tol' _ _ Hs Hr), Ha, Eps, Epr.
  cbn [bind].
  assert (G : forall m fv fa fv' fa',
             fb = part_feedback ps pr tol m fv fa ->
             global_score fb
             <= global_score (part_feedback ps pr tol' m fv' fa')
             /\ (success fb = true ->
                 success (part_feedback ps pr tol' m fv' fa') = true)).
  { intros m fv fa fv' fa' ->.
    pose proof (part_feedback_tol_mono ps pr tol tol' m fv fa fv' fa' Ht) as L.
    split; [exact L|].
    rewrite !part_feedback_success, !geb_true. intros S.
    pose proof (threshold_antitone _ _ Ht). lra. }
  destruct (part_mode_measure _ _ _ _ Hp)
    as [(vs & vr & Hvs & Hvr & E) | (a_s & ar & Hv & Has & Har & E)].
  - rewrite (part_mode_volume _ _ tol' _ _ Hvs Hvr).
    eexists. split; [reflexivity|]. eapply G. exact E.
  - rewrite (part_mode_area _ _ tol' _ _ Hv Has Har).
    eexists. split; [reflexivity|]. eapply G. exact E.
Qed.

Lemma looser_tolerance_keeps_success_witness :
  exists fb fb',
    compare_models Adds Samples.step_files "long_block.step" "block.step"
                   1e-3 = Ok (Part fb)
    /\ compare_models Adds Samples.step_files "long_block.step" "block.step"
                      5e-2 = Ok (Part fb')
    /\ global_score fb <= global_score fb'.
Proof.
  destruct (compare_models Adds Samples.step_files "long_block.step"
                           "block.step" 1e-3)
    as [[afb | fb] | e] eqn:E; try (vm_compute in E; discriminate E).
  destruct (looser_tolerance_keeps_success Adds Samples.step_files
              "long_block.step" "block.step" 1e-3 5e-2 fb)
    as (fb' & E' & L & _).
  - vm_compute. discriminate.
  - exact E.
  - exists fb, fb'. split; [reflexivity|]. split; [exact E' | exact L].
Defined.

(** X5: extraction returns a dictionary exactly for a shape with a solid, a
    shell or a face; the dictionary has a volume and no surface area when
    the shape has a solid, and a surface area and no volume otherwise. *)
Theorem extraction_kinds (k : Accumulation) (shape : Shape) :
  (shape_solids shape <> [] ->
   exists p v, get_shape_properties k (Some shape) = Ok p
               /\ volume p = Some v /\ surface_area p = None)
  /\ (shape_solids shape = [] ->
      shape_shells shape <> [] \/ shape_faces shape <> [] ->
      exists p a, get_shape_properties k (Some shape) = Ok p
                  /\ volume p = None /\ surface_area p = Some a)
  /\ (shape_solids shape = [] -> shape_shells shape = [] ->
      shape_faces shape = [] ->
      exists e, get_shape_properties k (Some shape) = Raise e).
Proof.
  split; [|split].
  - intros Hs.
    unfold get_shape_properties, get_solids_from_shape.
    destruct (shape_solids shape) as [|solid0 ?]; [contradiction|].
    destruct (get_solid_properties_ok k solid0) as (q & -> & (v & Hv) & Ha & _).
    eauto.
  - intros Hs Hg.
    destruct (get_shape_properties_geometry k shape) as [p Hp].
    { right. exact Hg. }
    destruct (get_shape_properties_kind _ _ _ Hp)
      as [(v & Hv & _) | (a & Hv & Ha)]; [|eauto].
    exfalso. revert Hp Hv.
    unfold get_shape_properties, get_solids_from_shape,
      get_shells_from_shape, get_faces_from_shape, get_face_properties.
    rewrite Hs.
    destruct (shape_shells shape) as [|shell0 [|shell1 shells]].
    + destruct (shape_faces shape) as [|face0 ?]; [discriminate|].
      destruct (get_shell_properties_ok k face0) as (q & -> & Hq & _).
      intros E; injection E as <-. congruence.
    + destruct (get_shell_properties_ok k shell0) as (q & -> & Hq & _).
      intros E; injection E as <-. congruence.
    + destruct (get_multi_shell_properties_ok k shell0 (shell1 :: shells))
        as (q & -> & Hq & _).
      intros E; injection E as <-. congruence.
  - intros H1 H2 H3.
    rewrite (get_shape_properties_no_geometry k _ H1 H2 H3). eauto.
Qed.

(* ================================================================== *)
(** ** More on assemblies *)
(* ================================================================== *)

(** X6: the global score of an assembly lies between 0 and 100. *)
Theorem assembly_score_bounded (k : Accumulation)
        (sub_solids ref_solids : list Solid) (tol : Q) :
  exists fb,
    assembly_mode k sub_solids ref_solids tol = Ok (Assembly fb)
    /\ 0 <= asm_global_score fb <= 100.
Proof.
  destruct (assembly_mode_ok k sub_solids ref_solids tol) as (ms & Hm & _).
  eexists. split; [exact Hm|].
  unfold assembly_feedback. cbn [asm_global_score].
  apply (round_bounds _ 1 0 100).
  change (inject_Z 0) with 0. change (inject_Z 100) with 100.
  pose proof (filter_length_le match_passes ms) as Hle.
  set (n := List.length (filter match_passes ms)) in *.
  set (t := List.length ms) in *.
  assert (Hd : 0 < inject_Z (Z.max (Z.of_nat t) 1)).
  { change 0 with (inject_Z 0). rewrite <- Zlt_Qlt. lia. }
  assert (Hn : 0 <= inject_Z (Z.of_nat n)).
  { change 0 with (inject_Z 0). rewrite <- Zle_Qle. lia. }
  assert (Hnt : inject_Z (Z.of_nat n) <= inject_Z (Z.max (Z.of_nat t) 1)).
  { rewrite <- Zle_Qle. lia. }
  split.
  - apply Qmult_le_0_compat; [|discriminate].
    apply Qle_shift_div_l; [exact Hd | lra].
  - setoid_replace 100 with (1 * 100) at 2 by reflexivity.
    apply Qmult_le_compat_r; [|discriminate].
    apply Qle_shift_div_r; [exact Hd | lra].
Qed.

Lemma assembly_mode_unfold (k : Accumulation)
      (sub_solids ref_solids : list Solid) (tol : Q) :
  assembly_mode k sub_solids ref_solids tol
  = (matches <- for_each (match_pair k tol)
                         (enumerate (combine sub_solids ref_solids)) ;;
     Ok (Assembly (assembly_feedback sub_solids ref_solids matches))).
Proof. reflexivity. Qed.

Lemma match_pair_self (k : Accumulation) (tol : Q) (i : Z) (solid : Solid)
      (m : Match) :
  0 <= tol ->
  match_pair k tol (i, (solid, solid)) = Ok m -> match_passes m = true.
Proof.
  intros Ht. unfold match_pair.
  destruct (get_solid_properties_ok k solid) as (p & -> & (v & Hv) & _).
  cbn [bind]. rewrite Hv. cbn [getitem bind].
  intros H. injection H as <-.
  unfold match_passes. cbn [volume_ok center_of_mass_ok topology_match].
  rewrite (within_self v tol Ht), Topology_eqb_refl.
  destruct (center_of_mass p) as [[a b] c]. cbn [zip3 map all forallb].
  rewrite !within_self by exact Ht. reflexivity.
Qed.

Lemma enumerate_from_combine_self {A} (l : list A) :
  forall (n i : Z) (a b : A),
    In (i, (a, b)) (enumerate_from n (combine l l)) -> a = b.
Proof.
  induction l as [|x l IH]; intros n i a b H; cbn in H; [contradiction|].
  destruct H as [H | H].
  - injection H as _ <- <-. reflexivity.
  - eapply IH. exact H.
Qed.

Lemma Forall2_Forall_r {A B} (R : A -> B -> Prop) (P : B -> Prop)
      (l : list A) (l' : list B) :
  Forall2 R l l' ->
  (forall a b, In a l -> R a b -> P b) -> Forall P l'.
Proof.
  induction 1 as [|x y l l' HR HF IH]; intros H; constructor.
  - apply (H x y); [left; reflexivity | exact HR].
  - apply IH. intros a b Ha. apply H. right. exact Ha.
Qed.

Lemma filter_all {A} (f : A -> bool) (l : list A) :
  Forall (fun a => f a = true) l -> filter f l = l.
Proof.
  induction 1 as [|a l Ha HF IH]; cbn; [reflexivity|].
  rewrite Ha, IH. reflexivity.
Qed.

(** X7: an assembly compared with itself, at a tolerance of 0 or more,
    passes every pair, gets the global score 100 and succeeds. *)
Theorem assembly_self_comparison (k : Accumulation) (fs : StepFiles)
        (path : string) (tol : Q) (shape : Shape) :
  fs path = Some shape ->
  (1 < List.length (shape_solids shape))%nat ->
  0 <= tol ->
  exists fb,
    compare_models k fs path path tol = Ok (Assembly fb)
    /\ Forall (fun m => match_passes m = true) (components_match fb)
    /\ List.length (components_match fb) = List.length (shape_solids shape)
    /\ asm_global_score fb = 100
    /\ asm_success fb = true.
Proof.
  intros Hf Hn Ht.
  rewrite (compare_models_readable k _ _ _ _ _ _ Hf Hf).
  assert (Ha : is_assembly shape shape = true).
  { apply is_assembly_iff. left. exact Hn. }
  rewrite Ha.
  set (l := shape_solids shape) in *.
  destruct (assembly_mode_ok k l l tol) as (ms & Hm & HF).
  exists (assembly_feedback l l ms). split; [exact Hm|].
  assert (Hall : Forall (fun m => match_passes m = true) ms).
  { apply (Forall2_Forall_r _ _ _ _ HF).
    intros [i [a b]] m Hin Hp.
    pose proof (enumerate_from_combine_self _ _ _ _ _ Hin) as <-.
    eapply match_pair_self; eassumption. }
  assert (Hlen : List.length ms = List.length l).
  { rewrite <- (Forall2_length_eq _ _ _ HF). unfold enumerate.
    rewrite enumerate_from_length, length_combine. apply Nat.min_id. }
  unfold assembly_feedback.
  cbn [components_match asm_global_score asm_success].
  split; [exact Hall|]. split; [exact Hlen|].
  rewrite (filter_all _ _ Hall), Hlen, Nat.eqb_refl.
  assert (G : round (inject_Z (Z.of_nat (List.length l))
                     / inject_Z (Z.max (Z.of_nat (List.length l)) 1) * 100) 1
              = 100).
  { transitivity (round 100 1); [|reflexivity].
    apply round_comp. rewrite Z.max_l by lia. field.
    change 0 with (inject_Z 0). rewrite inject_Z_injective. lia. }
  rewrite G. split; reflexivity.
Qed.

Lemma assembly_self_comparison_witness :
  exists fb,
    compare_models Adds Samples.step_files "two_blocks.step"
                   "two_blocks.step" 1e-3 = Ok (Assembly fb)
    /\ asm_global_score fb = 100 /\ asm_success fb = true.
Proof.
  destruct (assembly_self_comparison Adds Samples.step_files
              "two_blocks.step" 1e-3 Samples.two_blocks)
    as (fb & E & _ & _ & G & S).
  - reflexivity.
  - cbn. lia.
  - discriminate.
  - exists fb. auto.
Defined.

Lemma combine_app_l {A B} (l : list A) :
  forall (l' : list B) (extra : list A),
    List.length l = List.length l' -> combine (l ++ extra) l' = combine l l'.
Proof.
  induction l as [|x l IH]; intros [|y l'] extra H; try discriminate.
  - destruct extra; reflexivity.
  - cbn. f_equal. apply IH. injection H as H. exact H.
Qed.

Lemma combine_app_r {A B} (l : list A) :
  forall (l' extra : list B),
    List.length l = List.length l' -> combine l (l' ++ extra) = combine l l'.
Proof.
  induction l as [|x l IH]; intros [|y l'] extra H; try discriminate.
  - reflexivity.
  - cbn. f_equal. apply IH. injection H as H. exact H.
Qed.

(** X8: solids beyond the shorter list change neither the match records
    nor the global score, on either side; but they make the comparison
    fail, whatever the score. *)
Theorem unpaired_components (k : Accumulation)
        (sub_solids ref_solids extra : list Solid) (tol : Q) :
  List.length sub_solids = List.length ref_solids ->
  extra <> [] ->
  exists fb fb_sub fb_ref,
    assembly_mode k sub_solids ref_solids tol = Ok (Assembly fb)
    /\ assembly_mode k (sub_solids ++ extra) ref_solids tol
       = Ok (Assembly fb_sub)
    /\ assembly_mode k sub_solids (ref_solids ++ extra) tol
       = Ok (Assembly fb_ref)
    /\ components_match fb_sub = components_match fb
    /\ components_match fb_ref = components_match fb
    /\ asm_global_score fb_sub = asm_global_score fb
    /\ asm_global_score fb_ref = asm_global_score fb
    /\ asm_success fb_sub = false
    /\ asm_success fb_ref = false.
Proof.
  intros Hlen Hex.
  destruct (assembly_mode_ok k sub_solids ref_solids tol) as (ms & Hm & _).
  assert (Hms : for_each (match_pair k tol)
                         (enumerate (combine sub_solids ref_solids)) = Ok ms).
  { rewrite assembly_mode_unfold in Hm.
    destruct (for_each _ _) as [ms' | e]; [|discriminate].
    cbn [bind] in Hm. injection Hm as Hm. congruence. }
  exists (assembly_feedback sub_solids ref_solids ms),
         (assembly_feedback (sub_solids ++ extra) ref_solids ms),
         (assembly_feedback sub_solids (ref_solids ++ extra) ms).
  split; [exact Hm|].
  split.
  { rewrite assembly_mode_unfold, (combine_app_l _ _ _ Hlen), Hms.
    reflexivity. }
  split.
  { rewrite assembly_mode_unfold, (combine_app_r _ _ _ Hlen), Hms.
    reflexivity. }
  unfold assembly_feedback.
  cbn [components_match asm_global_score asm_success].
  assert (Hl : (0 < List.length extra)%nat).
  { destruct extra; [contradiction | cbn; lia]. }
  repeat split; try reflexivity.
  - assert (E : Nat.eqb (List.length (sub_solids ++ extra))
                        (List.length ref_solids) = false).
    { apply Nat.eqb_neq. rewrite length_app. lia. }
    rewrite E. apply andb_false_r.
  - assert (E : Nat.eqb (List.length sub_solids)
                        (List.length (ref_solids ++ extra)) = false).
    { apply Nat.eqb_neq. rewrite length_app. lia. }
    rewrite E. apply andb_false_r.
Qed.

Lemma unpaired_components_witness :
  exists fb fb_sub,
    assembly_mode Adds [Samples.block; Samples.block]
                  [Samples.block; Samples.block] 1e-3 = Ok (Assembly fb)
    /\ assembly_mode Adds [Samples.block; Samples.block; Samples.long_block]
                     [Samples.block; Samples.block] 1e-3
       = Ok (Assembly fb_sub)
    /\ asm_global_score fb_sub = asm_global_score fb
    /\ asm_success fb_sub = false.
Proof.
  destruct (unpaired_components Adds [Samples.block; Samples.block]
              [Samples.block; Samples.block] [Samples.long_block] 1e-3)
    as (fb & fb_sub & fb_ref & E & Es & _ & _ & _ & G & _ & S & _).
  - reflexivity.
  - discriminate.
  - exists fb, fb_sub. auto.
Defined.

(* ================================================================== *)
(** ** Sums and means of scores *)
(* ================================================================== *)

Lemma sum_from (l : list Q) (a : Q) : fold_left Qplus l a == a + sum l.
Proof.
  unfold sum. revert a. induction l as [|x l IH]; intros a; cbn [fold_left].
  - ring.
  - rewrite (IH (a + x)), (IH (0 + x)). ring.
Qed.

Lemma sum_cons (x : Q) (l : list Q) : sum (x :: l) == x + sum l.
Proof. unfold sum at 1. cbn [fold_left]. rewrite sum_from. ring. Qed.

Lemma len_cons {A} (x : A) (l : list A) : len (x :: l) == 1 + len l.
Proof.
  unfold len. cbn [List.length]. rewrite Nat2Z.inj_succ, <- Z.add_1_l.
  rewrite inject_Z_plus. reflexivity.
Qed.

Lemma len_nonneg {A} (l : list A) : 0 <= len l.
Proof.
  unfold len. change 0 with (inject_Z 0). rewrite <- Zle_Qle. lia.
Qed.

Lemma len_pos {A} (x : A) (l : list A) : 0 < len (x :: l).
Proof. rewrite len_cons. pose proof (len_nonneg l). lra. Qed.

Lemma sum_bounds (lo hi : Q) (l : list Q) :
  Forall (fun x => lo <= x <= hi) l ->
  lo * len l <= sum l <= hi * len l.
Proof.
  induction 1 as [|x l [Hlo Hhi] HF IH].
  - change (sum []) with 0. change (@len Q []) with 0. split; lra.
  - rewrite sum_cons, len_cons. lra.
Qed.

(** The mean of scores between two bounds lies between them. *)
Lemma mean_bounds (lo hi : Q) (x : Q) (l : list Q) :
  Forall (fun y => lo <= y <= hi) (x :: l) ->
  lo <= sum (x :: l) / len (x :: l) <= hi.
Proof.
  intros H. pose proof (sum_bounds _ _ _ H) as [Hl Hh].
  pose proof (len_pos x l) as Hp. split.
  - apply Qle_shift_div_l; [exact Hp | exact Hl].
  - apply Qle_shift_div_r; [exact Hp | exact Hh].
Qed.

Lemma sum_all_equal (c : Q) (l : list Q) :
  Forall (fun y => y == c) l -> sum l == c * len l.
Proof.
  induction 1 as [|x l Hx HF IH].
  - change (sum []) with 0. change (@len Q []) with 0. ring.
  - rewrite sum_cons, len_cons, Hx, IH. ring.
Qed.

Lemma mean_all_equal (c : Q) (x : Q) (l : list Q) :
  Forall (fun y => y == c) (x :: l) -> sum (x :: l) / len (x :: l) == c.
Proof.
  intros H. rewrite (sum_all_equal _ _ H).
  pose proof (len_pos x l) as Hp. field. lra.
Qed.

(* ================================================================== *)
(** ** The FreeCAD comparator *)
(* ================================================================== *)

Lemma round_nonneg (x : Q) (n : nat) : 0 <= x -> 0 <= round x n.
Proof.
  intros H. pose proof (round_mono 0 x n H) as L.
  pose proof (round_inject_Z 0 n) as E. change (inject_Z 0) with 0 in E.
  lra.
Qed.

(** A list in non-increasing order. *)
Fixpoint descending (l : list Q) : Prop :=
  match l with
  | a :: ((b :: _) as l') => b <= a /\ descending l'
  | _ => True
  end.

Lemma insert_desc_length (x : Q) (l : list Q) :
  List.length (CS.insert_desc x l) = S (List.length l).
Proof.
  induction l as [|y l IH]; cbn [CS.insert_desc]; [reflexivity|].
  destruct (Qle_bool y x); cbn [List.length]; [reflexivity|].
  rewrite IH. reflexivity.
Qed.

Lemma sorted_desc_length (l : list Q) :
  List.length (CS.sorted_desc l) = List.length l.
Proof.
  unfold CS.sorted_desc. induction l as [|x l IH]; cbn [fold_right];
    [reflexivity|].
  rewrite insert_desc_length, IH. reflexivity.
Qed.

Lemma insert_desc_Forall (P : Q -> Prop) (x : Q) (l : list Q) :
  P x -> Forall P l -> Forall P (CS.insert_desc x l).
Proof.
  intros Hx. induction 1 as [|y l Hy HF IH]; cbn [CS.insert_desc].
  - constructor; [exact Hx | constructor].
  - destruct (Qle_bool y x); repeat constructor; assumption.
Qed.

Lemma sorted_desc_Forall (P : Q -> Prop) (l : list Q) :
  Forall P l -> Forall P (CS.sorted_desc l).
Proof.
  unfold CS.sorted_desc. induction 1 as [|x l Hx HF IH]; cbn [fold_right].
  - constructor.
  - apply insert_desc_Forall; assumption.
Qed.

Lemma insert_desc_descending (x : Q) (l : list Q) :
  descending l -> descending (CS.insert_desc x l).
Proof.
  induction l as [|y l IH]; intros H; cbn [CS.insert_desc].
  - exact I.
  - destruct (Qle_bool y x) eqn:E.
    + apply Qle_bool_iff in E. split; [exact E | exact H].
    + assert (Hxy : x <= y).
      { apply Qlt_le_weak, Qnot_le_lt. intros L.
        apply Qle_bool_iff in L. congruence. }
      destruct l as [|z l].
      * cbn. split; [exact Hxy | exact I].
      * destruct H as [Hzy Hd]. specialize (IH Hd).
        cbn [CS.insert_desc] in IH |- *.
        destruct (Qle_bool z x); cbn [descending] in IH |- *.
        -- split; [exact Hxy | exact IH].
        -- split; [exact Hzy | exact IH].
Qed.

Lemma sorted_desc_descending (l : list Q) : descending (CS.sorted_desc l).
Proof.
  unfold CS.sorted_desc. induction l as [|x l IH]; cbn [fold_right].
  - exact I.
  - apply insert_desc_descending, IH.
Qed.

(** What one solid contributes to [moments_list]. *)
Definition solid_moments (solid : result Vec3) : list (list Q) :=
  match solid with
  | Ok (e1, e2, e3) =>
    [[round (Qabs e1) 3; round (Qabs e2) 3; round (Qabs e3) 3]]
  | Raise _ => []
  end.

Lemma moments_list_triples (solids : list (result Vec3)) :
  Forall (fun l => exists a b c, l = [a; b; c]
                                 /\ 0 <= a /\ 0 <= b /\ 0 <= c)
         (flat_map solid_moments solids).
Proof.
  induction solids as [|solid solids IH]; cbn [flat_map]; [constructor|].
  destruct solid as [[[e1 e2] e3] | e]; cbn [solid_moments app];
    [|exact IH].
  constructor; [|exact IH].
  do 3 eexists. split; [reflexivity|].
  repeat split; apply round_nonneg, Qabs_nonneg.
Qed.

Lemma concat_triples_nonneg (ml : list (list Q)) :
  Forall (fun l => exists a b c, l = [a; b; c]
                                 /\ 0 <= a /\ 0 <= b /\ 0 <= c) ml ->
  Forall (fun x => 0 <= x) (map Qabs (List.concat ml))
  /\ List.length (map Qabs (List.concat ml)) = (3 * List.length ml)%nat.
Proof.
  induction 1 as [|l ml (a & b & c & -> & Ha & Hb & Hc) HF [IH1 IH2]].
  - split; [constructor | reflexivity].
  - cbn [List.concat app map List.length]. split.
    + repeat constructor; try apply Qabs_nonneg. exact IH1.
    + rewrite IH2. lia.
Qed.

(** The moments [get_step_properties] computes from the solids. *)
Definition moments_of (solids : list (result Vec3)) : list Q :=
  match solids, flat_map solid_moments solids with
  | [], _ => []
  | _ :: _, [] => []
  | _ :: _, _ :: _ =>
    match CS.sorted_desc
            (map Qabs (List.concat (flat_map solid_moments solids))) with
    | [] => [0; 0; 0]
    | _ :: _ =>
      CS.pad3
        (map (fun v => round v 3)
             (firstn 3 (CS.sorted_desc
                          (map Qabs (List.concat
                                       (flat_map solid_moments solids))))))
    end
  end.

Lemma get_step_properties_moments (fs : CS.FcFiles) (path : string)
      (p : CS.StepProperties) :
  CS.get_step_properties fs path = Ok p ->
  exists shape,
    fs path = Some shape
    /\ CS.principal_moments p = moments_of (CS.Solids shape).
Proof.
  unfold CS.get_step_properties.
  destruct (fs path) as [shape|]; [|discriminate].
  intros H. injection H as <-. exists shape. split; [reflexivity|].
  cbn [CS.principal_moments]. unfold moments_of.
  destruct (CS.Solids shape); reflexivity.
Qed.

Lemma moments_of_shape (solids : list (result Vec3)) :
  moments_of solids = []
  \/ exists a b c,
       moments_of solids = [a; b; c] /\ 0 <= c /\ c <= b /\ b <= a.
Proof.
  unfold moments_of.
  destruct solids as [|solid solids]; [left; reflexivity|].
  pose proof (moments_list_triples (solid :: solids)) as HT.
  destruct (flat_map solid_moments (solid :: solids)) as [|m ml];
    [left; reflexivity|].
  right.
  destruct (concat_triples_nonneg _ HT) as [Hnn Hlen].
  set (flat := map Qabs (List.concat (m :: ml))) in *.
  pose proof (sorted_desc_length flat) as Hl.
  pose proof (sorted_desc_Forall _ _ Hnn) as Hf.
  pose proof (sorted_desc_descending flat) as Hd.
  cbn [List.length] in Hlen.
  destruct (CS.sorted_desc flat) as [|a [|b [|c rest]]];
    cbn [List.length] in Hl; try lia.
  cbn [firstn map]. unfold CS.pad3. cbn [List.length Nat.sub repeat app].
  do 3 eexists. split; [reflexivity|].
  destruct Hd as (Hba & Hcb & _).
  inversion Hf as [|? ? _ Hf1]; subst.
  inversion Hf1 as [|? ? _ Hf2]; subst.
  inversion Hf2 as [|? ? Hc _]; subst.
  split; [apply round_nonneg, Hc|].
  split; apply round_mono; assumption.
Qed.

Lemma step_moments_shape (fs : CS.FcFiles) (path : string)
      (p : CS.StepProperties) :
  CS.get_step_properties fs path = Ok p ->
  CS.principal_moments p = []
  \/ exists a b c,
       CS.principal_moments p = [a; b; c]
       /\ 0 <= c /\ c <= b /\ b <= a.
Proof.
  intros H.
  destruct (get_step_properties_moments _ _ _ H) as (shape & _ & ->).
  apply moments_of_shape.
Qed.

(** X9: the principal moments [get_step_properties] returns are either
    the empty list or three values, none negative, in non-increasing
    order. *)
Theorem freecad_moments_shape (fs : CS.FcFiles) (path : string)
        (p : CS.StepProperties) :
  CS.get_step_properties fs path = Ok p ->
  CS.principal_moments p = []
  \/ exists a b c,
       CS.principal_moments p = [a; b; c]
       /\ 0 <= c /\ c <= b /\ b <= a.
Proof. apply step_moments_shape. Qed.

(** Two FreeCAD files: a part made of two solids, and a surface model
    without solids. *)
Definition fc_sample_files : CS.FcFiles :=
  fun path =>
    if String.eqb path "bracket.step"
    then Some (CS.mkFcShape 1500 (10, 20, 5) 12 24 16
                            [Ok (-3, 50, 7); Ok (1, 2, 80)])
    else if String.eqb path "skin.step"
    then Some (CS.mkFcShape 0 (1, 1, 0) 1 4 4 [])
    else None.

Lemma freecad_moments_shape_witness :
  exists p,
    CS.get_step_properties fc_sample_files "bracket.step" = Ok p
    /\ (CS.principal_moments p = []
        \/ exists a b c,
             CS.principal_moments p = [a; b; c]
             /\ 0 <= c /\ c <= b /\ b <= a).
Proof.
  destruct (CS.get_step_properties fc_sample_files "bracket.step")
    as [p | e] eqn:E; [|vm_compute in E; discriminate E].
  exists p. split; [reflexivity|].
  exact (freecad_moments_shape _ _ _ E).
Defined.

(** The test [compare_step_models] makes for a file without usable solids. *)
Definition shell_only (pm_sub pm_ref : list Q) : bool :=
  (CS.is_empty pm_sub || CS.list_eqb pm_sub [0; 0; 0])
  || (CS.is_empty pm_ref || CS.list_eqb pm_ref [0; 0; 0]).

Lemma compare_properties_moments (submitted reference : CS.StepProperties)
      (tol : Q) :
  let f := CS.fb_principal_moments
             (CS.feedback (CS.compare_properties submitted reference tol)) in
  let pm_sub := CS.principal_moments submitted in
  let pm_ref := CS.principal_moments reference in
  (shell_only pm_sub pm_ref = true -> CS.ok f = None)
  /\ (shell_only pm_sub pm_ref = false ->
      List.length pm_sub = List.length pm_ref ->
      exists b, CS.ok f = Some b)
  /\ (CS.message f = "Moments principaux non calculés."%string ->
      shell_only pm_sub pm_ref = false
      /\ List.length pm_sub <> List.length pm_ref).
Proof.
  unfold CS.compare_properties, shell_only.
  set (pm_sub := CS.principal_moments submitted).
  set (pm_ref := CS.principal_moments reference).
  cbv zeta.
  destruct ((CS.is_empty pm_sub || CS.list_eqb pm_sub [0; 0; 0])
            || (CS.is_empty pm_ref || CS.list_eqb pm_ref [0; 0; 0])) eqn:S.
  - cbn [CS.feedback CS.fb_principal_moments CS.ok CS.message].
    split; [reflexivity|]. split; discriminate.
  - apply orb_false_iff in S. destruct S as [S1 S2].
    apply orb_false_iff in S1, S2.
    destruct S1 as [E1 _], S2 as [E3 _]. rewrite E1, E3. cbn [negb andb].
    destruct (Nat.eqb (List.length pm_sub) (List.length pm_ref)) eqn:E5.
    + cbn [CS.feedback CS.fb_principal_moments].
      split; [discriminate|]. split.
      * intros _ _. destruct (all _); cbn [CS.ok]; eexists; reflexivity.
      * destruct (all _); cbn [CS.message]; discriminate.
    + cbn [CS.feedback CS.fb_principal_moments CS.ok CS.message].
      split; [discriminate|]. split.
      * intros _ H. apply Nat.eqb_neq in E5. contradiction.
      * intros _. split; [reflexivity|]. apply Nat.eqb_neq, E5.
Qed.

(** The result carries the two property dictionaries along. *)
Lemma compare_properties_echo (submitted reference : CS.StepProperties)
      (tol : Q) :
  CS.submitted (CS.compare_properties submitted reference tol) = submitted
  /\ CS.reference (CS.compare_properties submitted reference tol)
     = reference.
Proof.
  unfold CS.compare_properties. cbv zeta.
  destruct ((CS.is_empty (CS.principal_moments submitted)
             || CS.list_eqb (CS.principal_moments submitted) [0; 0; 0])
            || (CS.is_empty (CS.principal_moments reference)
                || CS.list_eqb (CS.principal_moments reference) [0; 0; 0]));
    [split; reflexivity|].
  destruct (negb (CS.is_empty (CS.principal_moments submitted))
            && negb (CS.is_empty (CS.principal_moments reference))
            && Nat.eqb (List.length (CS.principal_moments submitted))
                       (List.length (CS.principal_moments reference)));
    split; reflexivity.
Qed.

Lemma list_eqb_zeros_length (l : list Q) :
  CS.list_eqb l [0; 0; 0] = false -> CS.is_empty l = false ->
  (l = [] \/ exists a b c, l = [a; b; c]) -> List.length l = 3%nat.
Proof.
  intros _ E [-> | (a & b & c & ->)]; [discriminate | reflexivity].
Qed.

(** X10: comparing two files, [compare_step_models] never answers
    "Moments principaux non calculés.": the moments are marked [None]
    exactly when one of the two lists is empty or all zero, and are scored
    otherwise. *)
Theorem freecad_moments_always_decided (fs : CS.FcFiles) (sp rp : string)
        (tol : Q) (c : CS.StepComparison) :
  CS.compare_step_models fs sp rp tol = Ok c ->
  let f := CS.fb_principal_moments (CS.feedback c) in
  CS.message f <> "Moments principaux non calculés."%string
  /\ (CS.ok f = None
      <-> shell_only (CS.principal_moments (CS.submitted c))
                     (CS.principal_moments (CS.reference c)) = true).
Proof.
  unfold CS.compare_step_models.
  destruct (CS.get_step_properties fs sp) as [ps | e] eqn:Es; [|discriminate].
  destruct (CS.get_step_properties fs rp) as [pr | e] eqn:Er; [|discriminate].
  cbn [bind]. intros H. injection H as <-.
  destruct (compare_properties_moments ps pr tol) as (H1 & H2 & H3).
  cbv zeta in H1, H2, H3 |- *.
  destruct (compare_properties_echo ps pr tol) as [-> ->].
  assert (L : shell_only (CS.principal_moments ps) (CS.principal_moments pr)
              = false ->
              List.length (CS.principal_moments ps)
              = List.length (CS.principal_moments pr)).
  { intros S. unfold shell_only in S.
    apply orb_false_iff in S. destruct S as [S1 S2].
    apply orb_false_iff in S1, S2.
    destruct S1 as [E1 Z1], S2 as [E2 Z2].
    rewrite (list_eqb_zeros_length _ Z1 E1), (list_eqb_zeros_length _ Z2 E2).
    - reflexivity.
    - destruct (step_moments_shape _ _ _ Er) as [-> | (a & b & c & -> & _)];
        eauto.
    - destruct (step_moments_shape _ _ _ Es) as [-> | (a & b & c & -> & _)];
        eauto. }
  split.
  - intros M. destruct (H3 M) as [S N]. apply N, L, S.
  - split.
    + intros O.
      destruct (shell_only (CS.principal_moments ps)
                           (CS.principal_moments pr)) eqn:S; [reflexivity|].
      destruct (H2 eq_refl (L eq_refl)) as [b Hb]. congruence.
    + exact H1.
Qed.

Lemma freecad_moments_always_decided_witness :
  exists c,
    CS.compare_step_models fc_sample_files "skin.step" "bracket.step" 1e-3
    = Ok c
    /\ CS.ok (CS.fb_principal_moments (CS.feedback c)) = None.
Proof.
  destruct (CS.compare_step_models fc_sample_files "skin.step"
                                   "bracket.step" 1e-3)
    as [c | e] eqn:E; [|vm_compute in E; discriminate E].
  exists c. split; [reflexivity|].
  destruct (freecad_moments_always_decided _ _ _ _ _ E) as [_ [_ H]].
  apply H.
  pose proof E as E'. vm_compute in E'. injection E' as <-.
  reflexivity.
Defined.

Lemma CS_pct_eq (s r : Q) : CS.pct s r = pct s r.
Proof. reflexivity. Qed.

Lemma CS_within_eq (s r tol : Q) : CS.within s r tol = within s r tol.
Proof. reflexivity. Qed.

(** The mean of the relative scores of the paired moments. *)
Definition cs_moments_score (pm_sub pm_ref : list Q) : Q :=
  sum (map (fun '(s, r) => CS.pct s r) (combine pm_sub pm_ref))
  / len (map (fun '(s, r) => CS.pct s r) (combine pm_sub pm_ref)).

Definition cs_dimensions_score (sub ref : Vec3) : Q :=
  sum (map (fun '(s, r) => CS.pct s r) (zip3 sub ref))
  / len (map (fun '(s, r) => CS.pct s r) (zip3 sub ref)).

(** The four scores of the FreeCAD feedback. *)
Lemma compare_properties_scores (submitted reference : CS.StepProperties)
      (tol : Q) :
  let fb := CS.feedback (CS.compare_properties submitted reference tol) in
  CS.score (CS.fb_dimensions fb)
  = cs_dimensions_score (CS.dimensions submitted) (CS.dimensions reference)
  /\ CS.score (CS.fb_volume fb)
     = CS.pct (CS.volume submitted) (CS.volume reference)
  /\ CS.score (CS.fb_topology fb)
     = (if CS.Topology_eqb (CS.topology submitted) (CS.topology reference)
        then 100 else 0)
  /\ (moments_not_applicable (CS.principal_moments submitted)
                             (CS.principal_moments reference) = false ->
      CS.score (CS.fb_principal_moments fb)
      = cs_moments_score (CS.principal_moments submitted)
                         (CS.principal_moments reference)).
Proof.
  unfold CS.compare_properties, moments_not_applicable, cs_dimensions_score,
    cs_moments_score.
  set (pm_sub := CS.principal_moments submitted).
  set (pm_ref := CS.principal_moments reference).
  destruct (CS.dimensions submitted) as [[a1 a2] a3].
  destruct (CS.dimensions reference) as [[b1 b2] b3].
  cbv zeta.
  assert (D : forall (b : bool) (x : Q) (p : option (list Q)) (m1 m2 : string),
             CS.score (if b
                       then {| CS.ok := Some true; CS.score := x;
                               CS.pcts := p; CS.message := m1 |}
                       else {| CS.ok := Some false; CS.score := x;
                               CS.pcts := p; CS.message := m2 |}) = x).
  { intros [] ? ? ? ?; reflexivity. }
  destruct (CS.is_empty pm_sub) eqn:E1; cbn [orb negb andb];
    [cbn [CS.feedback CS.fb_dimensions CS.fb_volume CS.fb_topology];
     rewrite !D; repeat split; discriminate|].
  destruct (CS.list_eqb pm_sub [0;0;0]) eqn:E2; cbn [orb negb andb];
    [cbn [CS.feedback CS.fb_dimensions CS.fb_volume CS.fb_topology];
     rewrite !D; repeat split; discriminate|].
  destruct (CS.is_empty pm_ref) eqn:E3; cbn [orb negb andb];
    [cbn [CS.feedback CS.fb_dimensions CS.fb_volume CS.fb_topology];
     rewrite !D; repeat split; discriminate|].
  destruct (CS.list_eqb pm_ref [0;0;0]) eqn:E4; cbn [orb negb andb];
    [cbn [CS.feedback CS.fb_dimensions CS.fb_volume CS.fb_topology];
     rewrite !D; repeat split; discriminate|].
  destruct (Nat.eqb (List.length pm_sub) (List.length pm_ref)) eqn:E5;
    cbn [orb negb andb];
    cbn [CS.feedback CS.fb_dimensions CS.fb_volume CS.fb_topology
         CS.fb_principal_moments];
    rewrite !D; repeat split; try discriminate.
  intros _.
  destruct pm_sub as [|x pm_sub]; [discriminate|].
  destruct pm_ref as [|y pm_ref]; [discriminate|].
  reflexivity.
Qed.

Lemma cs_dimensions_score_bounds (sub ref : Vec3) :
  0 <= cs_dimensions_score sub ref <= 100.
Proof.
  unfold cs_dimensions_score.
  destruct sub as [[a1 a2] a3]. destruct ref as [[b1 b2] b3].
  cbn [zip3 map]. apply mean_bounds.
  repeat constructor; apply pct_in_range.
Qed.

Lemma cs_moments_score_bounds (pm_sub pm_ref : list Q) :
  0 <= cs_moments_score pm_sub pm_ref <= 100.
Proof.
  unfold cs_moments_score.
  destruct (map (fun '(s, r) => CS.pct s r) (combine pm_sub pm_ref))
    as [|x l] eqn:E.
  - split; discriminate.
  - apply mean_bounds. rewrite <- E. apply Forall_forall.
    intros y Hy. apply in_map_iff in Hy. destruct Hy as ([s r] & <- & _).
    apply pct_in_range.
Qed.

(** X11: the global score of the FreeCAD comparator lies between 0 and
    100. *)
Theorem freecad_score_bounded (submitted reference : CS.StepProperties)
        (tol : Q) :
  0 <= CS.global_score
         (CS.feedback (CS.compare_properties submitted reference tol))
    <= 100.
Proof.
  pose proof (freecad_moments submitted reference tol) as G.
  pose proof (compare_properties_scores submitted reference tol)
    as (Hd & Hv & Ht & Hp).
  cbv zeta in G, Hd, Hv, Ht, Hp.
  pose proof (cs_dimensions_score_bounds (CS.dimensions submitted)
                                         (CS.dimensions reference)) as Bd.
  pose proof (pct_in_range (CS.volume submitted) (CS.volume reference)) as Bv.
  rewrite <- CS_pct_eq in Bv.
  assert (Bt : 0 <= (if CS.Topology_eqb (CS.topology submitted)
                                        (CS.topology reference)
                     then 100 else 0) <= 100).
  { destruct (CS.Topology_eqb _ _); split; discriminate. }
  rewrite <- Hd in Bd. rewrite <- Hv in Bv. rewrite <- Ht in Bt.
  destruct (moments_not_applicable _ _).
  - destruct G as [_ ->]. apply (round_bounds _ 1 0 100).
    change (inject_Z 0) with 0. change (inject_Z 100) with 100. split.
    + apply Qle_shift_div_l; [reflexivity | lra].
    + apply Qle_shift_div_r; [reflexivity | lra].
  - destruct G as [_ ->].
    pose proof (cs_moments_score_bounds (CS.principal_moments submitted)
                                        (CS.principal_moments reference)) as Bp.
    rewrite <- (Hp eq_refl) in Bp.
    apply (round_bounds _ 1 0 100).
    change (inject_Z 0) with 0. change (inject_Z 100) with 100. split.
    + apply Qle_shift_div_l; [reflexivity | lra].
    + apply Qle_shift_div_r; [reflexivity | lra].
Qed.

Lemma CS_Topology_eqb_refl (t : CS.Topology) : CS.Topology_eqb t t = true.
Proof. unfold CS.Topology_eqb. rewrite !Z.eqb_refl. reflexivity. Qed.

Lemma combine_self_pct (l : list Q) :
  Forall (fun y => y == 100) (map (fun '(s, r) => CS.pct s r) (combine l l)).
Proof.
  induction l as [|x l IH]; cbn [combine map]; constructor.
  - rewrite CS_pct_eq. apply pct_self.
  - exact IH.
Qed.

(** X12: a property dictionary compared with itself gets the global score
    100 and succeeds, with or without principal moments. *)
Theorem freecad_self_comparison (p : CS.StepProperties) (tol : Q) :
  let fb := CS.feedback (CS.compare_properties p p tol) in
  CS.global_score fb = 100 /\ CS.success fb = true.
Proof.
  cbv zeta.
  assert (G : CS.global_score (CS.feedback (CS.compare_properties p p tol))
              = 100).
  { pose proof (freecad_moments p p tol) as G.
    pose proof (compare_properties_scores p p tol) as (Hd & Hv & Ht & Hp).
    cbv zeta in G, Hd, Hv, Ht, Hp.
    rewrite CS_Topology_eqb_refl in Ht.
    assert (Ed : CS.score (CS.fb_dimensions
                             (CS.feedback (CS.compare_properties p p tol)))
                 == 100).
    { rewrite Hd. unfold cs_dimensions_score.
      destruct (CS.dimensions p) as [[a b] c]. cbn [zip3 map].
      apply mean_all_equal. repeat constructor; rewrite CS_pct_eq;
        apply pct_self. }
    assert (Ev : CS.score (CS.fb_volume
                             (CS.feedback (CS.compare_properties p p tol)))
                 == 100).
    { rewrite Hv, CS_pct_eq. apply pct_self. }
    destruct (moments_not_applicable _ _) eqn:N.
    - destruct G as [_ ->]. transitivity (round 100 1); [|reflexivity].
      apply round_comp. rewrite Ed, Ev, Ht. reflexivity.
    - destruct G as [_ ->]. transitivity (round 100 1); [|reflexivity].
      apply round_comp. rewrite Ed, Ev, Ht, (Hp eq_refl).
      unfold cs_moments_score.
      pose proof (combine_self_pct (CS.principal_moments p)) as F.
      destruct (CS.principal_moments p) as [|x l] eqn:E.
      + discriminate N.
      + cbn [combine map] in F |- *.
        rewrite (mean_all_equal 100 _ _ F). reflexivity. }
  split; [exact G|].
  assert (S : CS.success (CS.feedback (CS.compare_properties p p tol))
              = geb (CS.global_score
                       (CS.feedback (CS.compare_properties p p tol))) 80).
  { unfold CS.compare_properties. cbv zeta.
    destruct ((CS.is_empty (CS.principal_moments p)
               || CS.list_eqb (CS.principal_moments p) [0; 0; 0])
              || (CS.is_empty (CS.principal_moments p)
                  || CS.list_eqb (CS.principal_moments p) [0; 0; 0]));
      [reflexivity|].
    destruct (negb (CS.is_empty (CS.principal_moments p))
              && negb (CS.is_empty (CS.principal_moments p))
              && Nat.eqb (List.length (CS.principal_moments p))
                         (List.length (CS.principal_moments p)));
      reflexivity. }
  rewrite S, G. reflexivity.
Qed.

(* ================================================================== *)
(** ** The FreeCAD assembly comparator *)
(* ================================================================== *)

Module CA := CompareAssemblies.

Lemma CA_match_pair_self (tol : Q) (i : Z) (c : CA.Component) :
  0 <= tol -> CA.match_passes (CA.match_pair tol (i, (c, c))) = true.
Proof.
  intros Ht. unfold CA.match_passes, CA.match_pair.
  cbn [CA.volume_ok CA.center_of_mass_ok].
  change (leb (Qabs (CA.volume c - CA.volume c))
              (tol * Qmax (Qabs (CA.volume c)) 1))
    with (within (CA.volume c) (CA.volume c) tol).
  rewrite (within_self _ _ Ht).
  destruct (CA.center_of_mass c) as [[x y] z]. cbn [zip3 map all forallb].
  change (leb (Qabs (x - x)) (tol * Qmax (Qabs x) 1)) with (within x x tol).
  change (leb (Qabs (y - y)) (tol * Qmax (Qabs y) 1)) with (within y y tol).
  change (leb (Qabs (z - z)) (tol * Qmax (Qabs z) 1)) with (within z z tol).
  rewrite !within_self by exact Ht. reflexivity.
Qed.

Lemma CA_matches_self (tol : Q) (l : list CA.Component) (n : Z) :
  0 <= tol ->
  Forall (fun m => CA.match_passes m = true)
         (map (CA.match_pair tol) (enumerate_from n (combine l l))).
Proof.
  intros Ht. apply Forall_forall. intros m Hm.
  apply in_map_iff in Hm. destruct Hm as ([i [a b]] & <- & Hin).
  pose proof (enumerate_from_combine_self _ _ _ _ _ Hin) as <-.
  apply CA_match_pair_self, Ht.
Qed.

Lemma assembly_ratio_bounds (n t : nat) :
  (n <= t)%nat ->
  0 <= inject_Z (Z.of_nat n) / inject_Z (Z.max (Z.of_nat t) 1) * 100 <= 100.
Proof.
  intros Hle.
  assert (Hd : 0 < inject_Z (Z.max (Z.of_nat t) 1)).
  { change 0 with (inject_Z 0). rewrite <- Zlt_Qlt. lia. }
  assert (Hn : 0 <= inject_Z (Z.of_nat n)).
  { change 0 with (inject_Z 0). rewrite <- Zle_Qle. lia. }
  assert (Hnt : inject_Z (Z.of_nat n) <= inject_Z (Z.max (Z.of_nat t) 1)).
  { rewrite <- Zle_Qle. lia. }
  split.
  - apply Qmult_le_0_compat; [|discriminate].
    apply Qle_shift_div_l; [exact Hd | lra].
  - setoid_replace 100 with (1 * 100) at 2 by reflexivity.
    apply Qmult_le_compat_r; [|discriminate].
    apply Qle_shift_div_r; [exact Hd | lra].
Qed.

(** X13: in the FreeCAD assembly comparator the global score lies between
    0 and 100, there is one match record for each pair of solids at the
    same position, and the comparison succeeds exactly when the score is
    at least 80 and both files have the same number of solids. *)
Theorem freecad_assembly_verdict (sub_comps ref_comps : list CA.Component)
        (tol : Q) :
  let fb := CA.compare_components sub_comps ref_comps tol in
  0 <= CA.global_score fb <= 100
  /\ List.length (CA.components_match fb)
     = Nat.min (List.length sub_comps) (List.length ref_comps)
  /\ (CA.success fb = true
      <-> 80 <= CA.global_score fb
          /\ List.length sub_comps = List.length ref_comps).
Proof.
  cbv zeta. unfold CA.compare_components.
  cbn [CA.global_score CA.components_match CA.success].
  split; [|split].
  - apply (round_bounds _ 1 0 100). apply assembly_ratio_bounds.
    apply filter_length_le.
  - rewrite length_map. unfold enumerate.
    rewrite enumerate_from_length. apply length_combine.
  - rewrite andb_true_iff, geb_true, Nat.eqb_eq. reflexivity.
Qed.

(** X14: a file compared with itself by the FreeCAD assembly comparator, at a
    tolerance of 0 or more: with at least one solid, the score is 100 and
    the comparison succeeds; without solids there is no pair, the score is
    0 and the comparison fails. *)
Theorem freecad_assembly_self_comparison (fs : CA.FcFiles) (path : string)
        (tol : Q) (solids : list CA.FcSolid) :
  fs path = Some solids ->
  0 <= tol ->
  exists fb,
    CA.compare_assemblies fs path path tol = Ok fb
    /\ (solids <> [] -> CA.global_score fb = 100 /\ CA.success fb = true)
    /\ (solids = [] -> CA.global_score fb = 0 /\ CA.success fb = false).
Proof.
  intros Hf Ht. unfold CA.compare_assemblies, CA.list_assembly_components.
  rewrite Hf. cbn [bind]. eexists. split; [reflexivity|].
  set (l := map _ solids).
  unfold CA.compare_components. cbn [CA.global_score CA.success].
  split.
  - intros Hne.
    assert (Hl : (0 < List.length l)%nat).
    { unfold l. rewrite length_map. destruct solids; [contradiction|].
      cbn. lia. }
    unfold enumerate.
    rewrite (filter_all _ _ (CA_matches_self tol l 0 Ht)).
    rewrite length_map.
    rewrite enumerate_from_length, length_combine, Nat.min_id, Nat.eqb_refl.
    assert (G : round (inject_Z (Z.of_nat (List.length l))
                       / inject_Z (Z.max (Z.of_nat (List.length l)) 1)
                       * 100) 1 = 100).
    { transitivity (round 100 1); [|reflexivity].
      apply round_comp. rewrite Z.max_l by lia. field.
      change 0 with (inject_Z 0). rewrite inject_Z_injective. lia. }
    rewrite G. split; reflexivity.
  - intros ->. split; reflexivity.
Qed.

Lemma freecad_assembly_self_comparison_witness :
  exists fb,
    CA.compare_assemblies
      (fun _ => Some [CA.mkFcSolid (1, 2, 3) 10; CA.mkFcSolid (0, 0, 0) 5])
      "pump.step" "pump.step" 1e-3 = Ok fb
    /\ CA.global_score fb = 100 /\ CA.success fb = true.
Proof.
  destruct (freecad_assembly_self_comparison
              (fun _ => Some [CA.mkFcSolid (1, 2, 3) 10;
                              CA.mkFcSolid (0, 0, 0) 5])
              "pump.step" 1e-3 _ eq_refl) as (fb & E & H & _).
  - discriminate.
  - exists fb. split; [exact E|]. apply H. discriminate.
Defined.

(* ================================================================== *)
(** ** More on drawings *)
(* ================================================================== *)

Lemma boxes_agree_sym (a b : DXF.OccShape) (tol : Q) :
  boxes_agree a b tol -> boxes_agree b a tol.
Proof.
  unfold boxes_agree. intros (H1 & H2 & H3 & H4).
  repeat split; rewrite Qabs_Qminus; assumption.
Qed.

(** X15: two shapes compare equal whichever is given first. *)
Theorem compare_geometry_symmetric (a b : DXF.OccShape) (tol : Q) :
  DXF.compare_geometry a b tol = DXF.compare_geometry b a tol.
Proof.
  apply eq_true_iff_eq. rewrite !compare_geometry_iff.
  split; intros [H E]; (split; [apply boxes_agree_sym, H | symmetry; exact E]).
Qed.






(** The data of a successful drawing comparison. *)
Lemma compare_dxf_drawings_readable (fs : DXF.DxfFiles) (sp rp : string)
      (tol : Q) (ref_counts sub_counts : DXF.Counts)
      (ref_geom sub_geom : DXF.Geometries) :
  fs rp = Some (DXF.Drawing ref_counts ref_geom) ->
  fs sp = Some (DXF.Drawing sub_counts sub_geom) ->
  exists c,
    DXF.compare_dxf_drawings fs sp rp tol
    = {| DXF.success := true; DXF.error := None;
         DXF.message := "DXF comparison complete";
         DXF.comparison := Some c |}
    /\ DXF.matched_shapes c
       = DXF.count_matches (DXF.create_occ_geometry ref_geom)
                           (DXF.create_occ_geometry sub_geom) tol
    /\ DXF.total_reference c
       = Z.of_nat (List.length (DXF.create_occ_geometry ref_geom))
    /\ DXF.total_submitted c
       = Z.of_nat (List.length (DXF.create_occ_geometry sub_geom))
    /\ DXF.score c
       = round (100 * inject_Z (DXF.matched_shapes c)
                / inject_Z (Z.max (DXF.total_reference c) 1)) 2.
Proof.
  intros Hr Hs.
  unfold DXF.compare_dxf_drawings, DXF.compare_body, DXF.exists_,
    DXF.analyze_dxf.
  rewrite Hr, Hs. cbn [negb].
  eexists. split; [reflexivity|].
  cbn [DXF.matched_shapes DXF.total_reference DXF.total_submitted DXF.score].
  repeat split. apply drawing_score. apply count_matches_le.
Qed.


(** X17: whenever a comparison is returned, the matches are at most the
    reference shapes and the score lies between 0 and 100. *)
Theorem drawing_score_bounded (fs : DXF.DxfFiles) (sp rp : string) (tol : Q)
        (c : DXF.Comparison) :
  DXF.comparison (DXF.compare_dxf_drawings fs sp rp tol) = Some c ->
  (0 <= DXF.matched_shapes c <= DXF.total_reference c)%Z
  /\ 0 <= DXF.score c <= 100.
Proof.
  intros Hc.
  destruct (fs rp) as [[er | cr gr] |] eqn:Er;
    try (destruct (dxf_failure_paths fs sp rp tol) as (_ & _ & F);
         [solve [left; exact Er | right; right; left; eauto]
         | cbv zeta in F; congruence]).
  destruct (fs sp) as [[es | cs gs] |] eqn:Es;
    try (destruct (dxf_failure_paths fs sp rp tol) as (_ & _ & F);
         [solve [right; left; exact Es | right; right; right; eauto]
         | cbv zeta in F; congruence]).
  destruct (compare_dxf_drawings_readable fs sp rp tol _ _ _ _ Er Es)
    as (c' & E & Hm & Ht & _ & Hsc).
  rewrite E in Hc. cbn [DXF.comparison] in Hc. injection Hc as <-.
  assert (B : (0 <= DXF.matched_shapes c' <= DXF.total_reference c')%Z).
  { rewrite Hm, Ht. apply count_matches_le. }
  split; [exact B|].
  rewrite Hsc. apply (round_bounds _ 2 0 100).
  change (inject_Z 0) with 0. change (inject_Z 100) with 100.
  assert (Hd : 0 < inject_Z (Z.max (DXF.total_reference c') 1)).
  { change 0 with (inject_Z 0). rewrite <- Zlt_Qlt. lia. }
  assert (Hn : 0 <= inject_Z (DXF.matched_shapes c')).
  { change 0 with (inject_Z 0). rewrite <- Zle_Qle. lia. }
  assert (Hnt : inject_Z (DXF.matched_shapes c')
                <= inject_Z (Z.max (DXF.total_reference c') 1)).
  { rewrite <- Zle_Qle. lia. }
  split.
  - apply Qle_shift_div_l; [exact Hd | lra].
  - apply Qle_shift_div_r; [exact Hd | lra].
Qed.

Lemma drawing_score_bounded_witness :
  exists c,
    DXF.comparison (DXF.compare_dxf_drawings Samples.dxf_files
                      "elbow.dxf" "two_lines.dxf" 1e-3) = Some c
    /\ 0 <= DXF.score c <= 100.
Proof.
  destruct (DXF.comparison (DXF.compare_dxf_drawings Samples.dxf_files
                              "elbow.dxf" "two_lines.dxf" 1e-3))
    as [c|] eqn:E; [|vm_compute in E; discriminate E].
  exists c. split; [reflexivity|].
  exact (proj2 (drawing_score_bounded _ _ _ _ _ E)).
Defined.






(* ================================================================== *)
(** ** The entities of a drawing and their tally *)
(* ================================================================== *)

Module DE := DxfEntities.

Lemma fold_left_invariant {A B} (P : A -> Prop) (f : A -> B -> A)
      (l : list B) :
  (forall s b, P s -> P (f s b)) -> forall s, P s -> P (fold_left f l s).
Proof.
  intros H. induction l as [|b l IH]; intros s Hs; cbn [fold_left].
  - exact Hs.
  - apply IH, H, Hs.
Qed.

(** The tally and the geometry lists agree. *)
Definition tally_agrees (st : DXF.Counts * DE.RawGeometries) : Prop :=
  let '(counts, geometries) := st in
  DXF.LINE counts = Z.of_nat (List.length (DE.RAW_LINES geometries))
  /\ DXF.CIRCLE counts = Z.of_nat (List.length (DE.RAW_CIRCLES geometries))
  /\ DXF.ARC counts = Z.of_nat (List.length (DE.RAW_ARCS geometries))
  /\ (DXF.POLYLINE counts + DXF.LWPOLYLINE counts)%Z
     = Z.of_nat (List.length (DE.RAW_POLYLINES geometries)).

Lemma analyze_step_agrees (st : DXF.Counts * DE.RawGeometries)
      (entity : DE.Entity) :
  tally_agrees st ->
  tally_agrees (let '(counts, geometries) := st in
                (DE.count_entity counts entity,
                 DE.extract_geometry geometries entity)).
Proof.
  destruct st as [counts geometries]. unfold tally_agrees.
  intros (H1 & H2 & H3 & H4).
  destruct entity; cbn [DE.count_entity DE.extract_geometry DXF.LINE
                        DXF.CIRCLE DXF.ARC DXF.POLYLINE DXF.LWPOLYLINE
                        DE.RAW_LINES DE.RAW_CIRCLES DE.RAW_ARCS
                        DE.RAW_POLYLINES];
    rewrite ?length_app; cbn [List.length]; repeat split; lia.
Qed.

Lemma analyze_entities_tally (msp : list DE.Entity) :
  forall st,
    fst (fold_left (fun '(counts, geometries) entity =>
                      (DE.count_entity counts entity,
                       DE.extract_geometry geometries entity)) msp st)
    = fold_left DE.count_entity msp (fst st).
Proof.
  induction msp as [|e msp IH]; intros [c g]; cbn [fold_left fst].
  - reflexivity.
  - rewrite IH. reflexivity.
Qed.

(** X20: both analyses of a drawing keep the same tally, and the geometry
    lists of [analyze_dxf] hold one item per counted line, circle and arc
    and one per polyline of either kind; dimensions and texts are counted
    but give no geometry. *)
Theorem analyze_entities_consistent (msp : list DE.Entity) :
  let '(counts, geometries) := DE.analyze_entities msp in
  counts = DE.count_entities msp
  /\ DXF.LINE counts = Z.of_nat (List.length (DE.RAW_LINES geometries))
  /\ DXF.CIRCLE counts = Z.of_nat (List.length (DE.RAW_CIRCLES geometries))
  /\ DXF.ARC counts = Z.of_nat (List.length (DE.RAW_ARCS geometries))
  /\ (DXF.POLYLINE counts + DXF.LWPOLYLINE counts)%Z
     = Z.of_nat (List.length (DE.RAW_POLYLINES geometries)).
Proof.
  pose proof (analyze_entities_tally msp (DE.no_counts, DE.no_geometries))
    as T.
  assert (A : tally_agrees (DE.analyze_entities msp)).
  { unfold DE.analyze_entities. apply (fold_left_invariant tally_agrees).
    - intros [c g] e Hst. exact (analyze_step_agrees (c, g) e Hst).
    - cbn. repeat split. }
  unfold DE.analyze_entities in *.
  destruct (fold_left _ msp (DE.no_counts, DE.no_geometries)) as [c g].
  cbn [fst] in T. split; [exact T | exact A].
Qed.

Lemma count_entity_comm (c : DXF.Counts) (a b : DE.Entity) :
  DE.count_entity (DE.count_entity c a) b
  = DE.count_entity (DE.count_entity c b) a.
Proof.
  destruct a, b; cbn [DE.count_entity DXF.LINE DXF.CIRCLE DXF.ARC
                      DXF.POLYLINE DXF.LWPOLYLINE DXF.DIMENSION DXF.TEXT
                      DXF.MTEXT]; reflexivity.
Qed.

Lemma fold_count_entity_perm (l l' : list DE.Entity) :
  Permutation l l' ->
  forall c, fold_left DE.count_entity l c = fold_left DE.count_entity l' c.
Proof.
  induction 1 as [| x l l' HP IH | x y l | l l' l'' H1 IH1 H2 IH2];
    intros c; cbn [fold_left].
  - reflexivity.
  - apply IH.
  - rewrite count_entity_comm. reflexivity.
  - rewrite IH1. apply IH2.
Qed.

(** An entity the tally lists. *)
Definition counted (entity : DE.Entity) : bool :=
  match entity with DE.Other => false | _ => true end.

Lemma fold_count_entity_counted (l : list DE.Entity) :
  forall c,
    fold_left DE.count_entity (filter counted l) c
    = fold_left DE.count_entity l c.
Proof.
  induction l as [|e l IH]; intros c; cbn [filter fold_left]; [reflexivity|].
  destruct e; cbn [counted fold_left]; apply IH.
Qed.

(** X21: the tally depends neither on the order of the entities nor on the
    entities of types it does not list. *)
Theorem tally_ignores_order_and_other_types (msp msp' : list DE.Entity) :
  Permutation (filter counted msp) (filter counted msp') ->
  DE.count_entities msp = DE.count_entities msp'.
Proof.
  intros H. unfold DE.count_entities.
  rewrite <- (fold_count_entity_counted msp),
          <- (fold_count_entity_counted msp').
  apply fold_count_entity_perm, H.
Qed.

Lemma tally_ignores_order_and_other_types_witness :
  DE.count_entities [DE.Text; DE.Other; DE.Line (0, 0, 0) (1, 1, 0)]
  = DE.count_entities [DE.Line (0, 0, 0) (1, 1, 0); DE.Text].
Proof.
  apply tally_ignores_order_and_other_types. cbn [filter counted].
  apply perm_swap.
Defined.

(* ================================================================== *)
(** ** The worker that compares two tallies *)
(* ================================================================== *)

Lemma worker_score_table (b1 b2 b3 b4 b5 b6 b7 b8 : bool) :
  let results := DXF.mkCountsMatch b1 b2 b3 b4 b5 b6 b7 b8 in
  let score :=
    round (inject_Z (DE.matched_types results) / inject_Z 8 * 100) 2 in
  score == 12.5 * inject_Z (DE.matched_types results)
  /\ (score = 100 <-> b1 && b2 && b3 && b4 && b5 && b6 && b7 && b8 = true).
Proof.
  destruct b1, b2, b3, b4, b5, b6, b7, b8;
    (split; [vm_compute; reflexivity|]);
    (split; intros H; vm_compute in H |- *;
     first [reflexivity | discriminate H]).
Qed.

Lemma counts_match_all (a b : DXF.Counts) :
  let m := DXF.counts_match a b in
  DXF.m_LINE m && DXF.m_CIRCLE m && DXF.m_ARC m && DXF.m_POLYLINE m
  && DXF.m_LWPOLYLINE m && DXF.m_DIMENSION m && DXF.m_TEXT m
  && DXF.m_MTEXT m = true
  <-> a = b.
Proof.
  cbv zeta. unfold DXF.counts_match.
  cbn [DXF.m_LINE DXF.m_CIRCLE DXF.m_ARC DXF.m_POLYLINE DXF.m_LWPOLYLINE
       DXF.m_DIMENSION DXF.m_TEXT DXF.m_MTEXT].
  rewrite !andb_true_iff, !Z.eqb_eq.
  destruct a, b; cbn. split.
  - intros (((((((-> & ->) & ->) & ->) & ->) & ->) & ->) & ->). reflexivity.
  - intros H. injection H as -> -> -> -> -> -> -> ->. repeat split.
Qed.

Lemma counts_match_sym (a b : DXF.Counts) :
  DXF.counts_match a b = DXF.counts_match b a.
Proof.
  unfold DXF.counts_match.
  rewrite (Z.eqb_sym (DXF.LINE a)), (Z.eqb_sym (DXF.CIRCLE a)),
    (Z.eqb_sym (DXF.ARC a)), (Z.eqb_sym (DXF.POLYLINE a)),
    (Z.eqb_sym (DXF.LWPOLYLINE a)), (Z.eqb_sym (DXF.DIMENSION a)),
    (Z.eqb_sym (DXF.TEXT a)), (Z.eqb_sym (DXF.MTEXT a)).
  reflexivity.
Qed.

(** X22: the worker's score is 12.5 points for each of the eight entity
    types whose counts agree; it is 100 exactly when the two tallies are equal,
    and it is the same when the two files are exchanged. *)
Theorem worker_score (fs : DE.DxfDocs) (rp sp : string)
        (r : DE.WorkerResult) :
  DE.compare_dxf fs rp sp = Ok r ->
  DE.w_score r == 12.5 * inject_Z (DE.matched_types (DE.w_results r))
  /\ (DE.w_score r = 100 <-> DE.w_reference r = DE.w_submitted r)
  /\ exists r',
       DE.compare_dxf fs sp rp = Ok r' /\ DE.w_score r' = DE.w_score r.
Proof.
  unfold DE.compare_dxf.
  destruct (DE.worker_analyze_dxf fs rp) as [rc | e] eqn:Er; [|discriminate].
  destruct (DE.worker_analyze_dxf fs sp) as [sc | e] eqn:Es; [|discriminate].
  cbn [bind]. intros H. injection H as <-.
  cbn [DE.w_score DE.w_results DE.w_reference DE.w_submitted].
  change (8 =? 0)%Z with false. cbv iota.
  pose proof (counts_match_all rc sc) as A. cbv zeta in A.
  destruct (DXF.counts_match rc sc) as [b1 b2 b3 b4 b5 b6 b7 b8] eqn:M.
  destruct (worker_score_table b1 b2 b3 b4 b5 b6 b7 b8) as [T1 T2].
  cbv zeta in T1, T2.
  cbn [DXF.m_LINE DXF.m_CIRCLE DXF.m_ARC DXF.m_POLYLINE DXF.m_LWPOLYLINE
       DXF.m_DIMENSION DXF.m_TEXT DXF.m_MTEXT] in A.
  split; [exact T1|]. split.
  - rewrite T2. exact A.
  - eexists. split; [reflexivity|].
    cbn [DE.w_score]. rewrite (counts_match_sym sc rc), M. reflexivity.
Qed.

Lemma worker_score_witness :
  exists r,
    DE.compare_dxf (fun _ => Ok [DE.Text; DE.Line (0, 0, 0) (1, 1, 0)])
                   "a.dxf" "b.dxf" = Ok r
    /\ DE.w_score r = 100.
Proof.
  destruct (DE.compare_dxf (fun _ => Ok [DE.Text; DE.Line (0, 0, 0) (1, 1, 0)])
                           "a.dxf" "b.dxf") as [r | e] eqn:E;
    [|vm_compute in E; discriminate E].
  exists r. split; [reflexivity|].
  apply (proj1 (proj2 (worker_score _ _ _ _ E))).
  vm_compute in E. injection E as <-. reflexivity.
Defined.

(* ================================================================== *)
(** ** The grade of a submission *)
(* ================================================================== *)

Module G := Grading.

(** A question with at least one right answer. *)
Definition has_answers (question : G.Question) : bool :=
  match question with [] => false | _ :: _ => true end.

(** The body of the loop over the questions. *)
Definition qcm_step (quiz_answers : G.QuizAnswers) (correct_count : Z)
           (item : Z * G.Question) : Z :=
  let '(idx, question) := item in
  match question with
  | [] => correct_count
  | _ :: _ =>
    if G.set_eqb question (G.get quiz_answers (G.str_int idx) [])
    then (correct_count + 1)%Z
    else correct_count
  end.

Lemma count_correct_fold (quiz_answers : G.QuizAnswers)
      (qcm : list G.Question) :
  G.count_correct quiz_answers qcm
  = fold_left (qcm_step quiz_answers) (enumerate qcm) 0%Z.
Proof. reflexivity. Qed.

Lemma count_correct_from (quiz_answers : G.QuizAnswers)
      (qcm : list G.Question) :
  forall (n acc : Z),
    (acc
     <= fold_left (qcm_step quiz_answers) (enumerate_from n qcm) acc
     <= acc + Z.of_nat (List.length (filter has_answers qcm)))%Z.
Proof.
  induction qcm as [|q qcm IH]; intros n acc;
    cbn [enumerate_from fold_left filter].
  - cbn. lia.
  - destruct q as [|x q]; cbn [has_answers qcm_step].
    + apply IH.
    + destruct (G.set_eqb (x :: q) _).
      * specialize (IH (n + 1)%Z (acc + 1)%Z). cbn [List.length]. lia.
      * specialize (IH (n + 1)%Z acc). cbn [List.length]. lia.
Qed.

(** X23: the quiz score lies between 0 and 10; the number of right answers
    is at most the number of questions that have a right answer, so a
    question without one counts in the total and can never be won. *)
Theorem qcm_score_bounds (quiz_answers : option G.QuizAnswers)
        (qcm : option (list G.Question)) :
  let '(qcm_score, correct_count, total_questions) :=
    G.calculate_qcm_score quiz_answers qcm in
  0 <= qcm_score <= 10
  /\ (0 <= correct_count <= total_questions)%Z
  /\ (forall questions,
         qcm = Some questions ->
         (correct_count
          <= Z.of_nat (List.length (filter has_answers questions)))%Z).
Proof.
  unfold G.calculate_qcm_score.
  destruct quiz_answers as [[|a qa]|]; destruct qcm as [[|q qs]|];
    try (split; [split; discriminate|];
         split; [lia|]; intros ? _; lia).
  set (qa' := a :: qa). set (l := q :: qs).
  pose proof (count_correct_from qa' l 0 0) as C.
  change (fold_left (qcm_step qa') (enumerate_from 0 l) 0%Z)
    with (G.count_correct qa' l) in C.
  pose proof (filter_length_le has_answers l) as F.
  assert (Hl : (0 < Z.of_nat (List.length l))%Z) by (cbn; lia).
  assert (E : (0 <? Z.of_nat (List.length l))%Z = true)
    by (apply Z.ltb_lt, Hl).
  rewrite E.
  split; [|split; [lia|]].
  - apply (round_bounds _ 2 0 10).
    change (inject_Z 0) with 0. change (inject_Z 10) with 10.
    assert (Hd : 0 < inject_Z (Z.of_nat (List.length l))).
    { change 0 with (inject_Z 0). rewrite <- Zlt_Qlt. exact Hl. }
    assert (Hn : 0 <= inject_Z (G.count_correct qa' l)).
    { change 0 with (inject_Z 0). rewrite <- Zle_Qle. lia. }
    assert (Hnt : inject_Z (G.count_correct qa' l)
                  <= inject_Z (Z.of_nat (List.length l))).
    { rewrite <- Zle_Qle. lia. }
    assert (R : 0 <= inject_Z (G.count_correct qa' l)
                     / inject_Z (Z.of_nat (List.length l)) <= 1).
    { split.
      - apply Qle_shift_div_l; [exact Hd | lra].
      - apply Qle_shift_div_r; [exact Hd | lra]. }
    lra.
  - intros questions H. injection H as <-. lia.
Qed.

(** Rounding adds less than one unit of the last digit kept. *)
Lemma round_upper (x : Q) (n : nat) : round x n <= x + / pow10 n.
Proof.
  rewrite round_value. pose proof (pow10_pos n) as Hp.
  pose proof (round_half_even_between (x * pow10 n)) as [_ Hb].
  pose proof (Qfloor_le (x * pow10 n)) as Hf.
  assert (H : inject_Z (round_half_even (x * pow10 n)) <= x * pow10 n + 1).
  { eapply Qle_trans; [rewrite <- Zle_Qle; exact Hb|].
    rewrite inject_Z_plus. change (inject_Z 1) with 1. lra. }
  apply Qle_shift_div_r; [exact Hp|].
  setoid_replace ((x + / pow10 n) * pow10 n) with (x * pow10 n + 1).
  - exact H.
  - field. lra.
Qed.

(** X24: a submission is completed only with a CAD comparison that returned a
    feedback whose global score is above 88: a comparison that failed or
    raised never passes, whatever the quiz. *)
Theorem pass_needs_high_global_score (cad_result : G.CadResult)
        (qcm_score : Q) :
  qcm_score <= 10 ->
  G.passed (G.total_points cad_result qcm_score) = true ->
  (exists feedback, cad_result = G.Compared feedback)
  /\ 88 < G.global_score_of cad_result.
Proof.
  intros Hq Hp. unfold G.passed in Hp. apply geb_true in Hp.
  unfold G.total_points in Hp.
  pose proof (round_upper (G.cad_points cad_result + qcm_score) 2) as U.
  change (/ pow10 2) with (1 # 100) in U.
  assert (Hc : 7999 # 100 <= G.cad_points cad_result) by lra.
  unfold G.cad_points in Hc.
  destruct (gtb (G.global_score_of cad_result) 0) eqn:E.
  - pose proof (round_upper (G.global_score_of cad_result * 90 / 100) 1) as V.
    change (/ pow10 1) with (1 # 10) in V.
    split.
    + destruct cad_result as [fb | err]; [eauto|].
      cbn [G.global_score_of] in E. discriminate E.
    + unfold Qdiv in V, Hc. change (/ 100) with (1 # 100) in V, Hc. lra.
  - exfalso. lra.
Qed.

Lemma pass_needs_high_global_score_witness :
  exists fb,
    compare_models Adds Samples.step_files "block.step" "block.step" 1e-3
    = Ok fb
    /\ 88 < G.global_score_of (G.Compared fb).
Proof.
  destruct (compare_models Adds Samples.step_files "block.step" "block.step"
                           1e-3) as [fb | e] eqn:E;
    [|vm_compute in E; discriminate E].
  exists fb. split; [reflexivity|].
  apply (pass_needs_high_global_score (G.Compared fb) 10).
  - discriminate.
  - vm_compute in E. injection E as <-. vm_compute. reflexivity.
Defined.

(* ================================================================== *)
(** ** The gate in front of the comparison of a submitted STEP file *)
(* ================================================================== *)




(* ================================================================== *)
(** ** The mark of a drawing exercise *)
(* ================================================================== *)

(** Rounding to an integer bound: a value rounded above a whole number is
    itself at least that number. *)
Lemma round_above (x : Q) (n : nat) (z : Z) :
  inject_Z z < round x n -> inject_Z z <= x.
Proof.
  intros H. destruct (Qlt_le_dec x (inject_Z z)) as [L | L]; [|exact L].
  exfalso.
  pose proof (round_mono x (inject_Z z) n (Qlt_le_weak _ _ L)) as M.
  rewrite (round_inject_Z z n) in M. lra.
Qed.

(** X26: a drawing exercise is completed only when both drawings could be
    read, the reference drawing has at least one shape and at least 88 in 100 of
    its shapes are matched: an unreadable file, and a reference without
    shapes, never pass, whatever the quiz. *)
Theorem drawing_pass (fs : DXF.DxfFiles) (sp rp : string) (tol : Q)
        (type : option string) (qcm_score : Q) :
  qcm_score <= 10 ->
  G.passed (G.drawing_total_points (DXF.compare_dxf_drawings fs sp rp tol)
                                   type qcm_score) = true ->
  exists c,
    DXF.comparison (DXF.compare_dxf_drawings fs sp rp tol) = Some c
    /\ DXF.success (DXF.compare_dxf_drawings fs sp rp tol) = true
    /\ (0 < DXF.total_reference c)%Z
    /\ (88 * DXF.total_reference c <= 100 * DXF.matched_shapes c)%Z.
Proof.
  intros Hq Hp. unfold G.passed in Hp. apply geb_true in Hp.
  unfold G.drawing_total_points in Hp.
  set (r := DXF.compare_dxf_drawings fs sp rp tol) in *.
  pose proof (round_upper (G.drawing_points r type + qcm_score) 2) as U.
  change (/ pow10 2) with (1 # 100) in U.
  assert (Hc : 7999 # 100 <= G.drawing_points r type) by lra.
  clear U Hp.
  unfold G.drawing_points in Hc. cbv zeta in Hc.
  destruct (DXF.comparison r) as [c|] eqn:Ec.
  2:{ exfalso.
      destruct ((match type with
                 | Some t => String.eqb t "assembly"
                 | None => false
                 end && (1 <? 1)%Z)
                || (negb match type with
                         | Some t => String.eqb t "assembly"
                         | None => false
                         end && (1 =? 1)%Z)) in Hc;
        vm_compute in Hc; apply Hc; reflexivity. }
  exists c. split; [reflexivity|].
  pose proof (Q.le_min_l (DXF.score c * 90 / 100) 90) as Hm.
  assert (Hs : 88 < DXF.score c).
  { unfold Qdiv in Hm, Hc. change (/ 100) with (1 # 100) in Hm, Hc. lra. }
  clear Hc Hm.
  unfold r in Ec.
  destruct (fs rp) as [[er | ref_counts ref_geom]|] eqn:Er.
  - destruct (dxf_failure_paths fs sp rp tol) as (_ & _ & N);
      [right; right; left; eauto | congruence].
  - destruct (fs sp) as [[es | sub_counts sub_geom]|] eqn:Es.
    + destruct (dxf_failure_paths fs sp rp tol) as (_ & _ & N);
        [right; right; right; eauto | congruence].
    + destruct (compare_dxf_drawings_readable fs sp rp tol _ _ _ _ Er Es)
        as (c' & E & Hmt & Ht & _ & Hsc).
      rewrite E in Ec. cbn [DXF.comparison] in Ec.
      injection Ec as ->.
      unfold r. rewrite E. cbn [DXF.success]. split; [reflexivity|].
      rewrite Hsc in Hs.
      apply (round_above _ 2 88) in Hs.
      assert (Hnn : (0 <= DXF.total_reference c)%Z) by (rewrite Ht; lia).
      pose proof (count_matches_le (DXF.create_occ_geometry ref_geom)
                    (DXF.create_occ_geometry sub_geom) tol) as Hle.
      rewrite <- Hmt, <- Ht in Hle.
      assert (Hd : 0 < inject_Z (Z.max (DXF.total_reference c) 1)).
      { change 0 with (inject_Z 0). rewrite <- Zlt_Qlt. lia. }
      change (inject_Z 88) with 88 in Hs.
      set (d := inject_Z (Z.max (DXF.total_reference c) 1)) in *.
      set (m := inject_Z (DXF.matched_shapes c)) in *.
      assert (Hs' : 88 * d <= 100 * m).
      { setoid_replace (100 * m) with (100 * m / d * d) by (field; lra).
        apply Qmult_le_compat_r; [exact Hs | lra]. }
      assert (Hz : (88 * Z.max (DXF.total_reference c) 1
                    <= 100 * DXF.matched_shapes c)%Z).
      { rewrite Zle_Qle, !inject_Z_mult.
        change (inject_Z 88) with 88. change (inject_Z 100) with 100.
        exact Hs'. }
      split; lia.
    + destruct (dxf_failure_paths fs sp rp tol) as (_ & _ & N);
        [right; left; exact Es | congruence].
  - destruct (dxf_failure_paths fs sp rp tol) as (_ & _ & N);
      [left; exact Er | congruence].
Qed.

Lemma drawing_pass_witness :
  exists c,
    DXF.comparison (DXF.compare_dxf_drawings Samples.dxf_files "line.dxf"
                      "two_lines.dxf" 1e-3) = Some c
    /\ (0 < DXF.total_reference c)%Z.
Proof.
  destruct (drawing_pass Samples.dxf_files "line.dxf" "two_lines.dxf" 1e-3
                         None 10) as (c & E & _ & H & _).
  - discriminate.
  - vm_compute. reflexivity.
  - exists c. split; [exact E | exact H].
Defined.
